(** * Unreal add-on workbench: identifier utilities, endpoint normaliser,
      artifact generators and the workbench component

    A shallow embedding of [src/components/PluginWorkbench.tsx] and of the
    part of [CodeBlock.tsx] that shows an artifact.

    Strings are sequences of code units; the embedding takes the code units
    below 256 ([ascii]).  The regular expressions of the source only name
    ASCII classes, so every other code unit behaves like the ones above 127
    here. *)

From Stdlib Require Import String Ascii List Bool Arith Lia.
From Stdlib Require Import DecimalString DecimalNat Sorting.Sorted Permutation.
Import ListNotations.

#[local] Set Warnings "-register-all".

Local Open Scope list_scope.
Local Open Scope string_scope.

(* ================================================================== *)
(** * The string primitives of the host language *)
(* ================================================================== *)

Module JS.

(** The double quote and the line feed, which the templates use often. *)
Definition dq : string := String (ascii_of_nat 34) EmptyString.
Definition nl : string := String (ascii_of_nat 10) EmptyString.

(** [q s] is [s] between double quotes. *)
Definition q (s : string) : string := dq ++ s ++ dq.

Definition between (lo hi : nat) (c : ascii) : bool :=
  Nat.leb lo (nat_of_ascii c) && Nat.leb (nat_of_ascii c) hi.

Definition isUpper : ascii -> bool := between 65 90.   (* [A-Z] *)
Definition isLower : ascii -> bool := between 97 122.  (* [a-z] *)
Definition isDigit : ascii -> bool := between 48 57.   (* [0-9] *)
Definition isLetter (c : ascii) : bool := isUpper c || isLower c.
Definition isAlnum (c : ascii) : bool := isLetter c || isDigit c.
Definition isUnderscore (c : ascii) : bool := Nat.eqb (nat_of_ascii c) 95.
Definition isWord (c : ascii) : bool := isAlnum c || isUnderscore c.

(** White space as [trim] sees it, among the code units below 256:
    TAB, LF, VT, FF, CR, SP and NBSP. *)
Definition isWhitespace (c : ascii) : bool :=
  between 9 13 c || Nat.eqb (nat_of_ascii c) 32 || Nat.eqb (nat_of_ascii c) 160.

(** Truthiness of a string: the empty string is the only falsy one. *)
Definition truthy (s : string) : bool :=
  match s with
  | EmptyString => false
  | String _ _ => true
  end.

(** [a || b] on strings. *)
Definition orElse (a b : string) : string := if truthy a then a else b.

Fixpoint trimStart (s : string) : string :=
  match s with
  | EmptyString => EmptyString
  | String c s' => if isWhitespace c then trimStart s' else s
  end.

Fixpoint trimEnd (s : string) : string :=
  match s with
  | EmptyString => EmptyString
  | String c s' =>
      let t := trimEnd s' in
      if isWhitespace c && negb (truthy t) then EmptyString else String c t
  end.

Definition trim (s : string) : string := trimEnd (trimStart s).

(** [toLowerCase]: the letters A-Z and, above 127, the letters U+00C0 to
    U+00DE without the multiplication sign. *)
Definition lowerChar (c : ascii) : ascii :=
  if isUpper c || (between 192 222 c && negb (Nat.eqb (nat_of_ascii c) 215))
  then ascii_of_nat (nat_of_ascii c + 32)
  else c.

(** [toUpperCase].  The program applies it only to strings over
    [A-Za-z0-9_], where it is the mapping of a-z to A-Z. *)
Definition upperChar (c : ascii) : ascii :=
  if isLower c then ascii_of_nat (nat_of_ascii c - 32) else c.

Fixpoint mapChars (f : ascii -> ascii) (s : string) : string :=
  match s with
  | EmptyString => EmptyString
  | String c s' => String (f c) (mapChars f s')
  end.

Definition toLowerCase : string -> string := mapChars lowerChar.
Definition toUpperCase : string -> string := mapChars upperChar.

Fixpoint filterChars (p : ascii -> bool) (s : string) : string :=
  match s with
  | EmptyString => EmptyString
  | String c s' => if p c then String c (filterChars p s') else filterChars p s'
  end.

Fixpoint dropWhile (p : ascii -> bool) (s : string) : string :=
  match s with
  | EmptyString => EmptyString
  | String c s' => if p c then dropWhile p s' else s
  end.

(** [s.replace(/[class]+/g, r)]: every maximal run of characters of the
    class becomes one [r].  [inRun] tells that the character before was of
    the class. *)
Fixpoint replaceRuns (p : ascii -> bool) (r : string) (inRun : bool)
    (s : string) : string :=
  match s with
  | EmptyString => EmptyString
  | String c s' =>
      if p c then
        (if inRun then replaceRuns p r true s' else r ++ replaceRuns p r true s')
      else String c (replaceRuns p r false s')
  end.

(** [s.split(sep)] for a separator of one character: never the empty list. *)
Fixpoint split (sep : ascii) (s : string) : list string :=
  match s with
  | EmptyString => [EmptyString]
  | String c s' =>
      if Ascii.eqb c sep then EmptyString :: split sep s'
      else match split sep s' with
           | h :: t => String c h :: t
           | [] => [String c EmptyString]
           end
  end.

(** [xs.join(sep)]. *)
Fixpoint join (sep : string) (xs : list string) : string :=
  match xs with
  | [] => EmptyString
  | [x] => x
  | x :: rest => x ++ sep ++ join sep rest
  end.

(** [xs.filter(Boolean)] on strings. *)
Definition filterBoolean (xs : list string) : list string := filter truthy xs.

Fixpoint startsWith (s p : string) : bool :=
  match p, s with
  | EmptyString, _ => true
  | String _ _, EmptyString => false
  | String a p', String b s' => Ascii.eqb a b && startsWith s' p'
  end.

Fixpoint includes (s p : string) : bool :=
  startsWith s p ||
  match s with
  | EmptyString => false
  | String _ s' => includes s' p
  end.

Fixpoint endsWith (s p : string) : bool :=
  String.eqb s p ||
  match s with
  | EmptyString => false
  | String _ s' => endsWith s' p
  end.

(** [String(n)] for a non-negative integer. *)
Definition ofNat (n : nat) : string := NilEmpty.string_of_uint (Nat.to_uint n).

(** [Array.prototype.sort()] without a comparator orders strings by their
    code units; the sort is stable. *)
Fixpoint insertSorted (x : string) (xs : list string) : list string :=
  match xs with
  | [] => [x]
  | y :: ys => if String.leb x y then x :: xs else y :: insertSorted x ys
  end.

Definition sort (xs : list string) : list string :=
  fold_right insertSorted [] xs.

(** [xs.push(x)]. *)
Definition push {A : Type} (xs : list A) (x : A) : list A := (xs ++ [x])%list.

(** A [Set] of strings: the elements in insertion order, none twice. *)
Definition SetOf := list string.

Definition has (t : SetOf) (x : string) : bool := existsb (String.eqb x) t.
Definition add (t : SetOf) (x : string) : SetOf := if has t x then t else push t x.
Definition newSet (xs : list string) : SetOf := fold_left add xs [].

End JS.

Import JS.

(* ================================================================== *)
(** * Data model *)
(* ================================================================== *)

Inductive LoadingPhase := Default | PostDefault | PostEngineInit | PostSplash.

Definition phaseName (p : LoadingPhase) : string :=
  match p with
  | Default => "Default"
  | PostDefault => "PostDefault"
  | PostEngineInit => "PostEngineInit"
  | PostSplash => "PostSplash"
  end.

Record PluginMetadata := {
  pluginName : string;
  friendlyName : string;
  version : string;
  description : string;
  category : string;
  loadingPhase : LoadingPhase;
  supportedTargets : string;
  enableEditorModule : bool;
  enableBlueprintLibrary : bool;
  enableAsyncActions : bool;
  enableEditorMenu : bool
}.

Record BlueprintParameter := { pname : string; ptype : string }.

Record BlueprintFunction := {
  fname : string;
  freturnType : string;
  fdescription : string;
  fparameters : list BlueprintParameter
}.

(* ================================================================== *)
(** * Identifier utilities *)
(* ================================================================== *)

(** [segment.charAt(0).toUpperCase() + segment.slice(1)]. *)
Definition capitalise (segment : string) : string :=
  match segment with
  | EmptyString => EmptyString
  | String c rest => toUpperCase (String c EmptyString) ++ rest
  end.

(** [toPascalCase] (lines 83-89): runs of other characters become one
    space, the text is split at the spaces, empty segments go, each segment
    is capitalised, and the segments are joined. *)
Definition toPascalCase (value : string) : string :=
  join EmptyString (map capitalise
    (filterBoolean (split " " (replaceRuns (fun c => negb (isAlnum c)) " " false value)))).

(** [s.replace(/([a-z0-9])([A-Z])/g, "$1_$2")]: a match consumes both
    characters, and the search goes on after them. *)
Fixpoint splitCamel (s : string) : string :=
  match s with
  | EmptyString => EmptyString
  | String a s' =>
      match s' with
      | EmptyString => s
      | String b s'' =>
          if (isLower a || isDigit a) && isUpper b
          then String a (String "_" (String b (splitCamel s'')))
          else String a (splitCamel s')
      end
  end.

(** [s.replace(/^_|_$/g, "")]. *)
Definition stripLast (s : string) : string :=
  (fix go (s : string) : string :=
     match s with
     | EmptyString => EmptyString
     | String c s' =>
         match s' with
         | EmptyString => if isUnderscore c then EmptyString else s
         | String _ _ => String c (go s')
         end
     end) s.

Definition stripEdges (s : string) : string :=
  match s with
  | EmptyString => EmptyString
  | String c s' => if isUnderscore c then stripLast s' else stripLast s
  end.

(** [toApiMacro] (lines 91-98). *)
Definition toApiMacro (value : string) : string :=
  toUpperCase
    (stripEdges
      (replaceRuns isUnderscore "_" false
        (splitCamel
          (mapChars (fun c => if isAlnum c then c else "_"%char) value))))
  ++ "_API".

(** The third replacement, [/^[0-9]/ -> "_$&"]. *)
Definition prefixDigit (s : string) : string :=
  match s with
  | EmptyString => EmptyString
  | String c _ => if isDigit c then String "_" s else s
  end.

(** [sanitiseIdentifier] (lines 100-104): the characters outside
    [A-Za-z0-9_] go, then the leading run that is neither letter nor
    underscore, then a leading digit gets an underscore in front. *)
Definition sanitiseIdentifier (value : string) : string :=
  prefixDigit
    (dropWhile (fun c => negb (isLetter c || isUnderscore c))
      (filterChars isWord value)).

(** [defaultReturnSnippet] (lines 106-124). *)
Definition defaultReturnSnippet (returnType : string) : string :=
  let trimmed := toLowerCase (trim returnType) in
  if String.eqb trimmed "void" then EmptyString
  else if String.eqb trimmed "bool" then "return false;"
  else if includes trimmed "float" || includes trimmed "double" then "return 0.f;"
  else if startsWith trimmed "int" || endsWith trimmed "32" || endsWith trimmed "64"
       then "return 0;"
  else if String.eqb trimmed "fstring" then "return TEXT(" ++ dq ++ dq ++ ");"
  else "return {};".

(* ================================================================== *)
(** * Endpoint normaliser *)
(* ================================================================== *)

(** The [while] loop of [uniqueParameterName] (lines 126-134): [candidate] is the name
    under test and [index] the suffix that comes next.  [None] is a loop
    that has not ended within [fuel] iterations. *)
Fixpoint uniqueLoop (fuel : nat) (name : string) (taken : SetOf)
    (candidate : string) (index : nat) : option string :=
  match fuel with
  | O => None
  | S fuel' =>
      if has taken candidate
      then uniqueLoop fuel' name taken (name ++ ofNat index) (S index)
      else Some candidate
  end.

(** [uniqueParameterName name taken]: the chosen name and the set after
    [taken.add(candidate)].  One more iteration than [taken] has elements is
    enough for the loop to end ([uniqueLoop_total]). *)
Definition uniqueParameterName (name : string) (taken : SetOf) : string * SetOf :=
  let candidate :=
    match uniqueLoop (S (length taken)) name taken name 1 with
    | Some c => c
    | None => name
    end in
  (candidate, add taken candidate).

(** [fn.parameters.map(...)] with the set [taken] that the callback
    updates, threaded from one parameter to the next. *)
Fixpoint sanitizeParameters (index : nat) (ps : list BlueprintParameter)
    (taken : SetOf) : list BlueprintParameter * SetOf :=
  match ps with
  | [] => ([], taken)
  | parameter :: rest =>
      let safeType := orElse (trim (ptype parameter)) "float" in
      let safeName :=
        orElse (sanitiseIdentifier (pname parameter)) ("Param" ++ ofNat index) in
      let '(unique, taken1) := uniqueParameterName safeName taken in
      let '(out, taken2) := sanitizeParameters index rest taken1 in
      ({| pname := unique; ptype := safeType |} :: out, taken2)
  end.

Record NormalizedFunction := {
  key : string;
  displayName : string;
  ndescription : string;
  returnType : string;
  parameters : list BlueprintParameter;
  metadataSegments : list string
}.

Definition worldContextName : string := "WorldContextObject".

Definition worldContextParameter : BlueprintParameter :=
  {| pname := worldContextName; ptype := "UObject*" |}.

(** [parameters.findIndex(p => p.name === "WorldContextObject") !== -1]. *)
Definition namesWorldContext (ps : list BlueprintParameter) : bool :=
  existsb (fun parameter => String.eqb (pname parameter) worldContextName) ps.

(** The callback of [blueprintFunctions.map] (lines 145-182).  The block
    under [if (!hasWorldContext)] assigns [parameters] and
    [hasWorldContext]; it also adds the context name to [taken], which is
    not read afterwards. *)
Definition normalizeFunction (friendly : string) (index : nat)
    (fn : BlueprintFunction) : NormalizedFunction :=
  let '(sanitizedParameters, taken) :=
    sanitizeParameters index (fparameters fn) [] in
  let found := namesWorldContext sanitizedParameters in
  let parameters1 :=
    if negb found then worldContextParameter :: sanitizedParameters
    else sanitizedParameters in
  let hasWorldContext := if negb found then true else found in
  let segments0 := ["Category=" ++ q (friendly ++ "|Blueprint")] in
  let segments :=
    if hasWorldContext
    then push segments0 ("WorldContext=" ++ q worldContextName)
    else segments0 in
  {| key := fname fn ++ "-" ++ ofNat index;
     displayName :=
       toPascalCase (orElse (sanitiseIdentifier (fname fn)) "GeneratedFunction");
     ndescription := fdescription fn;
     returnType := orElse (trim (freturnType fn)) "void";
     parameters := parameters1;
     metadataSegments := segments |}.

(** [xs.map((x, index) => f(index, x))]. *)
Fixpoint mapFrom {A B : Type} (f : nat -> A -> B) (index : nat) (xs : list A) : list B :=
  match xs with
  | [] => []
  | x :: rest => f index x :: mapFrom f (S index) rest
  end.

Definition mapIndexed {A B : Type} (f : nat -> A -> B) (xs : list A) : list B :=
  mapFrom f 0 xs.

(** The function given to [useMemo] for [normalizedBlueprintFunctions]. *)
Definition normalizeAll (friendly : string) (fns : list BlueprintFunction)
    : list NormalizedFunction :=
  mapIndexed (normalizeFunction friendly) fns.

(* ================================================================== *)
(** * Derived identifiers *)
(* ================================================================== *)

(** The identifiers of lines 185-190, each a function of the module name. *)
Definition moduleNameOf (metadata : PluginMetadata) : string :=
  toPascalCase (orElse (pluginName metadata) "AddonModule").
Definition moduleApiMacroOf (moduleName : string) : string := toApiMacro moduleName.
Definition logCategoryOf (moduleName : string) : string := "Log" ++ moduleName.
Definition moduleClassOf (moduleName : string) : string := "F" ++ moduleName ++ "Module".
Definition blueprintClassOf (moduleName : string) : string :=
  "U" ++ moduleName ++ "BlueprintLibrary".
Definition asyncActionClassOf (moduleName : string) : string :=
  "U" ++ moduleName ++ "AsyncAction".

(* ================================================================== *)
(** * The descriptor and its serialisation *)
(* ================================================================== *)

Inductive Json :=
| JNum (n : nat)
| JStr (s : string)
| JBool (b : bool)
| JArr (items : list Json)
| JObj (fields : list (string * Json)).

Definition hexDigit (n : nat) : ascii :=
  if Nat.ltb n 10 then ascii_of_nat (48 + n) else ascii_of_nat (87 + n).

(** The reverse solidus, which starts every escape. *)
Definition bs : string := String (ascii_of_nat 92) EmptyString.

(** One code unit inside a quoted string, as [JSON.stringify] writes it. *)
Definition quoteChar (c : ascii) : string :=
  let n := nat_of_ascii c in
  if Nat.eqb n 34 then bs ++ dq
  else if Nat.eqb n 92 then bs ++ bs
  else if Nat.eqb n 8 then bs ++ "b"
  else if Nat.eqb n 12 then bs ++ "f"
  else if Nat.eqb n 10 then bs ++ "n"
  else if Nat.eqb n 13 then bs ++ "r"
  else if Nat.eqb n 9 then bs ++ "t"
  else if Nat.ltb n 32
       then bs ++ "u00"
            ++ String (hexDigit (n / 16)) (String (hexDigit (n mod 16)) EmptyString)
  else String c EmptyString.

Fixpoint quoteBody (s : string) : string :=
  match s with
  | EmptyString => EmptyString
  | String c s' => quoteChar c ++ quoteBody s'
  end.

Definition quoteJSON (s : string) : string := q (quoteBody s).

(** [JSON.stringify(v, null, 2)] below the indentation [indent]. *)
Fixpoint stringifyAt (indent : string) (v : Json) : string :=
  let inner := indent ++ "  " in
  match v with
  | JNum n => ofNat n
  | JStr s => quoteJSON s
  | JBool b => if b then "true" else "false"
  | JArr items =>
      match items with
      | [] => "[]"
      | _ :: _ =>
          "[" ++ nl ++ inner
          ++ join ("," ++ nl ++ inner) (map (stringifyAt inner) items)
          ++ nl ++ indent ++ "]"
      end
  | JObj fields =>
      match fields with
      | [] => "{}"
      | _ :: _ =>
          "{" ++ nl ++ inner
          ++ join ("," ++ nl ++ inner)
               (map (fun kv => let '(k, x) := kv in
                               quoteJSON k ++ ": " ++ stringifyAt inner x) fields)
          ++ nl ++ indent ++ "}"
      end
  end.

Definition stringify (v : Json) : string := stringifyAt EmptyString v.

Definition moduleEntry (name type phase : string) : Json :=
  JObj [("Name", JStr name); ("Type", JStr type); ("LoadingPhase", JStr phase)].

Definition descriptorModules (metadata : PluginMetadata) (moduleName : string)
    : list Json :=
  let modules := [moduleEntry moduleName "Runtime" (phaseName (loadingPhase metadata))] in
  if enableEditorModule metadata
  then push modules (moduleEntry (moduleName ++ "Editor") "Editor" "Default")
  else modules.

Definition descriptorPlugins (metadata : PluginMetadata) : list Json :=
  if enableAsyncActions metadata
  then [JObj [("Name", JStr "GameplayTasks"); ("Enabled", JBool true)]]
  else [].

(** The object given to [JSON.stringify] (lines 208-232). *)
Definition descriptorObject (metadata : PluginMetadata) (moduleName : string) : Json :=
  JObj
    [ ("FileVersion", JNum 3);
      ("Version", JNum 1);
      ("VersionName", JStr (version metadata));
      ("FriendlyName", JStr (friendlyName metadata));
      ("Description", JStr (description metadata));
      ("Category", JStr (category metadata));
      ("CreatedBy", JStr "Unreal Addon Architect");
      ("CreatedByURL", JStr "https://agentic-8d19d81d.vercel.app");
      ("EngineVersion", JStr "5.3.0");
      ("Modules", JArr (descriptorModules metadata moduleName));
      ("Plugins", JArr (descriptorPlugins metadata));
      ("SupportedTargetPlatforms",
        JArr (map (fun entry => JStr (trim entry))
                  (split "," (supportedTargets metadata)))) ].

Definition descriptorJson (metadata : PluginMetadata) (moduleName : string) : string :=
  stringify (descriptorObject metadata moduleName).

Definition defaultMetadata : PluginMetadata :=
  {| pluginName := "NebulaToolkit";
     friendlyName := "Nebula Toolkit";
     version := "1.0.0";
     description :=
       "Mission scripting utilities, smart triggers, and authoring helpers for cinematic gameplay sequences.";
     category := "Gameplay";
     loadingPhase := PostEngineInit;
     supportedTargets := "Win64, Mac, Linux";
     enableEditorModule := true;
     enableBlueprintLibrary := true;
     enableAsyncActions := true;
     enableEditorMenu := true |}.

Definition defaultFunctions : list BlueprintFunction :=
  [ {| fname := "PulseMissionEvent";
       freturnType := "void";
       fdescription :=
         "Broadcasts a mission pulse to subscribed listeners with a contextual payload for analytics or sequencing.";
       fparameters :=
         [ {| pname := "WorldContextObject"; ptype := "UObject*" |};
           {| pname := "EventTag"; ptype := "FName" |};
           {| pname := "Payload"; ptype := "FGameplayTagContainer" |} ] |};
    {| fname := "GetSequenceProgress";
       freturnType := "float";
       fdescription :=
         "Returns a normalized 0-1 progress value for the active master sequence, clamped for safe UI usage.";
       fparameters :=
         [ {| pname := "WorldContextObject"; ptype := "UObject*" |};
           {| pname := "SequenceLabel"; ptype := "FName" |} ] |} ].

(* ================================================================== *)
(** * Artifact generators *)
(* ================================================================== *)

(** The lines of a template, one string each. *)
Definition lines (ls : list string) : string := join nl ls.

Definition moduleHeader (metadata : PluginMetadata) (logCategory moduleClass : string)
    : string :=
  let editorSignature :=
    if enableEditorModule metadata
    then
      lines
      [ EmptyString;
        "#if WITH_EDITOR";
        "  void RegisterEditorUtilities();";
        "#endif" ]
    else EmptyString in
  lines
  [ "#pragma once";
    EmptyString;
    "#include " ++ dq ++ "Modules/ModuleInterface.h" ++ dq;
    "#include " ++ dq ++ "Modules/ModuleManager.h" ++ dq;
    EmptyString;
    "DECLARE_LOG_CATEGORY_EXTERN(" ++ logCategory ++ ", Log, All);";
    EmptyString;
    "class " ++ moduleClass ++ " : public IModuleInterface";
    "{";
    "public:";
    "  virtual void StartupModule() override;";
    "  virtual void ShutdownModule() override;" ++ editorSignature;
    "};" ].

Definition moduleSource (metadata : PluginMetadata)
    (logCategory moduleClass moduleName : string) : string :=
  let editorBody :=
    if enableEditorModule metadata
    then
      lines
      [ EmptyString;
        "#if WITH_EDITOR";
        "void " ++ moduleClass ++ "::RegisterEditorUtilities()";
        "{";
        "  // TODO: Register asset factories, detail customizations, level snapshots, or automation tests.";
        "}";
        "#endif" ]
    else EmptyString in
  let editorTail := if truthy editorBody then nl ++ editorBody else EmptyString in
  lines
  [ "#include " ++ dq ++ moduleName ++ ".h" ++ dq;
    "#include " ++ dq ++ "Logging/LogMacros.h" ++ dq;
    EmptyString;
    "DEFINE_LOG_CATEGORY(" ++ logCategory ++ ");";
    "IMPLEMENT_MODULE(" ++ moduleClass ++ ", " ++ moduleName ++ ");";
    EmptyString;
    "void " ++ moduleClass ++ "::StartupModule()";
    "{";
    "  UE_LOG(" ++ logCategory ++ ", Display, TEXT(" ++ dq ++ moduleName ++ " module started." ++ dq ++ "));";
    "#if WITH_EDITOR";
    "  if (GIsEditor)";
    "  {";
    "    RegisterEditorUtilities();";
    "  }";
    "#endif";
    "}";
    EmptyString;
    "void " ++ moduleClass ++ "::ShutdownModule()";
    "{";
    "  UE_LOG(" ++ logCategory ++ ", Display, TEXT(" ++ dq ++ moduleName ++ " module shut down." ++ dq ++ "));";
    "}" ++ editorTail ].

(** [Array.from(deps).sort().map(...).join(",\n")]. *)
Definition formatDependency (deps : SetOf) : string :=
  join ("," ++ nl) (map (fun dep => "            " ++ q dep) (sort deps)).

Definition publicDeps (metadata : PluginMetadata) : SetOf :=
  let deps := newSet ["Core"; "CoreUObject"; "Engine"] in
  let deps := if enableBlueprintLibrary metadata then add deps "Kismet" else deps in
  let deps := if enableAsyncActions metadata then add deps "GameplayTasks" else deps in
  deps.

Definition privateDeps (metadata : PluginMetadata) : SetOf :=
  let deps := newSet ["Slate"; "SlateCore"] in
  let deps := if enableBlueprintLibrary metadata then add deps "UMG" else deps in
  let deps :=
    if enableEditorModule metadata
    then add (add deps "UnrealEd") "LevelSequence" else deps in
  deps.

Definition buildScript (metadata : PluginMetadata) (moduleName : string) : string :=
  lines
  [ "using UnrealBuildTool;";
    EmptyString;
    "public class " ++ moduleName ++ " : ModuleRules";
    "{";
    "    public " ++ moduleName ++ "(ReadOnlyTargetRules Target) : base(Target)";
    "    {";
    "        PCHUsage = PCHUsageMode.UseExplicitOrSharedPCHs;";
    EmptyString;
    "        PublicDependencyModuleNames.AddRange(new string[]";
    "        {";
    formatDependency (publicDeps metadata);
    "        });";
    EmptyString;
    "        PrivateDependencyModuleNames.AddRange(new string[]";
    "        {";
    formatDependency (privateDeps metadata);
    "        });";
    EmptyString;
    "        if (Target.bBuildEditor)";
    "        {";
    "            PrivateDependencyModuleNames.AddRange(new string[]";
    "            {";
    "                " ++ dq ++ "AssetTools" ++ dq ++ ",";
    "                " ++ dq ++ "EditorFramework" ++ dq;
    "            });";
    "        }";
    "    }";
    "}" ].

(** [fn.parameters.map(p => `${p.type} ${p.name}`).join(", ")]. *)
Definition renderParameter (parameter : BlueprintParameter) : string :=
  ptype parameter ++ " " ++ pname parameter.

Definition signatureOf (fn : NormalizedFunction) : string :=
  join ", " (map renderParameter (parameters fn)).

Definition functionDeclaration (fn : NormalizedFunction) : string :=
  let signature := signatureOf fn in
  lines
  [ "  /**";
    "   * " ++ ndescription fn;
    "   */";
    "  UFUNCTION(BlueprintCallable, meta=(" ++ join ", " (metadataSegments fn) ++ "))";
    "  static " ++ returnType fn ++ " " ++ displayName fn ++ "(" ++ signature ++ ");" ].

Definition blueprintHeader (metadata : PluginMetadata)
    (blueprintClass moduleApiMacro moduleName : string)
    (normalizedBlueprintFunctions : list NormalizedFunction) : string :=
  if negb (enableBlueprintLibrary metadata) then EmptyString else
  let functionDeclarations :=
    join (nl ++ nl) (map functionDeclaration normalizedBlueprintFunctions) in
  lines
  [ "#pragma once";
    EmptyString;
    "#include " ++ dq ++ "Kismet/BlueprintFunctionLibrary.h" ++ dq;
    "#include " ++ dq ++ moduleName ++ ".h" ++ dq;
    "#include " ++ dq ++ moduleName ++ "BlueprintLibrary.generated.h" ++ dq;
    EmptyString;
    "UCLASS()";
    "class " ++ moduleApiMacro ++ " " ++ blueprintClass ++ " : public UBlueprintFunctionLibrary";
    "{";
    "  GENERATED_BODY()";
    EmptyString;
    "public:";
    functionDeclarations;
    "};" ].

Definition functionBody (blueprintClass logCategory : string)
    (fn : NormalizedFunction) : string :=
  let signature := signatureOf fn in
  let guardReturn :=
    if String.eqb (toLowerCase (returnType fn)) "void"
    then "    return;"
    else "    " ++ defaultReturnSnippet (returnType fn) in
  let implementationReturn :=
    if String.eqb (toLowerCase (returnType fn)) "void"
    then "  return;"
    else "  " ++ defaultReturnSnippet (returnType fn) in
  lines
  [ returnType fn ++ " " ++ blueprintClass ++ "::" ++ displayName fn ++ "(" ++ signature ++ ")";
    "{";
    "  if (!WorldContextObject)";
    "  {";
    "    UE_LOG(" ++ logCategory ++ ", Warning, TEXT(" ++ dq ++ displayName fn ++ " called without a valid world context." ++ dq ++ "));";
    guardReturn;
    "  }";
    EmptyString;
    "  // TODO: Implement " ++ displayName fn ++ ". " ++ ndescription fn;
    implementationReturn;
    "}" ].

Definition blueprintSource (metadata : PluginMetadata)
    (blueprintClass logCategory moduleName : string)
    (normalizedBlueprintFunctions : list NormalizedFunction) : string :=
  if negb (enableBlueprintLibrary metadata) then EmptyString else
  let fnBodies :=
    join (nl ++ nl)
      (map (functionBody blueprintClass logCategory) normalizedBlueprintFunctions) in
  lines
  [ "#include " ++ dq ++ moduleName ++ "BlueprintLibrary.h" ++ dq;
    "#include " ++ dq ++ "Engine/World.h" ++ dq;
    "#include " ++ dq ++ "Engine/Engine.h" ++ dq;
    "#include " ++ dq ++ "Kismet/GameplayStatics.h" ++ dq;
    EmptyString;
    fnBodies ].

Definition editorHeader (metadata : PluginMetadata) (moduleClass : string) : string :=
  if negb (enableEditorModule metadata) then EmptyString else
  let editorModuleClass := moduleClass ++ "Editor" in
  let registerMenus :=
    if enableEditorMenu metadata then "  void RegisterMenus();" ++ nl else EmptyString in
  lines
  [ "#pragma once";
    EmptyString;
    "#include " ++ dq ++ "Modules/ModuleManager.h" ++ dq;
    EmptyString;
    "class " ++ editorModuleClass ++ " : public IModuleInterface";
    "{";
    "public:";
    "  virtual void StartupModule() override;";
    "  virtual void ShutdownModule() override;";
    EmptyString;
    "private:";
    registerMenus ++ "  void RegisterLevelViewportExtensions();";
    "};" ].

Definition editorSource (metadata : PluginMetadata)
    (moduleClass moduleName logCategory : string) : string :=
  if negb (enableEditorModule metadata) then EmptyString else
  let editorModuleClass := moduleClass ++ "Editor" in
  let includes :=
    [ "#include " ++ q (moduleName ++ "Editor.h");
      "#include " ++ q (moduleName ++ ".h");
      "#include " ++ q "LevelEditor.h" ] in
  let includes :=
    if enableEditorMenu metadata
    then push includes ("#include " ++ q "ToolMenus.h") else includes in
  let startupCalls :=
    join nl
      (filterBoolean
        [ if enableEditorMenu metadata then "  RegisterMenus();" else EmptyString;
          "  RegisterLevelViewportExtensions();" ]) in
  let shutdownCalls :=
    if enableEditorMenu metadata
    then
      lines
      [ "  if (UToolMenus::IsInitialized())";
        "  {";
        "    UToolMenus::UnregisterOwner(this);";
        "  }" ]
    else EmptyString in
  let menuImplementation :=
    if enableEditorMenu metadata
    then
      lines
      [ EmptyString;
        "void " ++ editorModuleClass ++ "::RegisterMenus()";
        "{";
        "  if (UToolMenus::IsInitialized() && UToolMenus::Get()->IsMenuRegistered(" ++ dq ++ "LevelEditor.MainMenu" ++ dq ++ "))";
        "  {";
        "    auto* Menu = UToolMenus::Get()->ExtendMenu(" ++ dq ++ "LevelEditor.MainMenu.Tools" ++ dq ++ ");";
        "    FToolMenuSection& Section = Menu->AddSection(" ++ dq ++ "section_" ++ moduleName ++ dq ++ ", TEXT(" ++ dq ++ friendlyName metadata ++ dq ++ "));";
        "    Section.AddMenuEntry(";
        "      " ++ dq ++ "Open" ++ moduleName ++ "Panel" ++ dq ++ ",";
        "      FText::FromString(" ++ dq ++ "Open " ++ friendlyName metadata ++ " Panel" ++ dq ++ "),";
        "      FText::FromString(" ++ dq ++ "Launches the toolkit command panel." ++ dq ++ "),";
        "      FSlateIcon(),";
        "      FUIAction(FExecuteAction::CreateLambda([]()";
        "      {";
        "        UE_LOG(" ++ logCategory ++ ", Display, TEXT(" ++ dq ++ "Launching " ++ friendlyName metadata ++ " tools panel..." ++ dq ++ "));";
        "      }))";
        "    );";
        "  }";
        "}" ]
    else EmptyString in
  lines
  [ join nl includes;
    EmptyString;
    "void " ++ editorModuleClass ++ "::StartupModule()";
    "{";
    startupCalls;
    "}";
    EmptyString;
    "void " ++ editorModuleClass ++ "::ShutdownModule()";
    "{";
    shutdownCalls;
    "}";
    EmptyString;
    "void " ++ editorModuleClass ++ "::RegisterLevelViewportExtensions()";
    "{";
    "  FLevelEditorModule& LevelEditorModule = FModuleManager::LoadModuleChecked<FLevelEditorModule>(" ++ dq ++ "LevelEditor" ++ dq ++ ");";
    "  LevelEditorModule.OnMapChanged().AddLambda([](UWorld* World, EMapChangeType ChangeType)";
    "  {";
    "    UE_LOG(" ++ logCategory ++ ", Verbose, TEXT(" ++ dq ++ friendlyName metadata ++ " detected map change: %s" ++ dq ++ "), *StaticEnum<EMapChangeType>()->GetNameStringByValue(static_cast<int64>(ChangeType)));";
    "  });";
    "}";
    menuImplementation;
    EmptyString;
    "IMPLEMENT_MODULE(" ++ editorModuleClass ++ ", " ++ moduleName ++ "Editor);" ].

Definition asyncHeader (metadata : PluginMetadata)
    (asyncActionClass moduleApiMacro moduleName : string) : string :=
  if negb (enableAsyncActions metadata) then EmptyString else
  lines
  [ "#pragma once";
    EmptyString;
    "#include " ++ dq ++ "Kismet/BlueprintAsyncActionBase.h" ++ dq;
    "#include " ++ dq ++ moduleName ++ "AsyncAction.generated.h" ++ dq;
    EmptyString;
    "DECLARE_DYNAMIC_MULTICAST_DELEGATE_OneParam(F" ++ moduleName ++ "AsyncPayload, float, Progress);";
    EmptyString;
    "UCLASS()";
    "class " ++ moduleApiMacro ++ " " ++ asyncActionClass ++ " : public UBlueprintAsyncActionBase";
    "{";
    "  GENERATED_BODY()";
    EmptyString;
    "public:";
    "  UFUNCTION(BlueprintCallable, meta=(BlueprintInternalUseOnly=" ++ dq ++ "true" ++ dq ++ ", WorldContext=" ++ dq ++ "WorldContextObject" ++ dq ++ "))";
    "  static " ++ asyncActionClass ++ "* ExecuteTimedTask(UObject* WorldContextObject, float DurationSeconds);";
    EmptyString;
    "  UPROPERTY(BlueprintAssignable)";
    "  F" ++ moduleName ++ "AsyncPayload OnProgress;";
    EmptyString;
    "  UPROPERTY(BlueprintAssignable)";
    "  F" ++ moduleName ++ "AsyncPayload OnComplete;";
    EmptyString;
    "  virtual void Activate() override;";
    EmptyString;
    "private:";
    "  void AdvanceProgress();";
    EmptyString;
    "  float Duration = 1.f;";
    "  float Elapsed = 0.f;";
    "  TObjectPtr<UWorld> CachedWorld;";
    "};" ].

Definition asyncSource (metadata : PluginMetadata)
    (asyncActionClass logCategory moduleName : string) : string :=
  if negb (enableAsyncActions metadata) then EmptyString else
  lines
  [ "#include " ++ dq ++ moduleName ++ "AsyncAction.h" ++ dq;
    "#include " ++ dq ++ moduleName ++ ".h" ++ dq;
    "#include " ++ dq ++ "Engine/World.h" ++ dq;
    "#include " ++ dq ++ "TimerManager.h" ++ dq;
    EmptyString;
    asyncActionClass ++ "* " ++ asyncActionClass ++ "::ExecuteTimedTask(UObject* WorldContextObject, float DurationSeconds)";
    "{";
    "  " ++ asyncActionClass ++ "* Action = NewObject<" ++ asyncActionClass ++ ">();";
    "  Action->Duration = FMath::Max(DurationSeconds, KINDA_SMALL_NUMBER);";
    "  Action->CachedWorld = WorldContextObject ? WorldContextObject->GetWorld() : nullptr;";
    "  Action->RegisterWithGameInstance(WorldContextObject);";
    "  return Action;";
    "}";
    EmptyString;
    "void " ++ asyncActionClass ++ "::Activate()";
    "{";
    "  if (!CachedWorld.IsValid())";
    "  {";
    "    UE_LOG(" ++ logCategory ++ ", Warning, TEXT(" ++ dq ++ "Async action had no valid world." ++ dq ++ "));";
    "    OnComplete.Broadcast(1.f);";
    "    SetReadyToDestroy();";
    "    return;";
    "  }";
    EmptyString;
    "  CachedWorld->GetTimerManager().SetTimerForNextTick([this]()";
    "  {";
    "    AdvanceProgress();";
    "  });";
    "}";
    EmptyString;
    "void " ++ asyncActionClass ++ "::AdvanceProgress()";
    "{";
    "  if (!CachedWorld.IsValid())";
    "  {";
    "    OnComplete.Broadcast(1.f);";
    "    SetReadyToDestroy();";
    "    return;";
    "  }";
    EmptyString;
    "  Elapsed += CachedWorld->GetDeltaSeconds();";
    "  const float Normalized = FMath::Clamp(Elapsed / Duration, 0.f, 1.f);";
    "  OnProgress.Broadcast(Normalized);";
    EmptyString;
    "  if (Normalized >= 1.f - KINDA_SMALL_NUMBER)";
    "  {";
    "    OnComplete.Broadcast(1.f);";
    "    SetReadyToDestroy();";
    "    return;";
    "  }";
    EmptyString;
    "  CachedWorld->GetTimerManager().SetTimerForNextTick([this]()";
    "  {";
    "    AdvanceProgress();";
    "  });";
    "}" ].

(* ================================================================== *)
(** * Output surface: the panels and what a panel shows *)
(* ================================================================== *)

Record CodeBlock := {
  title : string;
  filename : string;
  language : string;
  code : string
}.

(** The text a panel displays, and the text its copy control writes. *)
Definition shownText (block : CodeBlock) : string := trim (code block).
Definition copiedText (block : CodeBlock) : string := trimEnd (code block).

(** The right-hand column of the returned element. *)
Definition view (metadata : PluginMetadata)
    (moduleName descriptorJson moduleHeader moduleSource buildScript
     blueprintHeader blueprintSource asyncHeader asyncSource
     editorHeader editorSource : string) : list CodeBlock :=
  let source := "Source/" ++ moduleName ++ "/" in
  ([ {| title := ".uplugin descriptor";
        filename := pluginName metadata ++ ".uplugin";
        language := "json"; code := descriptorJson |};
     {| title := "Runtime module header";
        filename := source ++ moduleName ++ ".h";
        language := "cpp"; code := moduleHeader |};
     {| title := "Runtime module source";
        filename := source ++ moduleName ++ ".cpp";
        language := "cpp"; code := moduleSource |};
     {| title := "Build.cs";
        filename := source ++ moduleName ++ ".Build.cs";
        language := "csharp"; code := buildScript |} ]
   ++ (if enableBlueprintLibrary metadata && truthy blueprintHeader
       then [ {| title := "Blueprint library header";
                 filename := source ++ "Public/" ++ moduleName ++ "BlueprintLibrary.h";
                 language := "cpp"; code := blueprintHeader |};
              {| title := "Blueprint library source";
                 filename := source ++ "Private/" ++ moduleName ++ "BlueprintLibrary.cpp";
                 language := "cpp"; code := blueprintSource |} ]
       else [])
   ++ (if enableAsyncActions metadata && truthy asyncHeader
       then [ {| title := "Async action header";
                 filename := source ++ "Public/" ++ moduleName ++ "AsyncAction.h";
                 language := "cpp"; code := asyncHeader |};
              {| title := "Async action source";
                 filename := source ++ "Private/" ++ moduleName ++ "AsyncAction.cpp";
                 language := "cpp"; code := asyncSource |} ]
       else [])
   ++ (if enableEditorModule metadata && truthy editorHeader
       then [ {| title := "Editor module header";
                 filename := "Source/" ++ moduleName ++ "Editor/" ++ moduleName ++ "Editor.h";
                 language := "cpp"; code := editorHeader |};
              {| title := "Editor module source";
                 filename := "Source/" ++ moduleName ++ "Editor/" ++ moduleName ++ "Editor.cpp";
                 language := "cpp"; code := editorSource |} ]
       else []))%list.

(** Every artifact computed afresh from the metadata and the endpoint
    list, in the order of the component body. *)
Definition artifacts (metadata : PluginMetadata) (fns : list BlueprintFunction)
    : list CodeBlock :=
  let normalizedBlueprintFunctions := normalizeAll (friendlyName metadata) fns in
  let moduleName := moduleNameOf metadata in
  let moduleApiMacro := moduleApiMacroOf moduleName in
  let logCategory := logCategoryOf moduleName in
  let moduleClass := moduleClassOf moduleName in
  let blueprintClass := blueprintClassOf moduleName in
  let asyncActionClass := asyncActionClassOf moduleName in
  view metadata moduleName
    (descriptorJson metadata moduleName)
    (moduleHeader metadata logCategory moduleClass)
    (moduleSource metadata logCategory moduleClass moduleName)
    (buildScript metadata moduleName)
    (blueprintHeader metadata blueprintClass moduleApiMacro moduleName
       normalizedBlueprintFunctions)
    (blueprintSource metadata blueprintClass logCategory moduleName
       normalizedBlueprintFunctions)
    (asyncHeader metadata asyncActionClass moduleApiMacro moduleName)
    (asyncSource metadata asyncActionClass logCategory moduleName)
    (editorHeader metadata moduleClass)
    (editorSource metadata moduleClass moduleName logCategory).

(* ================================================================== *)
(** * The component: state, handlers, memoised render *)
(* ================================================================== *)

(** An array is a reference: [Object.is] compares the identity, never the
    content.  [ident] is that identity, [target] the content. *)
Record Ref (A : Type) := mkRef { ident : nat; target : A }.
Arguments mkRef {A} _ _.
Arguments ident {A} _.
Arguments target {A} _.

(** The state the component keeps with [useState]. *)
Record State := {
  metadata : PluginMetadata;
  blueprintFunctions : Ref (list BlueprintFunction);
  newFunctionName : string;
  newFunctionReturnType : string;
  newFunctionDescription : string;
  parameterDraft : string
}.

(** The controls wired to [handleMetadataChange]: six text fields and the
    load-phase selector, whose options are the four phases. *)
Inductive MetadataChange :=
| SetPluginName (value : string)
| SetFriendlyName (value : string)
| SetVersion (value : string)
| SetCategory (value : string)
| SetLoadingPhase (value : LoadingPhase)
| SetSupportedTargets (value : string)
| SetDescription (value : string).

Inductive FeatureKey :=
| EnableBlueprintLibrary | EnableEditorModule | EnableAsyncActions | EnableEditorMenu.

Definition withMetadata (s : State) (m : PluginMetadata) : State :=
  {| metadata := m;
     blueprintFunctions := blueprintFunctions s;
     newFunctionName := newFunctionName s;
     newFunctionReturnType := newFunctionReturnType s;
     newFunctionDescription := newFunctionDescription s;
     parameterDraft := parameterDraft s |}.

Definition applyChange (c : MetadataChange) (m : PluginMetadata) : PluginMetadata :=
  {| pluginName := match c with SetPluginName v => v | _ => pluginName m end;
     friendlyName := match c with SetFriendlyName v => v | _ => friendlyName m end;
     version := match c with SetVersion v => v | _ => version m end;
     description := match c with SetDescription v => v | _ => description m end;
     category := match c with SetCategory v => v | _ => category m end;
     loadingPhase := match c with SetLoadingPhase v => v | _ => loadingPhase m end;
     supportedTargets :=
       match c with SetSupportedTargets v => v | _ => supportedTargets m end;
     enableEditorModule := enableEditorModule m;
     enableBlueprintLibrary := enableBlueprintLibrary m;
     enableAsyncActions := enableAsyncActions m;
     enableEditorMenu := enableEditorMenu m |}.

Definition handleMetadataChange (c : MetadataChange) (s : State) : State :=
  withMetadata s (applyChange c (metadata s)).

Definition toggle (k : FeatureKey) (m : PluginMetadata) : PluginMetadata :=
  let flip (k' : FeatureKey) (b : bool) : bool :=
    match k, k' with
    | EnableBlueprintLibrary, EnableBlueprintLibrary
    | EnableEditorModule, EnableEditorModule
    | EnableAsyncActions, EnableAsyncActions
    | EnableEditorMenu, EnableEditorMenu => negb b
    | _, _ => b
    end in
  {| pluginName := pluginName m;
     friendlyName := friendlyName m;
     version := version m;
     description := description m;
     category := category m;
     loadingPhase := loadingPhase m;
     supportedTargets := supportedTargets m;
     enableEditorModule := flip EnableEditorModule (enableEditorModule m);
     enableBlueprintLibrary := flip EnableBlueprintLibrary (enableBlueprintLibrary m);
     enableAsyncActions := flip EnableAsyncActions (enableAsyncActions m);
     enableEditorMenu := flip EnableEditorMenu (enableEditorMenu m) |}.

Definition handleToggleFeature (k : FeatureKey) (s : State) : State :=
  withMetadata s (toggle k (metadata s)).

(** The callback of [forEach] in [handleAddBlueprintFunction]: one trimmed,
    non-empty entry of the draft, and the array [parameters] it pushes to. *)
Definition parseEntry (parameters : list BlueprintParameter) (entry : string)
    : list BlueprintParameter :=
  let pieces := map trim (split ":" entry) in
  match nth_error pieces 0, nth_error pieces 1 with
  | Some rawName, Some rawType =>
      if negb (truthy rawName) || negb (truthy rawType) then parameters
      else push parameters
             {| pname := orElse (sanitiseIdentifier rawName) "Param";
                ptype := rawType |}
  | _, _ => parameters
  end.

(** [parameterDraft.split(",").map(trim).filter(Boolean).forEach(...)]. *)
Definition parseParameterDraft (draft : string) : list BlueprintParameter :=
  fold_left parseEntry (filterBoolean (map trim (split "," draft))) [].

(** [handleAddBlueprintFunction] (lines 670-706).  [fresh] is the identity
    of the array that [setBlueprintFunctions] installs. *)
Definition handleAddBlueprintFunction (fresh : nat) (s : State) : State :=
  if negb (truthy (trim (newFunctionName s))) then s
  else
    let parameters := parseParameterDraft (parameterDraft s) in
    {| metadata := metadata s;
       blueprintFunctions :=
         mkRef fresh
           (push (target (blueprintFunctions s))
              {| fname := trim (newFunctionName s);
                 freturnType := orElse (trim (newFunctionReturnType s)) "void";
                 fdescription :=
                   orElse (trim (newFunctionDescription s)) "Generated function.";
                 fparameters := parameters |});
       newFunctionName := EmptyString;
       newFunctionReturnType := "void";
       newFunctionDescription := EmptyString;
       parameterDraft := "ContextActor:AActor*" |}.

(** [existing.filter((_, currentIndex) => currentIndex !== index)]. *)
Fixpoint removeAt {A : Type} (index : nat) (xs : list A) : list A :=
  match xs, index with
  | [], _ => []
  | _ :: rest, O => rest
  | x :: rest, S index' => x :: removeAt index' rest
  end.

Definition handleRemoveBlueprintFunction (fresh : nat) (index : nat) (s : State)
    : State :=
  {| metadata := metadata s;
     blueprintFunctions := mkRef fresh (removeAt index (target (blueprintFunctions s)));
     newFunctionName := newFunctionName s;
     newFunctionReturnType := newFunctionReturnType s;
     newFunctionDescription := newFunctionDescription s;
     parameterDraft := parameterDraft s |}.

Inductive Event :=
| ChangeMetadata (c : MetadataChange)
| ToggleFeature (k : FeatureKey)
| TypeFunctionName (value : string)
| TypeReturnType (value : string)
| TypeDescription (value : string)
| TypeParameterDraft (value : string)
| SubmitFunction
| RemoveFunction (index : nat).

Definition handle (fresh : nat) (e : Event) (s : State) : State :=
  match e with
  | ChangeMetadata c => handleMetadataChange c s
  | ToggleFeature k => handleToggleFeature k s
  | TypeFunctionName v =>
      {| metadata := metadata s; blueprintFunctions := blueprintFunctions s;
         newFunctionName := v;
         newFunctionReturnType := newFunctionReturnType s;
         newFunctionDescription := newFunctionDescription s;
         parameterDraft := parameterDraft s |}
  | TypeReturnType v =>
      {| metadata := metadata s; blueprintFunctions := blueprintFunctions s;
         newFunctionName := newFunctionName s;
         newFunctionReturnType := v;
         newFunctionDescription := newFunctionDescription s;
         parameterDraft := parameterDraft s |}
  | TypeDescription v =>
      {| metadata := metadata s; blueprintFunctions := blueprintFunctions s;
         newFunctionName := newFunctionName s;
         newFunctionReturnType := newFunctionReturnType s;
         newFunctionDescription := v;
         parameterDraft := parameterDraft s |}
  | TypeParameterDraft v =>
      {| metadata := metadata s; blueprintFunctions := blueprintFunctions s;
         newFunctionName := newFunctionName s;
         newFunctionReturnType := newFunctionReturnType s;
         newFunctionDescription := newFunctionDescription s;
         parameterDraft := v |}
  | SubmitFunction => handleAddBlueprintFunction fresh s
  | RemoveFunction index => handleRemoveBlueprintFunction fresh index s
  end.

(** ** Memoisation *)

(** [Object.is] on a dependency, and on an array of dependencies. *)
Class ObjectIs (D : Type) := same : D -> D -> bool.

#[export] Instance ObjectIs_string : ObjectIs string := String.eqb.
#[export] Instance ObjectIs_bool : ObjectIs bool := Bool.eqb.
#[export] Instance ObjectIs_phase : ObjectIs LoadingPhase :=
  fun a b => String.eqb (phaseName a) (phaseName b).
#[export] Instance ObjectIs_ref {A : Type} : ObjectIs (Ref A) :=
  fun a b => Nat.eqb (ident a) (ident b).
#[export] Instance ObjectIs_pair {A B : Type} `{ObjectIs A} `{ObjectIs B}
  : ObjectIs (A * B) :=
  fun x y => same (fst x) (fst y) && same (snd x) (snd y).

(** What [useMemo] keeps between renders: the dependencies and the value of
    the last computation. *)
Definition Cell (D V : Type) : Type := option (D * V).

Definition useMemo {D V : Type} `{ObjectIs D} (cell : Cell D V) (deps : D)
    (create : unit -> V) : Cell D V * V :=
  match cell with
  | Some (prev, value) =>
      if same prev deps then (cell, value)
      else let value' := create tt in (Some (deps, value'), value')
  | None => let value' := create tt in (Some (deps, value'), value')
  end.

(** One call of [useMemo] in the component: the function it is given and
    the dependency array, both over the variables in scope [E]. *)
Record Hook (E D V : Type) := {
  create : E -> V;
  depsOf : E -> D
}.
Arguments create {E D V} _ _.
Arguments depsOf {E D V} _ _.

Definition useHook {E D V : Type} `{ObjectIs D} (h : Hook E D V)
    (cell : Cell D V) (scope : E) : Cell D V * V :=
  useMemo cell (depsOf h scope) (fun _ => create h scope).

(** The seventeen calls, in the order of the component body.  The array
    that [map] builds for [normalizedBlueprintFunctions] gets the identity
    [fresh]. *)
Definition normalizedHook
  : Hook (nat * Ref (list BlueprintFunction) * PluginMetadata)
         (Ref (list BlueprintFunction) * string)
         (Ref (list NormalizedFunction)) :=
  {| create := fun '(fresh, blueprintFunctions, metadata) =>
       mkRef fresh (normalizeAll (friendlyName metadata) (target blueprintFunctions));
     depsOf := fun '(fresh, blueprintFunctions, metadata) =>
       (blueprintFunctions, friendlyName metadata) |}.

Definition moduleNameHook : Hook PluginMetadata string string :=
  {| create := fun metadata => moduleNameOf metadata;
     depsOf := fun metadata => pluginName metadata |}.

Definition moduleApiMacroHook : Hook string string string :=
  {| create := fun moduleName => moduleApiMacroOf moduleName;
     depsOf := fun moduleName => moduleName |}.

Definition logCategoryHook : Hook string string string :=
  {| create := fun moduleName => logCategoryOf moduleName;
     depsOf := fun moduleName => moduleName |}.

Definition moduleClassHook : Hook string string string :=
  {| create := fun moduleName => moduleClassOf moduleName;
     depsOf := fun moduleName => moduleName |}.

Definition blueprintClassHook : Hook string string string :=
  {| create := fun moduleName => blueprintClassOf moduleName;
     depsOf := fun moduleName => moduleName |}.

Definition asyncActionClassHook : Hook string string string :=
  {| create := fun moduleName => asyncActionClassOf moduleName;
     depsOf := fun moduleName => moduleName |}.

Definition descriptorJsonHook
  : Hook (PluginMetadata * string)
         (string * string * bool * bool * string * LoadingPhase * string * string * string)
         string :=
  {| create := fun '(metadata, moduleName) => descriptorJson metadata moduleName;
     depsOf := fun '(metadata, moduleName) =>
       (category metadata, description metadata, enableAsyncActions metadata,
        enableEditorModule metadata, friendlyName metadata, loadingPhase metadata,
        supportedTargets metadata, version metadata, moduleName) |}.

Definition moduleHeaderHook
  : Hook (PluginMetadata * string * string) (string * bool * string) string :=
  {| create := fun '(metadata, logCategory, moduleClass) =>
       moduleHeader metadata logCategory moduleClass;
     depsOf := fun '(metadata, logCategory, moduleClass) =>
       (logCategory, enableEditorModule metadata, moduleClass) |}.

Definition moduleSourceHook
  : Hook (PluginMetadata * string * string * string)
         (string * bool * string * string) string :=
  {| create := fun '(metadata, logCategory, moduleClass, moduleName) =>
       moduleSource metadata logCategory moduleClass moduleName;
     depsOf := fun '(metadata, logCategory, moduleClass, moduleName) =>
       (logCategory, enableEditorModule metadata, moduleClass, moduleName) |}.

Definition buildScriptHook
  : Hook (PluginMetadata * string) (bool * bool * bool * string) string :=
  {| create := fun '(metadata, moduleName) => buildScript metadata moduleName;
     depsOf := fun '(metadata, moduleName) =>
       (enableAsyncActions metadata, enableBlueprintLibrary metadata,
        enableEditorModule metadata, moduleName) |}.

Definition blueprintHeaderHook
  : Hook (PluginMetadata * string * string * string * Ref (list NormalizedFunction))
         (string * bool * string * string * Ref (list NormalizedFunction)) string :=
  {| create :=
       fun '(metadata, blueprintClass, moduleApiMacro, moduleName,
             normalizedBlueprintFunctions) =>
         blueprintHeader metadata blueprintClass moduleApiMacro moduleName
           (target normalizedBlueprintFunctions);
     depsOf :=
       fun '(metadata, blueprintClass, moduleApiMacro, moduleName,
             normalizedBlueprintFunctions) =>
         (blueprintClass, enableBlueprintLibrary metadata, moduleApiMacro, moduleName,
          normalizedBlueprintFunctions) |}.

Definition blueprintSourceHook
  : Hook (PluginMetadata * string * string * string * Ref (list NormalizedFunction))
         (string * string * bool * string * Ref (list NormalizedFunction)) string :=
  {| create :=
       fun '(metadata, blueprintClass, logCategory, moduleName,
             normalizedBlueprintFunctions) =>
         blueprintSource metadata blueprintClass logCategory moduleName
           (target normalizedBlueprintFunctions);
     depsOf :=
       fun '(metadata, blueprintClass, logCategory, moduleName,
             normalizedBlueprintFunctions) =>
         (blueprintClass, logCategory, enableBlueprintLibrary metadata, moduleName,
          normalizedBlueprintFunctions) |}.

Definition editorHeaderHook
  : Hook (PluginMetadata * string) (bool * bool * string) string :=
  {| create := fun '(metadata, moduleClass) => editorHeader metadata moduleClass;
     depsOf := fun '(metadata, moduleClass) =>
       (enableEditorMenu metadata, enableEditorModule metadata, moduleClass) |}.

Definition editorSourceHook
  : Hook (PluginMetadata * string * string * string)
         (bool * bool * string * string * string * string) string :=
  {| create := fun '(metadata, moduleClass, moduleName, logCategory) =>
       editorSource metadata moduleClass moduleName logCategory;
     depsOf := fun '(metadata, moduleClass, moduleName, logCategory) =>
       (enableEditorMenu metadata, enableEditorModule metadata,
        friendlyName metadata, moduleClass, moduleName, logCategory) |}.

Definition asyncHeaderHook
  : Hook (PluginMetadata * string * string * string)
         (string * bool * string * string) string :=
  {| create := fun '(metadata, asyncActionClass, moduleApiMacro, moduleName) =>
       asyncHeader metadata asyncActionClass moduleApiMacro moduleName;
     depsOf := fun '(metadata, asyncActionClass, moduleApiMacro, moduleName) =>
       (asyncActionClass, enableAsyncActions metadata, moduleApiMacro, moduleName) |}.

Definition asyncSourceHook
  : Hook (PluginMetadata * string * string * string)
         (string * string * bool * string) string :=
  {| create := fun '(metadata, asyncActionClass, logCategory, moduleName) =>
       asyncSource metadata asyncActionClass logCategory moduleName;
     depsOf := fun '(metadata, asyncActionClass, logCategory, moduleName) =>
       (asyncActionClass, logCategory, enableAsyncActions metadata, moduleName) |}.

Record Memo := {
  cNormalized :
    Cell (Ref (list BlueprintFunction) * string) (Ref (list NormalizedFunction));
  cModuleName : Cell string string;
  cModuleApiMacro : Cell string string;
  cLogCategory : Cell string string;
  cModuleClass : Cell string string;
  cBlueprintClass : Cell string string;
  cAsyncActionClass : Cell string string;
  cDescriptorJson :
    Cell (string * string * bool * bool * string * LoadingPhase * string * string * string)
         string;
  cModuleHeader : Cell (string * bool * string) string;
  cModuleSource : Cell (string * bool * string * string) string;
  cBuildScript : Cell (bool * bool * bool * string) string;
  cBlueprintHeader :
    Cell (string * bool * string * string * Ref (list NormalizedFunction)) string;
  cBlueprintSource :
    Cell (string * string * bool * string * Ref (list NormalizedFunction)) string;
  cEditorHeader : Cell (bool * bool * string) string;
  cEditorSource : Cell (bool * bool * string * string * string * string) string;
  cAsyncHeader : Cell (string * bool * string * string) string;
  cAsyncSource : Cell (string * string * bool * string) string
}.

Definition emptyMemo : Memo :=
  {| cNormalized := None; cModuleName := None; cModuleApiMacro := None;
     cLogCategory := None; cModuleClass := None; cBlueprintClass := None;
     cAsyncActionClass := None; cDescriptorJson := None; cModuleHeader := None;
     cModuleSource := None; cBuildScript := None; cBlueprintHeader := None;
     cBlueprintSource := None; cEditorHeader := None; cEditorSource := None;
     cAsyncHeader := None; cAsyncSource := None |}.

(** A mounted component: its state, its memo cells, and the identity that
    the next array built receives. *)
Record Instance := {
  state : State;
  memo : Memo;
  nextIdent : nat
}.

(** The body of [PluginWorkbench], hook after hook: the cells for the next
    render and the panels returned. *)
Definition renderBody (fresh : nat) (s : State) (old : Memo) : Memo * list CodeBlock :=
  let metadata := metadata s in
  let blueprintFunctions := blueprintFunctions s in
  let '(c1, normalizedBlueprintFunctions) :=
    useHook normalizedHook (cNormalized old) (fresh, blueprintFunctions, metadata) in
  let '(c2, moduleName) := useHook moduleNameHook (cModuleName old) metadata in
  let '(c3, moduleApiMacro) :=
    useHook moduleApiMacroHook (cModuleApiMacro old) moduleName in
  let '(c4, logCategory) := useHook logCategoryHook (cLogCategory old) moduleName in
  let '(c5, moduleClass) := useHook moduleClassHook (cModuleClass old) moduleName in
  let '(c6, blueprintClass) :=
    useHook blueprintClassHook (cBlueprintClass old) moduleName in
  let '(c7, asyncActionClass) :=
    useHook asyncActionClassHook (cAsyncActionClass old) moduleName in
  let '(c8, descriptorJson) :=
    useHook descriptorJsonHook (cDescriptorJson old) (metadata, moduleName) in
  let '(c9, moduleHeader) :=
    useHook moduleHeaderHook (cModuleHeader old) (metadata, logCategory, moduleClass) in
  let '(c10, moduleSource) :=
    useHook moduleSourceHook (cModuleSource old)
      (metadata, logCategory, moduleClass, moduleName) in
  let '(c11, buildScript) :=
    useHook buildScriptHook (cBuildScript old) (metadata, moduleName) in
  let '(c12, blueprintHeader) :=
    useHook blueprintHeaderHook (cBlueprintHeader old)
      (metadata, blueprintClass, moduleApiMacro, moduleName,
       normalizedBlueprintFunctions) in
  let '(c13, blueprintSource) :=
    useHook blueprintSourceHook (cBlueprintSource old)
      (metadata, blueprintClass, logCategory, moduleName,
       normalizedBlueprintFunctions) in
  let '(c14, editorHeader) :=
    useHook editorHeaderHook (cEditorHeader old) (metadata, moduleClass) in
  let '(c15, editorSource) :=
    useHook editorSourceHook (cEditorSource old)
      (metadata, moduleClass, moduleName, logCategory) in
  let '(c16, asyncHeader) :=
    useHook asyncHeaderHook (cAsyncHeader old)
      (metadata, asyncActionClass, moduleApiMacro, moduleName) in
  let '(c17, asyncSource) :=
    useHook asyncSourceHook (cAsyncSource old)
      (metadata, asyncActionClass, logCategory, moduleName) in
  ({| cNormalized := c1; cModuleName := c2; cModuleApiMacro := c3;
      cLogCategory := c4; cModuleClass := c5; cBlueprintClass := c6;
      cAsyncActionClass := c7; cDescriptorJson := c8; cModuleHeader := c9;
      cModuleSource := c10; cBuildScript := c11; cBlueprintHeader := c12;
      cBlueprintSource := c13; cEditorHeader := c14; cEditorSource := c15;
      cAsyncHeader := c16; cAsyncSource := c17 |},
   view metadata moduleName descriptorJson moduleHeader moduleSource buildScript
     blueprintHeader blueprintSource asyncHeader asyncSource editorHeader
     editorSource).

(** One render: the instance afterwards and the panels on screen. *)
Definition render (i : Instance) : Instance * list CodeBlock :=
  let '(m, out) := renderBody (nextIdent i) (state i) (memo i) in
  ({| state := state i; memo := m; nextIdent := S (nextIdent i) |}, out).

(** One event handled: the state setters have run, no render yet. *)
Definition dispatch (e : Event) (i : Instance) : Instance :=
  {| state := handle (nextIdent i) e (state i);
     memo := memo i;
     nextIdent := S (nextIdent i) |}.

Definition initialState : State :=
  {| metadata := defaultMetadata;
     blueprintFunctions := mkRef 0 defaultFunctions;
     newFunctionName := EmptyString;
     newFunctionReturnType := "void";
     newFunctionDescription := EmptyString;
     parameterDraft := "ContextActor:AActor*, Countdown:float" |}.

Definition mount : Instance :=
  {| state := initialState; memo := emptyMemo; nextIdent := 1 |}.

(** What happens to a mounted component: an event, or a render. *)
Inductive Step := Dispatch (e : Event) | Render.

Definition step (i : Instance) (st : Step) : Instance :=
  match st with
  | Dispatch e => dispatch e i
  | Render => fst (render i)
  end.

Definition run (steps : list Step) : Instance := fold_left step steps mount.

(** The panels on screen after a history. *)
Definition screen (steps : list Step) : list CodeBlock := snd (render (run steps)).

(** ** What the cells hold *)

(** A cell holds a value that its hook computed in some scope. *)
Definition Sound {E D V : Type} (h : Hook E D V) (cell : Cell D V) : Prop :=
  forall d v, cell = Some (d, v) -> exists scope, depsOf h scope = d /\ create h scope = v.

(** The dependency array of a hook names all that its function reads. *)
Definition Covers {E D V : Type} (h : Hook E D V) : Prop :=
  forall scope scope', depsOf h scope' = depsOf h scope ->
                       create h scope' = create h scope.

(** An array a cell remembers was built before [next], and is the array
    of endpoints in the normalised cell when it has the same identity. *)
Definition Known (next : nat)
    (normalized : Cell (Ref (list BlueprintFunction) * string)
                       (Ref (list NormalizedFunction)))
    (r : Ref (list NormalizedFunction)) : Prop :=
  ident r < next
  /\ forall d v, normalized = Some (d, v) -> ident r = ident v -> r = v.

Record Coherent (i : Instance) : Prop := {
  co_state : ident (blueprintFunctions (state i)) < nextIdent i;
  co_normalized :
    forall fr f v, cNormalized (memo i) = Some ((fr, f), v) ->
      target v = normalizeAll f (target fr)
      /\ ident v < nextIdent i
      /\ ident fr < nextIdent i
      /\ (ident fr = ident (blueprintFunctions (state i)) ->
          fr = blueprintFunctions (state i));
  co_moduleName : Sound moduleNameHook (cModuleName (memo i));
  co_moduleApiMacro : Sound moduleApiMacroHook (cModuleApiMacro (memo i));
  co_logCategory : Sound logCategoryHook (cLogCategory (memo i));
  co_moduleClass : Sound moduleClassHook (cModuleClass (memo i));
  co_blueprintClass : Sound blueprintClassHook (cBlueprintClass (memo i));
  co_asyncActionClass : Sound asyncActionClassHook (cAsyncActionClass (memo i));
  co_descriptorJson : Sound descriptorJsonHook (cDescriptorJson (memo i));
  co_moduleHeader : Sound moduleHeaderHook (cModuleHeader (memo i));
  co_moduleSource : Sound moduleSourceHook (cModuleSource (memo i));
  co_buildScript : Sound buildScriptHook (cBuildScript (memo i));
  co_blueprintHeader : Sound blueprintHeaderHook (cBlueprintHeader (memo i));
  co_blueprintSource : Sound blueprintSourceHook (cBlueprintSource (memo i));
  co_editorHeader : Sound editorHeaderHook (cEditorHeader (memo i));
  co_editorSource : Sound editorSourceHook (cEditorSource (memo i));
  co_asyncHeader : Sound asyncHeaderHook (cAsyncHeader (memo i));
  co_asyncSource : Sound asyncSourceHook (cAsyncSource (memo i));
  co_headerRef :
    forall d v, cBlueprintHeader (memo i) = Some (d, v) ->
      Known (nextIdent i) (cNormalized (memo i)) (snd d);
  co_sourceRef :
    forall d v, cBlueprintSource (memo i) = Some (d, v) ->
      Known (nextIdent i) (cNormalized (memo i)) (snd d)
}.

(* ================================================================== *)
(** * Predicates used in the statements *)
(* ================================================================== *)

(** Every character of [s] satisfies [p]. *)
Fixpoint everyChar (p : ascii -> bool) (s : string) : bool :=
  match s with
  | EmptyString => true
  | String c s' => p c && everyChar p s'
  end.

(** [s] is empty or starts with a letter or an underscore. *)
Definition startsIdentifier (s : string) : bool :=
  match s with
  | EmptyString => true
  | String c _ => isLetter c || isUnderscore c
  end.

(** The value of a key of a descriptor object. *)
Fixpoint lookupKey (k : string) (fields : list (string * Json)) : option Json :=
  match fields with
  | [] => None
  | (k', v) :: rest => if String.eqb k k' then Some v else lookupKey k rest
  end.

Definition field (k : string) (v : Json) : option Json :=
  match v with
  | JObj fields => lookupKey k fields
  | _ => None
  end.

(** The string under a key of a descriptor entry. *)
Definition stringField (k : string) (v : Json) : option string :=
  match field k v with
  | Some (JStr s) => Some s
  | _ => None
  end.

(** The parameter draft as the specification reads it: entries between
    commas, each a name and a type around a colon; an entry without a name
    or without a type is malformed. *)
Definition draftPair (entry : string) : option (string * string) :=
  match map trim (split ":" entry) with
  | name :: type :: _ => if truthy name && truthy type then Some (name, type) else None
  | _ => None
  end.

(** The entries that a well-formed pair of the draft contributes. *)
Definition pairList (entry : string) : list (string * string) :=
  match draftPair entry with
  | Some nameType => [nameType]
  | None => []
  end.

Definition wellFormedPairs (draft : string) : list (string * string) :=
  flat_map (fun entry => pairList (trim entry)) (split "," draft).

Definition parameterOfPair (nameType : string * string) : BlueprintParameter :=
  {| pname := orElse (sanitiseIdentifier (fst nameType)) "Param";
     ptype := snd nameType |}.

(** The candidates of [uniqueParameterName] in the order of the loop: the
    name itself, then the name with the suffixes 1, 2, ... *)
Definition candidateAt (name : string) (k : nat) : string :=
  match k with
  | O => name
  | S _ => name ++ ofNat k
  end.

(** The descriptor entries this development names. *)
Definition runtimeEntry (metadata : PluginMetadata) (moduleName : string) : Json :=
  moduleEntry moduleName "Runtime" (phaseName (loadingPhase metadata)).

Definition editorEntry (moduleName : string) : Json :=
  moduleEntry (moduleName ++ "Editor") "Editor" "Default".

Definition gameplayTasksEntry : Json :=
  JObj [("Name", JStr "GameplayTasks"); ("Enabled", JBool true)].

Definition isAsyncPanel (block : CodeBlock) : bool :=
  startsWith (title block) "Async action".

(** The descriptor text line by line, for the statements on it.  First
    the fields that every descriptor has. *)
Definition descriptorHeadLines (metadata : PluginMetadata) : list string :=
  [ "{";
    "  " ++ q "FileVersion" ++ ": 3,";
    "  " ++ q "Version" ++ ": 1,";
    "  " ++ q "VersionName" ++ ": " ++ quoteJSON (version metadata) ++ ",";
    "  " ++ q "FriendlyName" ++ ": " ++ quoteJSON (friendlyName metadata) ++ ",";
    "  " ++ q "Description" ++ ": " ++ quoteJSON (description metadata) ++ ",";
    "  " ++ q "Category" ++ ": " ++ quoteJSON (category metadata) ++ ",";
    "  " ++ q "CreatedBy" ++ ": " ++ q "Unreal Addon Architect" ++ ",";
    "  " ++ q "CreatedByURL" ++ ": " ++ q "https://agentic-8d19d81d.vercel.app" ++ ",";
    "  " ++ q "EngineVersion" ++ ": " ++ q "5.3.0" ++ "," ].

(** One entry of the module list; [more] tells that another entry follows. *)
Definition moduleEntryLines (name type phase : string) (more : bool) : list string :=
  [ "    {";
    "      " ++ q "Name" ++ ": " ++ quoteJSON name ++ ",";
    "      " ++ q "Type" ++ ": " ++ q type ++ ",";
    "      " ++ q "LoadingPhase" ++ ": " ++ q phase;
    if more then "    }," else "    }" ].

(** The line that only an editor-module entry has. *)
Definition editorTypeLine : string :=
  "      " ++ q "Type" ++ ": " ++ q "Editor" ++ ",".

(** The plugin list with its one entry, and the empty plugin list. *)
Definition gameplayTasksLines : list string :=
  [ "  " ++ q "Plugins" ++ ": [";
    "    {";
    "      " ++ q "Name" ++ ": " ++ q "GameplayTasks" ++ ",";
    "      " ++ q "Enabled" ++ ": true";
    "    }";
    "  ]," ].

Definition noPluginsLine : string := "  " ++ q "Plugins" ++ ": [],".

(** The line that only an entry of the plugin list has. *)
Definition pluginEnabledLine : string := "      " ++ q "Enabled" ++ ": true".

(** A comma after every line but the last. *)
Fixpoint commaSeparated (ls : list string) : list string :=
  match ls with
  | [] => []
  | [l] => [l]
  | l :: rest => (l ++ ",") :: commaSeparated rest
  end.

(** The platform list: one trimmed entry a line. *)
Definition platformLines (metadata : PluginMetadata) : list string :=
  ("  " ++ q "SupportedTargetPlatforms" ++ ": [")
  :: commaSeparated
       (map (fun entry => "    " ++ quoteJSON (trim entry))
            (split "," (supportedTargets metadata)))
  ++ [ "  ]" ].

(** All lines of the descriptor: the editor entry follows the runtime
    entry when the editor flag is set, and the plugin list has its entry
    when async actions are enabled. *)
Definition descriptorLines (metadata : PluginMetadata) (moduleName : string)
    : list string :=
  descriptorHeadLines metadata
  ++ [ "  " ++ q "Modules" ++ ": [" ]
  ++ moduleEntryLines moduleName "Runtime" (phaseName (loadingPhase metadata))
       (enableEditorModule metadata)
  ++ (if enableEditorModule metadata
      then moduleEntryLines (moduleName ++ "Editor") "Editor" "Default" false
      else [])
  ++ [ "  ]," ]
  ++ (if enableAsyncActions metadata then gameplayTasksLines else [noPluginsLine])
  ++ platformLines metadata
  ++ [ "}" ].

(** The lines of a text, and whether [l] is one of them. *)
Definition linesOf (text : string) : list string := split "010" text.

Definition hasLine (l text : string) : bool :=
  existsb (String.eqb l) (linesOf text).

(** [s] holds no line feed. *)
Definition noLineFeed (s : string) : bool :=
  everyChar (fun c => negb (Ascii.eqb c "010")) s.

(** The order of [sort]: by code units. *)
Definition ordered (xs : list string) : Prop :=
  Sorted (fun a b => String.leb a b = true) xs.

(** The text of the build script around the two dependency lists. *)
Definition buildScriptHead (moduleName : string) : string :=
  lines
    [ "using UnrealBuildTool;";
      EmptyString;
      "public class " ++ moduleName ++ " : ModuleRules";
      "{";
      "    public " ++ moduleName ++ "(ReadOnlyTargetRules Target) : base(Target)";
      "    {";
      "        PCHUsage = PCHUsageMode.UseExplicitOrSharedPCHs;";
      EmptyString;
      "        PublicDependencyModuleNames.AddRange(new string[]";
      "        {";
      EmptyString ].

Definition buildScriptMiddle : string :=
  lines
    [ EmptyString;
      "        });";
      EmptyString;
      "        PrivateDependencyModuleNames.AddRange(new string[]";
      "        {";
      EmptyString ].

Definition buildScriptEditorGate : string :=
  lines
    [ EmptyString;
      "        });";
      EmptyString;
      "        if (Target.bBuildEditor)";
      "        {";
      "            PrivateDependencyModuleNames.AddRange(new string[]";
      "            {";
      "                " ++ q "AssetTools" ++ ",";
      "                " ++ q "EditorFramework";
      "            });";
      "        }";
      "    }";
      "}" ].

(** Whether a parameter of [ps] sanitises to the context name. *)
Definition sanitisesToWorldContext (ps : list BlueprintParameter) : bool :=
  existsb (fun p => String.eqb (sanitiseIdentifier (pname p)) worldContextName) ps.







(** [Object.is] on values without identity: true only on equal values. *)
Class ObjectIsSound (D : Type) `{ObjectIs D} : Prop :=
  same_eq : forall a b : D, same a b = true -> a = b.

(** The parameter names of the endpoints are sanitised already. *)
Definition storedNames (fns : list BlueprintFunction) : Prop :=
  forall fn p, In fn fns -> In p (fparameters fn) ->
               sanitiseIdentifier (pname p) = pname p.

(* ================================================================== *)
(** * Inputs of the examples *)
(* ================================================================== *)

Definition blankMetadata : PluginMetadata :=
  {| pluginName := EmptyString;
     friendlyName := EmptyString;
     version := EmptyString;
     description := EmptyString;
     category := EmptyString;
     loadingPhase := Default;
     supportedTargets := EmptyString;
     enableEditorModule := false;
     enableBlueprintLibrary := false;
     enableAsyncActions := false;
     enableEditorMenu := false |}.

Definition unnamedFunction : BlueprintFunction :=
  {| fname := "?!"; freturnType := "float"; fdescription := EmptyString;
     fparameters := [] |}.



Definition blankTypeFunction : BlueprintFunction :=
  {| fname := "Tick"; freturnType := "void"; fdescription := EmptyString;
     fparameters := [ {| pname := "Countdown"; ptype := "  " |} ] |}.

Definition draftState : State :=
  {| metadata := defaultMetadata;
     blueprintFunctions := mkRef 0 defaultFunctions;
     newFunctionName := " SpawnMarker ";
     newFunctionReturnType := "bool";
     newFunctionDescription := EmptyString;
     parameterDraft := "ContextActor:AActor*, Countdown:float, Broken, :int, x: , !?:int" |}.

(** A history the witnesses use. *)
Definition toggledTwice : list Step :=
  [ Render; Dispatch (ToggleFeature EnableAsyncActions); Render;
    Dispatch (ToggleFeature EnableAsyncActions) ].

(* ================================================================== *)
(** * Further predicates *)
(* ================================================================== *)

(** The characters of an export macro: capitals, digits, underscore. *)
Definition isMacroChar (c : ascii) : bool := isUpper c || isDigit c || isUnderscore c.

(** No two characters of the class [p] stand side by side in [s]. *)
Fixpoint noAdjacent (p : ascii -> bool) (s : string) : bool :=
  match s with
  | EmptyString => true
  | String a s' =>
      match s' with
      | EmptyString => true
      | String b _ => negb (p a && p b) && noAdjacent p s'
      end
  end.

(** [s] is empty or starts with a character outside [p]. *)
Definition startsOutside (p : ascii -> bool) (s : string) : bool :=
  match s with
  | EmptyString => true
  | String c _ => negb (p c)
  end.

(** [s] is empty or ends with a character outside [p]. *)
Fixpoint endsOutside (p : ascii -> bool) (s : string) : bool :=
  match s with
  | EmptyString => true
  | String c s' =>
      match s' with
      | EmptyString => negb (p c)
      | String _ _ => endsOutside p s'
      end
  end.

(** A parameter as generated code needs it: the name a non-empty
    identifier, the type non-empty and without white space around it. *)
Definition validParameter (p : BlueprintParameter) : Prop :=
  everyChar isWord (pname p) = true
  /\ startsIdentifier (pname p) = true
  /\ truthy (pname p) = true
  /\ truthy (ptype p) = true
  /\ trim (ptype p) = ptype p.

(** The events that only fill in the form for a new endpoint. *)
Definition isTyping (e : Event) : bool :=
  match e with
  | TypeFunctionName _ | TypeReturnType _ | TypeDescription _
  | TypeParameterDraft _ => true
  | _ => false
  end.

(** [Object.is] holds between a value and itself. *)
Class ObjectIsRefl (D : Type) `{ObjectIs D} : Prop :=
  same_refl : forall a : D, same a a = true.

(** The body of a string in a JSON text: any character from U+0020 on
    except the quotation mark and the reverse solidus, or an escape. *)
Definition isHex (c : ascii) : bool := isDigit c || between 97 102 c || between 65 70 c.

Definition isEscapeLetter (c : ascii) : bool :=
  existsb (Nat.eqb (nat_of_ascii c)) [34; 92; 47; 98; 102; 110; 114; 116].

Fixpoint jsonChars (s : string) : bool :=
  match s with
  | EmptyString => true
  | String c rest =>
      if Nat.eqb (nat_of_ascii c) 92 then
        match rest with
        | EmptyString => false
        | String e rest' =>
            if Nat.eqb (nat_of_ascii e) 117 then
              match rest' with
              | String h1 (String h2 (String h3 (String h4 rest''))) =>
                  isHex h1 && isHex h2 && isHex h3 && isHex h4 && jsonChars rest''
              | _ => false
              end
            else isEscapeLetter e && jsonChars rest'
        end
      else negb (Nat.eqb (nat_of_ascii c) 34)
           && negb (Nat.ltb (nat_of_ascii c) 32)
           && jsonChars rest
  end.

(** How often [c] stands in [s]. *)
Fixpoint countChar (c : ascii) (s : string) : nat :=
  match s with
  | EmptyString => 0
  | String d s' => (if Ascii.eqb d c then 1 else 0) + countChar c s'
  end.

(** An endpoint as the component stores it: name, return type and
    description are not empty, the name and the types carry no white space
    around them, and every parameter name is a non-empty identifier that
    sanitising leaves alone. *)
Definition storedParameter (p : BlueprintParameter) : Prop :=
  sanitiseIdentifier (pname p) = pname p
  /\ truthy (pname p) = true
  /\ truthy (ptype p) = true
  /\ trim (ptype p) = ptype p.

Definition storedEndpoint (fn : BlueprintFunction) : Prop :=
  truthy (fname fn) = true
  /\ trim (fname fn) = fname fn
  /\ truthy (freturnType fn) = true
  /\ truthy (fdescription fn) = true
  /\ Forall storedParameter (fparameters fn).

(** The last character of a text. *)
Fixpoint lastChar (s : string) : option ascii :=
  match s with
  | EmptyString => None
  | String c s' =>
      match s' with
      | EmptyString => Some c
      | String _ _ => lastChar s'
      end
  end.

(** The longest run of digits at the end of a text. *)
Fixpoint tailDigits (s : string) : string :=
  match s with
  | EmptyString => EmptyString
  | String _ s' => if everyChar isDigit s then s else tailDigits s'
  end.

(** ** The copy control of a panel ([CodeBlock.tsx])

    [handleCopy] writes the text to the clipboard; when the write succeeds
    it sets [copied] and starts a timer that clears it, when the write
    fails it clears [copied].  A timer fires some time after it was
    started. *)
Record CopyState := {
  copied : bool;
  pendingTimers : nat
}.

Inductive CopyEvent := WriteSucceeds | WriteFails | TimerFires.

Definition copyStep (s : CopyState) (e : CopyEvent) : CopyState :=
  match e with
  | WriteSucceeds => {| copied := true; pendingTimers := S (pendingTimers s) |}
  | WriteFails => {| copied := false; pendingTimers := pendingTimers s |}
  | TimerFires =>
      match pendingTimers s with
      | O => s
      | S n => {| copied := false; pendingTimers := n |}
      end
  end.

Definition copyInitial : CopyState := {| copied := false; pendingTimers := 0 |}.

Definition copyRun (events : list CopyEvent) : CopyState :=
  fold_left copyStep events copyInitial.

(* ================================================================== *)
(** * Properties *)
(* ================================================================== *)

(* ------------------------------------------------------------------ *)
(** ** Strings: basic facts *)

Lemma append_empty_r (s : string) : s ++ EmptyString = s.
Proof. induction s as [|c s IH]; simpl; congruence. Qed.

Lemma append_assoc (a b c : string) : (a ++ b) ++ c = a ++ (b ++ c).
Proof. induction a as [|x a IH]; simpl; congruence. Qed.

(** Both sides of an equation between texts in one form: appends nested to
    the right, literal text as characters. *)
Ltac normalise_text :=
  repeat rewrite append_assoc; cbn [append];
  repeat rewrite append_assoc; cbn [append].

Lemma append_cancel_l (a b c : string) : a ++ b = a ++ c -> b = c.
Proof. induction a as [|x a IH]; simpl; intros H; [assumption|]. injection H. auto. Qed.

Lemma everyChar_app (p : ascii -> bool) (a b : string) :
  everyChar p (a ++ b) = everyChar p a && everyChar p b.
Proof.
  induction a as [|x a IH]; simpl; [reflexivity|].
  rewrite IH. now rewrite andb_assoc.
Qed.

Lemma truthy_false (s : string) : truthy s = false -> s = EmptyString.
Proof. destruct s; simpl; congruence. Qed.

Lemma truthy_true (s : string) : truthy s = true -> s <> EmptyString.
Proof. destruct s; simpl; congruence. Qed.

Lemma orElse_truthy (a b : string) : truthy b = true -> truthy (orElse a b) = true.
Proof. unfold orElse. destruct (truthy a) eqn:E; auto. Qed.

(* ------------------------------------------------------------------ *)
(** ** [sanitiseIdentifier] *)

Lemma everyChar_filterChars (p : ascii -> bool) (s : string) :
  everyChar p (filterChars p s) = true.
Proof.
  induction s as [|c s IH]; simpl; [reflexivity|].
  destruct (p c) eqn:E; simpl; [rewrite E|]; auto.
Qed.

Lemma everyChar_dropWhile (p d : ascii -> bool) (s : string) :
  everyChar p s = true -> everyChar p (dropWhile d s) = true.
Proof.
  induction s as [|c s IH]; simpl; [reflexivity|].
  intros H. apply andb_true_iff in H as [Hc Hs].
  destruct (d c); simpl; [auto|]. now rewrite Hc, Hs.
Qed.

Lemma dropWhile_head (d : ascii -> bool) (s : string) :
  match dropWhile d s with
  | EmptyString => True
  | String c _ => d c = false
  end.
Proof.
  induction s as [|c s IH]; simpl; [exact I|].
  destruct (d c) eqn:E; [assumption|]. exact E.
Qed.

Lemma everyChar_prefixDigit (s : string) :
  everyChar isWord s = true -> everyChar isWord (prefixDigit s) = true.
Proof.
  destruct s as [|c s]; simpl; [reflexivity|].
  intros H. destruct (isDigit c); simpl; [|assumption].
  simpl in H. exact H.
Qed.

Lemma sanitiseIdentifier_chars (value : string) :
  everyChar isWord (sanitiseIdentifier value) = true.
Proof.
  unfold sanitiseIdentifier.
  apply everyChar_prefixDigit, everyChar_dropWhile, everyChar_filterChars.
Qed.

Lemma sanitiseIdentifier_start (value : string) :
  startsIdentifier (sanitiseIdentifier value) = true.
Proof.
  unfold sanitiseIdentifier.
  pose proof (dropWhile_head (fun c => negb (isLetter c || isUnderscore c))
                (filterChars isWord value)) as H.
  destruct (dropWhile _ (filterChars isWord value)) as [|c rest]; simpl;
    [reflexivity|].
  apply negb_false_iff in H.
  destruct (isDigit c); simpl; [reflexivity|exact H].
Qed.

(** C6.  For every input string, the output of the identifier sanitiser
    holds only characters of [A-Za-z0-9_], and a non-empty output starts
    with a letter or an underscore. *)
Theorem sanitiseIdentifier_valid (value : string) :
  everyChar isWord (sanitiseIdentifier value) = true
  /\ startsIdentifier (sanitiseIdentifier value) = true.
Proof.
  split; [apply sanitiseIdentifier_chars|apply sanitiseIdentifier_start].
Qed.

(* ------------------------------------------------------------------ *)
(** ** [toPascalCase] *)

Lemma replaceRuns_none (p : ascii -> bool) (r : string) (b : bool) (s : string) :
  everyChar (fun c => negb (p c)) s = true -> replaceRuns p r b s = s.
Proof.
  revert b. induction s as [|c s IH]; simpl; intros b H; [reflexivity|].
  apply andb_true_iff in H as [Hc Hs]. apply negb_true_iff in Hc.
  rewrite Hc. now rewrite IH.
Qed.

Lemma split_none (sep : ascii) (s : string) :
  everyChar (fun c => negb (Ascii.eqb c sep)) s = true -> split sep s = [s].
Proof.
  induction s as [|c s IH]; simpl; intros H; [reflexivity|].
  apply andb_true_iff in H as [Hc Hs]. apply negb_true_iff in Hc.
  rewrite Hc. now rewrite IH.
Qed.

Lemma everyChar_weaken (p r : ascii -> bool) (s : string) :
  (forall c, p c = true -> r c = true) ->
  everyChar p s = true -> everyChar r s = true.
Proof.
  intros Hpr. induction s as [|c s IH]; simpl; [reflexivity|].
  intros H. apply andb_true_iff in H as [Hc Hs].
  now rewrite (Hpr _ Hc), IH.
Qed.

Lemma isAlnum_not_space (c : ascii) :
  isAlnum c = true -> negb (Ascii.eqb c " ") = true.
Proof.
  destruct (Ascii.eqb_spec c " ") as [->|]; [discriminate|reflexivity].
Qed.

Lemma upperChar_idem (c : ascii) : upperChar (upperChar c) = upperChar c.
Proof. destruct c as [[] [] [] [] [] [] [] []]; reflexivity. Qed.

Lemma upperChar_alnum (c : ascii) : isAlnum c = true -> isAlnum (upperChar c) = true.
Proof. destruct c as [[] [] [] [] [] [] [] []]; intros H; try discriminate H; reflexivity. Qed.

(** On a string of letters and digits, [toPascalCase] only capitalises. *)
Lemma toPascalCase_alnum (x : string) :
  everyChar isAlnum x = true -> toPascalCase x = capitalise x.
Proof.
  intros H. unfold toPascalCase.
  rewrite replaceRuns_none
    by (apply (everyChar_weaken isAlnum); [intros c Hc; now rewrite Hc|exact H]).
  rewrite split_none
    by (apply (everyChar_weaken isAlnum); [exact isAlnum_not_space|exact H]).
  destruct x as [|c rest]; reflexivity.
Qed.

Lemma capitalise_alnum (x : string) :
  everyChar isAlnum x = true -> everyChar isAlnum (capitalise x) = true.
Proof.
  destruct x as [|c rest]; simpl; [reflexivity|].
  intros H. apply andb_true_iff in H as [Hc Hs].
  now rewrite (upperChar_alnum _ Hc), Hs.
Qed.

Lemma capitalise_idem (x : string) : capitalise (capitalise x) = capitalise x.
Proof. destruct x as [|c rest]; simpl; [reflexivity|]. now rewrite upperChar_idem. Qed.

(** C7.  On an input made of letters and digits only, [toPascalCase]
    applied twice gives what it gives applied once. *)
Theorem toPascalCase_idempotent (x : string) :
  everyChar isAlnum x = true ->
  toPascalCase (toPascalCase x) = toPascalCase x.
Proof.
  intros H. rewrite (toPascalCase_alnum x H).
  rewrite (toPascalCase_alnum _ (capitalise_alnum x H)).
  apply capitalise_idem.
Qed.

Lemma toPascalCase_idempotent_witness :
  everyChar isAlnum "nebulaToolkit9" = true
  /\ toPascalCase (toPascalCase "nebulaToolkit9") = toPascalCase "nebulaToolkit9".
Proof.
  split; [reflexivity|].
  apply (toPascalCase_idempotent "nebulaToolkit9"). reflexivity.
Defined.

(* ------------------------------------------------------------------ *)
(** ** Derived identifiers and display names *)

(** C3, as the code has it.  With an empty plugin code name nothing fails:
    the module name falls back to "AddonModule", and the export macro, the
    log category and the class names are built from that fallback. *)
Theorem empty_pluginName_falls_back (metadata : PluginMetadata) :
  pluginName metadata = EmptyString ->
  moduleNameOf metadata = "AddonModule"
  /\ moduleApiMacroOf (moduleNameOf metadata) = "ADDON_MODULE_API"
  /\ logCategoryOf (moduleNameOf metadata) = "LogAddonModule"
  /\ moduleClassOf (moduleNameOf metadata) = "FAddonModuleModule"
  /\ blueprintClassOf (moduleNameOf metadata) = "UAddonModuleBlueprintLibrary"
  /\ asyncActionClassOf (moduleNameOf metadata) = "UAddonModuleAsyncAction".
Proof.
  intros H. unfold moduleNameOf. rewrite H. repeat split; reflexivity.
Qed.

Lemma empty_pluginName_falls_back_witness :
  pluginName blankMetadata = EmptyString
  /\ moduleNameOf blankMetadata = "AddonModule".
Proof.
  split; [reflexivity|].
  exact (proj1 (empty_pluginName_falls_back blankMetadata eq_refl)).
Defined.

(** C3 as the specification words it fails: with the empty code name the
    module name, the export macro, the log category and the class names
    are all non-empty. *)
Lemma empty_pluginName_not_empty_identifiers :
  pluginName blankMetadata = EmptyString
  /\ moduleNameOf blankMetadata <> EmptyString
  /\ moduleApiMacroOf (moduleNameOf blankMetadata) <> EmptyString
  /\ logCategoryOf (moduleNameOf blankMetadata) <> EmptyString
  /\ moduleClassOf (moduleNameOf blankMetadata) <> EmptyString
  /\ blueprintClassOf (moduleNameOf blankMetadata) <> EmptyString
  /\ asyncActionClassOf (moduleNameOf blankMetadata) <> EmptyString.
Proof. repeat split; discriminate. Qed.

(** The scenario of the specification: the code name "Nebula Toolkit!". *)
Example scenario_nebula_toolkit :
  let metadata := applyChange (SetPluginName "Nebula Toolkit!") blankMetadata in
  moduleNameOf metadata = "NebulaToolkit"
  /\ moduleApiMacroOf (moduleNameOf metadata) = "NEBULA_TOOLKIT_API"
  /\ logCategoryOf (moduleNameOf metadata) = "LogNebulaToolkit".
Proof. repeat split; reflexivity. Qed.

(** A code name without a letter or digit is not the empty string, so no
    fallback applies: the module name is empty, and the identifiers built
    around it keep their fixed affixes. *)
Example symbols_only_pluginName :
  let metadata := applyChange (SetPluginName "!!!") blankMetadata in
  moduleNameOf metadata = EmptyString
  /\ moduleApiMacroOf (moduleNameOf metadata) = "_API"
  /\ logCategoryOf (moduleNameOf metadata) = "Log"
  /\ moduleClassOf (moduleNameOf metadata) = "FModule".
Proof. repeat split; reflexivity. Qed.

(** C10.  When the name of an endpoint sanitises to the empty string, its
    display name is the fixed "GeneratedFunction", which is not empty. *)
Theorem displayName_fallback (friendly : string) (index : nat) (fn : BlueprintFunction) :
  sanitiseIdentifier (fname fn) = EmptyString ->
  displayName (normalizeFunction friendly index fn) = "GeneratedFunction"
  /\ truthy (displayName (normalizeFunction friendly index fn)) = true.
Proof.
  intros H. unfold normalizeFunction.
  destruct (sanitizeParameters index (fparameters fn) []) as [sanitized taken].
  simpl. rewrite H. split; reflexivity.
Qed.

Lemma displayName_fallback_witness :
  sanitiseIdentifier (fname unnamedFunction) = EmptyString
  /\ displayName (normalizeFunction "Nebula Toolkit" 0 unnamedFunction)
     = "GeneratedFunction".
Proof.
  split; [reflexivity|].
  exact (proj1 (displayName_fallback "Nebula Toolkit" 0 unnamedFunction eq_refl)).
Defined.

(** A name of underscores alone sanitises to itself, so the fallback does
    not apply, and [toPascalCase] leaves nothing of it. *)
Example underscore_displayName :
  sanitiseIdentifier "_" = "_"
  /\ displayName (normalizeFunction "Nebula Toolkit" 0
       {| fname := "_"; freturnType := "void"; fdescription := EmptyString;
          fparameters := [] |}) = EmptyString.
Proof. split; reflexivity. Qed.

(* ------------------------------------------------------------------ *)
(** ** Decimal suffixes *)

Lemma everyChar_string_of_uint (d : Decimal.uint) :
  everyChar isDigit (NilEmpty.string_of_uint d) = true.
Proof. induction d; simpl; auto. Qed.

Lemma ofNat_digits (n : nat) : everyChar isDigit (ofNat n) = true.
Proof. apply everyChar_string_of_uint. Qed.

Lemma ofNat_inj (n m : nat) : ofNat n = ofNat m -> n = m.
Proof.
  unfold ofNat. intros H.
  apply Unsigned.to_uint_inj.
  assert (E : Some (Nat.to_uint n) = Some (Nat.to_uint m))
    by (rewrite <- !NilEmpty.usu; now rewrite H).
  now injection E.
Qed.

Lemma ofNat_nonempty (n : nat) : ofNat n <> EmptyString.
Proof.
  intros H.
  assert (E : ofNat n = ofNat 0 -> False).
  { destruct n as [|n]; [discriminate H|]. intros E. apply ofNat_inj in E. discriminate E. }
  pose proof (NilEmpty.usu (Nat.to_uint n)) as U.
  fold (ofNat n) in U. rewrite H in U. simpl in U.
  injection U as U.
  pose proof (Unsigned.of_to n) as O. rewrite <- U in O. simpl in O.
  subst n. discriminate H.
Qed.

Lemma candidateAt_inj (name : string) (j k : nat) :
  candidateAt name j = candidateAt name k -> j = k.
Proof.
  destruct j as [|j], k as [|k]; simpl; intros H.
  - reflexivity.
  - exfalso. apply (ofNat_nonempty (S k)).
    apply (append_cancel_l name). now rewrite append_empty_r.
  - exfalso. apply (ofNat_nonempty (S j)).
    apply (append_cancel_l name). now rewrite append_empty_r.
  - now apply ofNat_inj, (append_cancel_l name).
Qed.

(* ------------------------------------------------------------------ *)
(** ** The set of taken names *)

Lemma has_true (t : SetOf) (x : string) : has t x = true <-> In x t.
Proof.
  unfold has. rewrite existsb_exists. split.
  - intros (y & Hy & E). apply String.eqb_eq in E. now subst.
  - intros H. exists x. split; [assumption|apply String.eqb_refl].
Qed.

Lemma has_false (t : SetOf) (x : string) : has t x = false <-> ~ In x t.
Proof.
  rewrite <- has_true. destruct (has t x); split; congruence.
Qed.

Lemma add_fresh (t : SetOf) (x : string) : ~ In x t -> add t x = (t ++ [x])%list.
Proof. intros H. unfold add, push. apply has_false in H. now rewrite H. Qed.

Lemma add_in (t : SetOf) (x y : string) : In y (add t x) <-> In y t \/ y = x.
Proof.
  unfold add, push. destruct (has t x) eqn:E.
  - apply has_true in E. split; [auto|]. intros [H| ->]; assumption.
  - rewrite in_app_iff. simpl. split.
    + intros [H|[H|[]]]; auto.
    + intros [H|H]; auto.
Qed.

(* ------------------------------------------------------------------ *)
(** ** The loop of [uniqueParameterName] *)

(** A loop that runs out of fuel has found every candidate taken. *)
Lemma uniqueLoop_none (name : string) (taken : SetOf) (fuel k : nat) :
  uniqueLoop fuel name taken (candidateAt name k) (S k) = None ->
  forall j, k <= j < k + fuel -> In (candidateAt name j) taken.
Proof.
  revert k. induction fuel as [|fuel IH]; intros k H j Hj; [lia|].
  simpl in H. destruct (has taken (candidateAt name k)) eqn:E; [|discriminate H].
  destruct (Nat.eq_dec j k) as [->|Hne].
  - now apply has_true.
  - apply (IH (S k)); [exact H|lia].
Qed.

(** A loop that ends returns a candidate that is not taken. *)
Lemma uniqueLoop_some (name : string) (taken : SetOf) (fuel k : nat) (c : string) :
  uniqueLoop fuel name taken (candidateAt name k) (S k) = Some c ->
  ~ In c taken /\ exists j, k <= j /\ c = candidateAt name j.
Proof.
  revert k. induction fuel as [|fuel IH]; intros k H; [discriminate H|].
  simpl in H. destruct (has taken (candidateAt name k)) eqn:E.
  - destruct (IH (S k) H) as (Hc & j & Hj & Ej).
    split; [assumption|]. exists j. split; [lia|assumption].
  - injection H as <-. split; [now apply has_false|].
    exists k. split; [lia|reflexivity].
Qed.

Lemma candidates_NoDup (name : string) (n : nat) :
  NoDup (map (candidateAt name) (seq 0 n)).
Proof.
  assert (G : forall l, NoDup l -> NoDup (map (candidateAt name) l)).
  { induction 1 as [|x l Hx Hl IH]; simpl; constructor; [|assumption].
    rewrite in_map_iff. intros (y & E & Hy).
    apply candidateAt_inj in E. now subst. }
  apply G, seq_NoDup.
Qed.

(** The loop ends: among the name and its first [length taken] suffixed
    forms, one is not in [taken]. *)
Lemma uniqueLoop_total (name : string) (taken : SetOf) :
  exists c, uniqueLoop (S (length taken)) name taken name 1 = Some c.
Proof.
  destruct (uniqueLoop (S (length taken)) name taken name 1) as [c|] eqn:E;
    [now exists c|].
  exfalso.
  pose proof (uniqueLoop_none name taken (S (length taken)) 0 E) as H.
  assert (I : incl (map (candidateAt name) (seq 0 (S (length taken)))) taken).
  { intros x Hx. apply in_map_iff in Hx as (j & <- & Hj).
    apply in_seq in Hj. apply H. lia. }
  pose proof (NoDup_incl_length (candidates_NoDup name (S (length taken))) I) as Hlen.
  rewrite length_map, length_seq in Hlen. lia.
Qed.

(** More fuel does not change the outcome of a loop that has ended. *)
Lemma uniqueLoop_more_fuel (name : string) (taken : SetOf) (fuel extra : nat)
    (candidate : string) (index : nat) (c : string) :
  uniqueLoop fuel name taken candidate index = Some c ->
  uniqueLoop (fuel + extra) name taken candidate index = Some c.
Proof.
  revert candidate index.
  induction fuel as [|fuel IH]; intros candidate index H; [discriminate H|].
  simpl in *. destruct (has taken candidate); [now apply IH|assumption].
Qed.

Lemma uniqueParameterName_spec (name : string) (taken : SetOf) :
  exists c,
    uniqueLoop (S (length taken)) name taken name 1 = Some c
    /\ uniqueParameterName name taken = (c, (taken ++ [c])%list)
    /\ ~ In c taken
    /\ exists j, c = candidateAt name j.
Proof.
  destruct (uniqueLoop_total name taken) as [c Hc].
  exists c. split; [exact Hc|].
  destruct (uniqueLoop_some name taken (S (length taken)) 0 c Hc)
    as (Hfresh & j & _ & Ej).
  unfold uniqueParameterName. rewrite Hc.
  rewrite (add_fresh _ _ Hfresh). repeat split; [assumption|now exists j].
Qed.

(** A name that is not taken is given out as it is. *)
Lemma uniqueParameterName_free (name : string) (taken : SetOf) :
  ~ In name taken ->
  uniqueParameterName name taken = (name, (taken ++ [name])%list).
Proof.
  intros H. unfold uniqueParameterName. cbn [uniqueLoop].
  pose proof H as H'. apply has_false in H'. rewrite H'.
  now rewrite (add_fresh _ _ H).
Qed.

(* ------------------------------------------------------------------ *)
(** ** The parameters of a normalised endpoint *)

(** The name the callback of [map] hands to [uniqueParameterName]. *)
Lemma safeName_worldContext (index : nat) (raw : string) :
  orElse (sanitiseIdentifier raw) ("Param" ++ ofNat index) = worldContextName
  <-> sanitiseIdentifier raw = worldContextName.
Proof.
  unfold orElse. destruct (sanitiseIdentifier raw) as [|c s]; cbn [truthy]; [|tauto].
  split; [|discriminate]. intros H. exfalso.
  assert (D : everyChar (fun c => negb (isDigit c)) ("Param" ++ ofNat index) = true)
    by (rewrite H; reflexivity).
  rewrite everyChar_app in D. apply andb_true_iff in D as [_ D].
  pose proof (ofNat_digits index) as G. pose proof (ofNat_nonempty index) as N.
  destruct (ofNat index) as [|c s]; [now apply N|].
  simpl in D, G. destruct (isDigit c); discriminate.
Qed.

Lemma candidateAt_worldContext (name : string) (j : nat) :
  candidateAt name j = worldContextName -> name = worldContextName.
Proof.
  destruct j as [|j]; cbn [candidateAt]; [auto|]. intros H. exfalso.
  assert (D : everyChar (fun c => negb (isDigit c)) (name ++ ofNat (S j)) = true)
    by (rewrite H; reflexivity).
  rewrite everyChar_app in D. apply andb_true_iff in D as [_ D].
  pose proof (ofNat_digits (S j)) as G. pose proof (ofNat_nonempty (S j)) as N.
  destruct (ofNat (S j)) as [|c s]; [now apply N|].
  simpl in D, G. destruct (isDigit c); discriminate.
Qed.

Lemma sanitizeParameters_cons (index : nat) (p : BlueprintParameter)
    (ps : list BlueprintParameter) (taken : SetOf) :
  sanitizeParameters index (p :: ps) taken
  = let '(unique, taken1) :=
      uniqueParameterName
        (orElse (sanitiseIdentifier (pname p)) ("Param" ++ ofNat index)) taken in
    let '(out, taken2) := sanitizeParameters index ps taken1 in
    ({| pname := unique; ptype := orElse (trim (ptype p)) "float" |} :: out, taken2).
Proof. reflexivity. Qed.


(** The types: each parameter keeps its trimmed type, or gets "float". *)
Lemma sanitizeParameters_types (index : nat) (ps : list BlueprintParameter) :
  forall taken k p,
    nth_error ps k = Some p ->
    exists p',
      nth_error (fst (sanitizeParameters index ps taken)) k = Some p'
      /\ ptype p' = orElse (trim (ptype p)) "float".
Proof.
  induction ps as [|p0 ps IH]; intros taken k p H; [destruct k; discriminate H|].
  rewrite sanitizeParameters_cons.
  destruct (uniqueParameterName _ taken) as [c taken1].
  destruct (sanitizeParameters index ps taken1) as [out1 taken2] eqn:E.
  destruct k as [|k]; simpl in *.
  - injection H as <-. eexists. split; reflexivity.
  - destruct (IH taken1 k p H) as (p' & Hp' & Ht). rewrite E in Hp'.
    exists p'. auto.
Qed.

(** The context name is among the names given out exactly when a parameter
    sanitises to it (or it was taken before). *)
Lemma sanitizeParameters_worldContext (index : nat) (ps : list BlueprintParameter) :
  forall taken out taken',
    sanitizeParameters index ps taken = (out, taken') ->
    (In worldContextName (taken ++ map pname out)
     <-> In worldContextName taken
         \/ exists p, In p ps /\ sanitiseIdentifier (pname p) = worldContextName).
Proof.
  induction ps as [|p ps IH]; intros taken out taken' H.
  - injection H as <- <-. simpl. rewrite app_nil_r.
    split; [auto|]. intros [?|(p & [] & _)]. assumption.
  - rewrite sanitizeParameters_cons in H.
    set (safeName := orElse (sanitiseIdentifier (pname p)) ("Param" ++ ofNat index)) in *.
    destruct (uniqueParameterName_spec safeName taken) as (c & Hloop & Hc & Hfresh & j & Ej).
    rewrite Hc in H.
    destruct (sanitizeParameters index ps (taken ++ [c])%list) as [out1 taken1] eqn:E.
    injection H as <- <-.
    specialize (IH _ _ _ E). rewrite <- app_assoc in IH. simpl in IH.
    simpl. rewrite IH. rewrite in_app_iff. simpl. split.
    + intros [[Ht|[Hcw|[]]]|(q & Hq & Hs)].
      * now left.
      * right. exists p. split; [now left|].
        apply (safeName_worldContext index).
        apply (candidateAt_worldContext _ j).
        change (candidateAt safeName j = worldContextName). now rewrite <- Ej.
      * right. exists q. split; [now right|assumption].
    + intros [Ht|(q & [->|Hq] & Hs)].
      * now left; left.
      * destruct (in_dec string_dec worldContextName taken) as [Hin|Hout];
          [now left; left|].
        left; right; left.
        apply (safeName_worldContext index) in Hs. fold safeName in Hs.
        simpl in Hloop. rewrite Hs in Hloop.
        apply has_false in Hout. rewrite Hout in Hloop. now injection Hloop.
      * right. exists q. auto.
Qed.

Lemma namesWorldContext_true (ps : list BlueprintParameter) :
  namesWorldContext ps = true <-> In worldContextName (map pname ps).
Proof.
  unfold namesWorldContext. rewrite existsb_exists, in_map_iff. split.
  - intros (p & Hp & E). apply String.eqb_eq in E. now exists p.
  - intros (p & E & Hp). exists p. split; [assumption|now apply String.eqb_eq].
Qed.

Lemma namesWorldContext_sanitized (index : nat) (ps : list BlueprintParameter) :
  namesWorldContext (fst (sanitizeParameters index ps [])) = sanitisesToWorldContext ps.
Proof.
  destruct (sanitizeParameters index ps []) as [out taken'] eqn:E. simpl.
  pose proof (sanitizeParameters_worldContext index ps [] out taken' E) as H.
  simpl in H.
  apply eq_true_iff_eq. rewrite namesWorldContext_true, H.
  unfold sanitisesToWorldContext. rewrite existsb_exists. split.
  - intros [[]|(p & Hp & Hs)]. exists p. split; [assumption|now apply String.eqb_eq].
  - intros (p & Hp & Hs). right. exists p. split; [assumption|now apply String.eqb_eq].
Qed.

(** The parameter list of a normalised endpoint. *)
Lemma normalizeFunction_parameters (friendly : string) (index : nat)
    (fn : BlueprintFunction) :
  parameters (normalizeFunction friendly index fn)
  = ((if sanitisesToWorldContext (fparameters fn) then [] else [worldContextParameter])
     ++ fst (sanitizeParameters index (fparameters fn) []))%list.
Proof.
  pose proof (namesWorldContext_sanitized index (fparameters fn)) as H.
  unfold normalizeFunction.
  destruct (sanitizeParameters index (fparameters fn) []) as [out taken']. simpl in *.
  rewrite <- H. destruct (namesWorldContext out); reflexivity.
Qed.








(** A type with blanks around it is not kept as it is, and a blank type
    becomes "float", also for the parameter that serves as the context
    parameter. *)
Example context_parameter_type :
  map (fun fn => parameters (normalizeFunction "Nebula Toolkit" 0 fn))
    [ {| fname := "Ping"; freturnType := "void"; fdescription := EmptyString;
         fparameters := [ {| pname := "WorldContextObject"; ptype := " AActor* " |} ] |};
      {| fname := "Ping"; freturnType := "void"; fdescription := EmptyString;
         fparameters := [ {| pname := "WorldContextObject"; ptype := "   " |} ] |} ]
  = [ [ {| pname := worldContextName; ptype := "AActor*" |} ];
      [ {| pname := worldContextName; ptype := "float" |} ] ].
Proof. reflexivity. Qed.

(** The scenarios of the specification: no parameter and return type
    "float"; two parameters that both sanitise to "Target". *)
Example scenario_no_parameters :
  let nf := normalizeFunction "Nebula Toolkit" 0 unnamedFunction in
  parameters nf = [worldContextParameter]
  /\ defaultReturnSnippet (returnType nf) = "return 0.f;".
Proof. split; reflexivity. Qed.

Example scenario_two_targets :
  map pname
    (fst (sanitizeParameters 0
            [ {| pname := "Target"; ptype := "AActor*" |};
              {| pname := "Target!"; ptype := "FVector" |} ] []))
  = ["Target"; "Target1"].
Proof. reflexivity. Qed.

Lemma length_sanitizeParameters (index : nat) (ps : list BlueprintParameter)
    (taken : SetOf) :
  length (fst (sanitizeParameters index ps taken)) = length ps.
Proof.
  revert taken. induction ps as [|p ps IH]; intros taken; [reflexivity|].
  rewrite sanitizeParameters_cons.
  destruct (uniqueParameterName _ taken) as [c taken1].
  specialize (IH taken1).
  destruct (sanitizeParameters index ps taken1) as [out1 taken2].
  simpl in *. now rewrite IH.
Qed.

Lemma lines_cons (l : string) (rest : list string) :
  rest <> [] -> lines (l :: rest) = l ++ nl ++ lines rest.
Proof. destruct rest; [congruence|reflexivity]. Qed.

(** The declaration and the definition of an endpoint both hold its
    signature, which is its parameters, each as type and name. *)
Lemma functionDeclaration_signature (nf : NormalizedFunction) :
  exists before after,
    functionDeclaration nf
    = before ++ join ", " (map renderParameter (parameters nf)) ++ after.
Proof.
  unfold functionDeclaration, signatureOf.
  repeat (rewrite lines_cons by discriminate).
  cbn [lines join].
  repeat rewrite <- append_assoc. rewrite append_assoc.
  eexists _, _. reflexivity.
Qed.

Lemma functionBody_signature (blueprintClass logCategory : string)
    (nf : NormalizedFunction) :
  exists before after,
    functionBody blueprintClass logCategory nf
    = before ++ join ", " (map renderParameter (parameters nf)) ++ after.
Proof.
  unfold functionBody, signatureOf.
  rewrite lines_cons by discriminate.
  set (rest := lines _).
  exists (returnType nf ++ " " ++ blueprintClass ++ "::" ++ displayName nf ++ "("),
         (")" ++ nl ++ rest).
  repeat rewrite <- append_assoc. reflexivity.
Qed.

(** C9.  A parameter whose type is blank gets the type "float" in the
    normalised endpoint, at its place after the context parameter when one
    was put in front; the declaration and the definition of the endpoint
    write it as "float" and its name. *)
Theorem blank_type_defaults_to_float (friendly : string) (index : nat)
    (fn : BlueprintFunction) (k : nat) (p : BlueprintParameter) :
  nth_error (fparameters fn) k = Some p ->
  trim (ptype p) = EmptyString ->
  let nf := normalizeFunction friendly index fn in
  let k' := k + (length (parameters nf) - length (fparameters fn)) in
  exists p',
    nth_error (parameters nf) k' = Some p'
    /\ ptype p' = "float"
    /\ nth_error (map renderParameter (parameters nf)) k' = Some ("float " ++ pname p')
    /\ (exists before after,
          functionDeclaration nf
          = before ++ join ", " (map renderParameter (parameters nf)) ++ after)
    /\ (forall blueprintClass logCategory, exists before after,
          functionBody blueprintClass logCategory nf
          = before ++ join ", " (map renderParameter (parameters nf)) ++ after).
Proof.
  intros Hk Hblank nf k'.
  destruct (sanitizeParameters_types index (fparameters fn) [] k p Hk)
    as (p' & Hp' & Ht).
  rewrite Hblank in Ht. change (ptype p' = "float") in Ht.
  pose proof (length_sanitizeParameters index (fparameters fn) []) as Hlen.
  assert (Hn : nth_error (parameters nf) k' = Some p').
  { subst k' nf. rewrite normalizeFunction_parameters.
    destruct (sanitisesToWorldContext (fparameters fn));
      cbn [app length]; rewrite Hlen.
    - replace (k + _) with k by lia. exact Hp'.
    - replace (k + _) with (S k) by lia. exact Hp'. }
  exists p'. repeat split.
  - exact Hn.
  - exact Ht.
  - rewrite nth_error_map, Hn. simpl. unfold renderParameter. now rewrite Ht.
  - apply functionDeclaration_signature.
  - intros. apply functionBody_signature.
Qed.

Lemma blank_type_defaults_to_float_witness :
  exists p',
    nth_error (parameters (normalizeFunction "Nebula Toolkit" 0 blankTypeFunction)) 1
    = Some p'
    /\ ptype p' = "float".
Proof.
  destruct (blank_type_defaults_to_float "Nebula Toolkit" 0 blankTypeFunction 0
              {| pname := "Countdown"; ptype := "  " |} eq_refl eq_refl)
    as (p' & Hn & Ht & _).
  exists p'. split; [exact Hn|exact Ht].
Defined.

(* ------------------------------------------------------------------ *)
(** ** Adding an endpoint *)

Lemma parseEntry_pairList (parameters : list BlueprintParameter) (entry : string) :
  parseEntry parameters entry
  = (parameters ++ map parameterOfPair (pairList entry))%list.
Proof.
  unfold parseEntry, pairList, draftPair.
  destruct (map trim (split ":" entry)) as [|name [|type rest]]; simpl;
    try (now rewrite app_nil_r).
  destruct (truthy name), (truthy type); simpl; try (now rewrite app_nil_r).
  reflexivity.
Qed.

Lemma pairList_empty : pairList EmptyString = [].
Proof. reflexivity. Qed.

Lemma fold_parseEntry (entries : list string) :
  forall parameters,
    fold_left parseEntry (filterBoolean (map trim entries)) parameters
    = (parameters
       ++ map parameterOfPair (flat_map (fun entry => pairList (trim entry)) entries))%list.
Proof.
  induction entries as [|entry entries IH]; intros parameters; simpl.
  - now rewrite app_nil_r.
  - rewrite map_app, app_assoc, <- parseEntry_pairList.
    destruct (truthy (trim entry)) eqn:E; simpl.
    + apply IH.
    + apply truthy_false in E. rewrite E.
      rewrite parseEntry_pairList, pairList_empty. simpl. rewrite app_nil_r.
      apply IH.
Qed.

(** The parameters that the handler reads off the draft are the
    well-formed pairs of the draft, in the order of the draft. *)
Lemma parseParameterDraft_wellFormed (draft : string) :
  parseParameterDraft draft = map parameterOfPair (wellFormedPairs draft).
Proof. unfold parseParameterDraft. now rewrite fold_parseEntry. Qed.

(** Without a function name the handler returns at once. *)
Lemma handleAdd_without_name (fresh : nat) (s : State) :
  truthy (trim (newFunctionName s)) = false ->
  handleAddBlueprintFunction fresh s = s.
Proof. intros H. unfold handleAddBlueprintFunction. now rewrite H. Qed.

(** C8.  When an endpoint is added, its parameters are the well-formed
    "name:type" pairs of the draft, in the order of the draft, each with
    its name sanitised; malformed pairs leave no trace.  The endpoint goes
    to the end of the list; the metadata and the endpoints before it stay
    as they were. *)
Theorem add_function_parses_draft (fresh : nat) (s : State) :
  truthy (trim (newFunctionName s)) = true ->
  metadata (handleAddBlueprintFunction fresh s) = metadata s
  /\ exists fn,
       target (blueprintFunctions (handleAddBlueprintFunction fresh s))
       = (target (blueprintFunctions s) ++ [fn])%list
       /\ fparameters fn = map parameterOfPair (wellFormedPairs (parameterDraft s)).
Proof.
  intros H. unfold handleAddBlueprintFunction. rewrite H. simpl.
  split; [reflexivity|].
  eexists. split; [reflexivity|]. simpl. apply parseParameterDraft_wellFormed.
Qed.

Lemma add_function_parses_draft_witness :
  truthy (trim (newFunctionName draftState)) = true
  /\ exists fn,
       target (blueprintFunctions (handleAddBlueprintFunction 1 draftState))
       = (defaultFunctions ++ [fn])%list
       /\ fparameters fn
          = [ {| pname := "ContextActor"; ptype := "AActor*" |};
              {| pname := "Countdown"; ptype := "float" |};
              {| pname := "Param"; ptype := "int" |} ].
Proof.
  split; [reflexivity|].
  destruct (add_function_parses_draft 1 draftState eq_refl) as (_ & fn & Ht & Hp).
  exists fn. split; [exact Ht|exact Hp].
Defined.

(* ------------------------------------------------------------------ *)
(** ** The descriptor *)

Lemma truthy_asyncHeader (metadata : PluginMetadata)
    (asyncActionClass moduleApiMacro moduleName : string) :
  truthy (asyncHeader metadata asyncActionClass moduleApiMacro moduleName)
  = enableAsyncActions metadata.
Proof. unfold asyncHeader. destruct (enableAsyncActions metadata); reflexivity. Qed.

Lemma filter_app_nil {A : Type} (f : A -> bool) (xs ys : list A) :
  filter f xs = [] -> filter f (xs ++ ys) = filter f ys.
Proof. intros H. now rewrite filter_app, H. Qed.

Lemma asyncPanels_view (metadata : PluginMetadata)
    (moduleName descriptorJson moduleHeader moduleSource buildScript
     blueprintHeader blueprintSource asyncHeader asyncSource
     editorHeader editorSource : string) :
  map title
    (filter isAsyncPanel
       (view metadata moduleName descriptorJson moduleHeader moduleSource buildScript
          blueprintHeader blueprintSource asyncHeader asyncSource editorHeader
          editorSource))
  = if enableAsyncActions metadata && truthy asyncHeader
    then ["Async action header"; "Async action source"] else [].
Proof.
  unfold view. rewrite !filter_app.
  destruct (enableBlueprintLibrary metadata && truthy blueprintHeader);
    destruct (enableAsyncActions metadata && truthy asyncHeader);
    destruct (enableEditorModule metadata && truthy editorHeader);
    reflexivity.
Qed.

(* ------------------------------------------------------------------ *)
(** ** The text of the descriptor *)

Lemma quoteJSON_phaseName (p : LoadingPhase) : quoteJSON (phaseName p) = q (phaseName p).
Proof. destruct p; reflexivity. Qed.

Lemma commaSeparated_cons (l l' : string) (rest : list string) :
  commaSeparated (l :: l' :: rest) = (l ++ ",") :: commaSeparated (l' :: rest).
Proof. reflexivity. Qed.

Lemma join_cons (sep x y : string) (rest : list string) :
  join sep (x :: y :: rest) = x ++ sep ++ join sep (y :: rest).
Proof. reflexivity. Qed.

Lemma lines_app (xs ys : list string) :
  xs <> [] -> ys <> [] -> lines (xs ++ ys) = lines xs ++ nl ++ lines ys.
Proof.
  intros Hx Hy. induction xs as [|x xs IH]; [congruence|].
  destruct xs as [|x' xs].
  - destruct ys as [|y ys]; [congruence|]. reflexivity.
  - unfold lines in *. cbn [app] in *. rewrite !join_cons.
    rewrite IH by discriminate.
    now rewrite !append_assoc.
Qed.

Lemma commaSeparated_nonempty (ls : list string) : ls <> [] -> commaSeparated ls <> [].
Proof. destruct ls as [|l [|l' rest]]; [congruence|discriminate|discriminate]. Qed.

(** The entries of an array, indented and one a line. *)
Lemma join_commaSeparated (xs : list string) :
  xs <> [] ->
  "    " ++ join ("," ++ nl ++ "    ") xs
  = lines (commaSeparated (map (fun x => "    " ++ x) xs)).
Proof.
  induction xs as [|x xs IH]; [congruence|]. intros _.
  destruct xs as [|x' xs]; [reflexivity|].
  rewrite join_cons. cbn [map]. rewrite commaSeparated_cons.
  rewrite lines_cons by (apply commaSeparated_nonempty; discriminate).
  cbn [map] in IH. rewrite <- IH by discriminate.
  now rewrite !append_assoc.
Qed.

Lemma split_cons (sep : ascii) (s : string) : split sep s <> [].
Proof.
  destruct s as [|c s]; cbn [split]; [discriminate|].
  destruct (Ascii.eqb c sep); [discriminate|].
  destruct (split sep s); discriminate.
Qed.

Lemma platforms_text (metadata : PluginMetadata) :
  stringifyAt "  "
    (JArr (map (fun entry => JStr (trim entry)) (split "," (supportedTargets metadata))))
  = "[" ++ nl
    ++ lines (commaSeparated
                (map (fun entry => "    " ++ quoteJSON (trim entry))
                     (split "," (supportedTargets metadata))))
    ++ nl ++ "  ]".
Proof.
  pose proof (split_cons "," (supportedTargets metadata)) as N.
  set (es := split "," (supportedTargets metadata)) in *.
  assert (M : map (fun entry => "    " ++ quoteJSON (trim entry)) es
              = map (fun x => "    " ++ x) (map (fun entry => quoteJSON (trim entry)) es))
    by (now rewrite map_map).
  rewrite M, <- join_commaSeparated
    by (destruct es; [congruence|discriminate]).
  destruct es as [|e es]; [congruence|].
  cbn [map stringifyAt]. rewrite map_map. cbn [stringifyAt append].
  reflexivity.
Qed.

(** The descriptor is its lines. *)
Lemma descriptorJson_text (metadata : PluginMetadata) (moduleName : string) :
  descriptorJson metadata moduleName = lines (descriptorLines metadata moduleName).
Proof.
  unfold descriptorJson, stringify, descriptorObject, descriptorLines.
  remember (JArr (map (fun entry => JStr (trim entry))
                      (split "," (supportedTargets metadata)))) as platforms eqn:EP.
  unfold platformLines.
  pose proof (platforms_text metadata) as PT. rewrite <- EP in PT.
  set (entries := commaSeparated _) in *.
  assert (NE : entries <> []).
  { apply commaSeparated_nonempty. intros H. apply map_eq_nil in H.
    now apply (split_cons "," (supportedTargets metadata)). }
  clearbody entries. clear EP.
  unfold descriptorModules, descriptorPlugins, moduleEntry, push,
    descriptorHeadLines, moduleEntryLines, gameplayTasksLines, noPluginsLine.
  destruct (enableEditorModule metadata), (enableAsyncActions metadata);
    cbn [app].
  all: repeat (rewrite lines_cons
                 by (try discriminate; intros H; apply app_eq_nil in H;
                     destruct H; discriminate)).
  all: rewrite <- app_assoc; rewrite lines_app by (assumption || discriminate).
  all: cbn [stringifyAt map join fst snd].
  all: rewrite ?quoteJSON_phaseName.
  all: repeat match goal with
       | |- context [quoteJSON (String ?c ?s)] =>
           let t := constr:(quoteJSON (String c s)) in
           let v := eval vm_compute in t in
           change t with v
       end.
  all: change (ofNat 3) with "3"; change (ofNat 1) with "1".
  all: cbn [append]; rewrite PT.
  all: unfold q, nl, dq, lines.
  all: cbn [append]; repeat (rewrite append_assoc; cbn [append]).
  all: reflexivity.
Qed.

(** No string is written with a line feed inside its quotes. *)
Lemma noLineFeed_quoteChar (c : ascii) : noLineFeed (quoteChar c) = true.
Proof. destruct c as [[] [] [] [] [] [] [] []]; reflexivity. Qed.

Lemma noLineFeed_app (a b : string) :
  noLineFeed (a ++ b) = noLineFeed a && noLineFeed b.
Proof. apply everyChar_app. Qed.

Lemma noLineFeed_quoteJSON (s : string) : noLineFeed (quoteJSON s) = true.
Proof.
  unfold quoteJSON, q. rewrite !noLineFeed_app.
  assert (B : noLineFeed (quoteBody s) = true).
  { induction s as [|c s IH]; [reflexivity|].
    cbn [quoteBody]. now rewrite noLineFeed_app, noLineFeed_quoteChar, IH. }
  now rewrite B.
Qed.

Lemma split_line (sep : ascii) (a b : string) :
  everyChar (fun c => negb (Ascii.eqb c sep)) a = true ->
  split sep (a ++ String sep b) = a :: split sep b.
Proof.
  induction a as [|x a IH]; intros H.
  - cbn [append split]. now rewrite Ascii.eqb_refl.
  - cbn [everyChar] in H. apply andb_true_iff in H as [Hx Ha].
    apply negb_true_iff in Hx.
    cbn [append split]. rewrite Hx, (IH Ha). reflexivity.
Qed.

(** The lines of a text that was put together from lines. *)
Lemma linesOf_lines (ls : list string) :
  ls <> [] -> forallb noLineFeed ls = true -> linesOf (lines ls) = ls.
Proof.
  unfold linesOf. induction ls as [|l ls IH]; [congruence|]. intros _ H.
  cbn [forallb] in H. apply andb_true_iff in H as [Hl Hls].
  destruct ls as [|l' ls].
  - apply split_none. exact Hl.
  - rewrite lines_cons by discriminate. unfold nl.
    change (String (ascii_of_nat 10) EmptyString ++ lines (l' :: ls))
      with (String "010" (lines (l' :: ls))).
    rewrite (split_line _ _ _ Hl), IH by (discriminate || assumption).
    reflexivity.
Qed.

Lemma noLineFeed_commaSeparated (ls : list string) :
  forallb noLineFeed ls = true -> forallb noLineFeed (commaSeparated ls) = true.
Proof.
  induction ls as [|l ls IH]; [reflexivity|]. intros H.
  cbn [forallb] in H. apply andb_true_iff in H as [Hl Hls].
  destruct ls as [|l' ls]; [cbn [commaSeparated forallb]; now rewrite Hl|].
  rewrite commaSeparated_cons. cbn [forallb].
  rewrite noLineFeed_app, Hl, (IH Hls). reflexivity.
Qed.

Lemma noLineFeed_platforms (es : list string) :
  forallb noLineFeed (map (fun entry => "    " ++ quoteJSON (trim entry)) es) = true.
Proof.
  induction es as [|e es IH]; [reflexivity|].
  cbn [map forallb]. now rewrite noLineFeed_app, noLineFeed_quoteJSON, IH.
Qed.

Lemma noLineFeed_phaseName (p : LoadingPhase) : noLineFeed (phaseName p) = true.
Proof. destruct p; reflexivity. Qed.

Lemma noLineFeed_descriptorLines (metadata : PluginMetadata) (moduleName : string) :
  forallb noLineFeed (descriptorLines metadata moduleName) = true.
Proof.
  unfold descriptorLines, platformLines, descriptorHeadLines, moduleEntryLines,
    gameplayTasksLines, noPluginsLine, q.
  rewrite !forallb_app. cbn [forallb]. rewrite !forallb_app.
  rewrite noLineFeed_commaSeparated by apply noLineFeed_platforms.
  destruct (enableEditorModule metadata), (enableAsyncActions metadata);
    cbn [forallb];
    rewrite ?noLineFeed_app, ?noLineFeed_quoteJSON, ?noLineFeed_phaseName;
    reflexivity.
Qed.

Lemma descriptorLines_nonempty (metadata : PluginMetadata) (moduleName : string) :
  descriptorLines metadata moduleName <> [].
Proof. unfold descriptorLines, descriptorHeadLines. discriminate. Qed.

(** The lines of the descriptor. *)
Lemma descriptorJson_lines (metadata : PluginMetadata) (moduleName : string) :
  linesOf (descriptorJson metadata moduleName) = descriptorLines metadata moduleName.
Proof.
  rewrite descriptorJson_text.
  apply linesOf_lines;
    [apply descriptorLines_nonempty|apply noLineFeed_descriptorLines].
Qed.

(** A line that starts otherwise than every line of a list is not in it. *)
Lemma existsb_prefix (l prefix : string) (ls : list string) :
  startsWith l prefix = false ->
  forallb (fun x => startsWith x prefix) ls = true ->
  existsb (String.eqb l) ls = false.
Proof.
  intros Hl. induction ls as [|x ls IH]; [reflexivity|]. intros H.
  cbn [forallb] in H. apply andb_true_iff in H as [Hx Hls].
  cbn [existsb]. rewrite (IH Hls), orb_false_r.
  destruct (String.eqb l x) eqn:E; [|reflexivity].
  apply String.eqb_eq in E. congruence.
Qed.

Lemma startsWith_commaSeparated (prefix : string) (ls : list string) :
  forallb (fun x => startsWith x prefix) ls = true ->
  forallb (fun x => startsWith x prefix) (commaSeparated ls) = true.
Proof.
  induction ls as [|l ls IH]; [reflexivity|]. intros H.
  cbn [forallb] in H. apply andb_true_iff in H as [Hl Hls].
  destruct ls as [|l' ls]; [cbn [commaSeparated forallb]; now rewrite Hl|].
  rewrite commaSeparated_cons. cbn [forallb]. rewrite (IH Hls), andb_true_r.
  clear - Hl. revert l Hl.
  induction prefix as [|c prefix IHp]; intros l Hl; [destruct l; reflexivity|].
  destruct l as [|d l]; [discriminate Hl|].
  cbn [append startsWith] in *. apply andb_true_iff in Hl as [Hc Hl].
  now rewrite Hc, (IHp l Hl).
Qed.

Lemma startsWith_prefix (p s : string) : startsWith (p ++ s) p = true.
Proof.
  induction p as [|c p IH]; [destruct s; reflexivity|].
  cbn [append startsWith]. now rewrite Ascii.eqb_refl, IH.
Qed.

(** The entries of the platform list start with four blanks and a quote. *)
Lemma platformEntries_start (es : list string) :
  forallb (fun x => startsWith x ("    " ++ dq))
    (commaSeparated (map (fun entry => "    " ++ quoteJSON (trim entry)) es)) = true.
Proof.
  apply startsWith_commaSeparated.
  induction es as [|e es IH]; [reflexivity|].
  cbn [map forallb]. rewrite IH.
  change ("    " ++ quoteJSON (trim e))
    with (("    " ++ dq) ++ (quoteBody (trim e) ++ dq)).
  now rewrite startsWith_prefix.
Qed.

Lemma hasLine_editorType (metadata : PluginMetadata) (moduleName : string) :
  hasLine editorTypeLine (descriptorJson metadata moduleName)
  = enableEditorModule metadata.
Proof.
  unfold hasLine. rewrite descriptorJson_lines.
  unfold descriptorLines, platformLines.
  rewrite !existsb_app. cbn [existsb].
  rewrite !existsb_app.
  pose proof (platformEntries_start (split "," (supportedTargets metadata))) as P.
  set (entries := commaSeparated _) in *.
  rewrite (existsb_prefix editorTypeLine ("    " ++ dq) entries) by (reflexivity || exact P).
  destruct (enableEditorModule metadata), (enableAsyncActions metadata); reflexivity.
Qed.

Lemma hasLine_noPlugins (metadata : PluginMetadata) (moduleName : string) :
  hasLine noPluginsLine (descriptorJson metadata moduleName)
  = negb (enableAsyncActions metadata).
Proof.
  unfold hasLine. rewrite descriptorJson_lines.
  unfold descriptorLines, platformLines.
  rewrite !existsb_app. cbn [existsb].
  rewrite !existsb_app.
  pose proof (platformEntries_start (split "," (supportedTargets metadata))) as P.
  set (entries := commaSeparated _) in *.
  rewrite (existsb_prefix noPluginsLine ("    " ++ dq) entries) by (reflexivity || exact P).
  destruct (enableEditorModule metadata), (enableAsyncActions metadata); reflexivity.
Qed.

Lemma hasLine_pluginEnabled (metadata : PluginMetadata) (moduleName : string) :
  hasLine pluginEnabledLine (descriptorJson metadata moduleName)
  = enableAsyncActions metadata.
Proof.
  unfold hasLine. rewrite descriptorJson_lines.
  unfold descriptorLines, platformLines.
  rewrite !existsb_app. cbn [existsb].
  rewrite !existsb_app.
  pose proof (platformEntries_start (split "," (supportedTargets metadata))) as P.
  set (entries := commaSeparated _) in *.
  rewrite (existsb_prefix pluginEnabledLine ("    " ++ dq) entries)
    by (reflexivity || exact P).
  destruct (enableEditorModule metadata), (enableAsyncActions metadata); reflexivity.
Qed.

(** C4.  The descriptor text is, line by line: the fixed fields; the
    module list, with the entry of the runtime module and after it, exactly
    when the editor flag is set, the entry of the editor module, whose
    "LoadingPhase" is "Default" whatever the phase of the runtime module;
    the plugin list, which is the one entry "GameplayTasks" when async
    actions are enabled and is written "[]" otherwise; the platform list.
    Among the lines of the descriptor, the line of type "Editor" is there
    exactly when the editor flag is set, the line of the empty plugin list
    exactly when async actions are disabled, and the line of an enabled
    plugin exactly when they are enabled.  The same on the object that is
    serialised.  The two async panels are on screen exactly when async
    actions are enabled, and the first panel holds this descriptor. *)
Theorem descriptor_editor_and_async (metadata : PluginMetadata) (moduleName : string)
    (fns : list BlueprintFunction) :
  descriptorJson metadata moduleName
  = lines
      (descriptorHeadLines metadata
       ++ [ "  " ++ q "Modules" ++ ": [" ]
       ++ moduleEntryLines moduleName "Runtime" (phaseName (loadingPhase metadata))
            (enableEditorModule metadata)
       ++ (if enableEditorModule metadata
           then moduleEntryLines (moduleName ++ "Editor") "Editor" "Default" false
           else [])
       ++ [ "  ]," ]
       ++ (if enableAsyncActions metadata then gameplayTasksLines else [noPluginsLine])
       ++ platformLines metadata
       ++ [ "}" ])
  /\ hasLine editorTypeLine (descriptorJson metadata moduleName)
     = enableEditorModule metadata
  /\ hasLine noPluginsLine (descriptorJson metadata moduleName)
     = negb (enableAsyncActions metadata)
  /\ hasLine pluginEnabledLine (descriptorJson metadata moduleName)
     = enableAsyncActions metadata
  /\ field "Modules" (descriptorObject metadata moduleName)
     = Some (JArr (runtimeEntry metadata moduleName
                   :: if enableEditorModule metadata then [editorEntry moduleName] else []))
  /\ stringField "LoadingPhase" (editorEntry moduleName) = Some "Default"
  /\ stringField "Type" (runtimeEntry metadata moduleName) = Some "Runtime"
  /\ field "Plugins" (descriptorObject metadata moduleName)
     = Some (JArr (if enableAsyncActions metadata then [gameplayTasksEntry] else []))
  /\ map title (filter isAsyncPanel (artifacts metadata fns))
     = (if enableAsyncActions metadata
        then ["Async action header"; "Async action source"] else [])
  /\ option_map code (hd_error (artifacts metadata fns))
     = Some (descriptorJson metadata (moduleNameOf metadata)).
Proof.
  split; [apply descriptorJson_text|].
  split; [apply hasLine_editorType|].
  split; [apply hasLine_noPlugins|].
  split; [apply hasLine_pluginEnabled|].
  split; [|split; [|split; [|split; [|split]]]].
  - simpl. unfold descriptorModules, runtimeEntry, editorEntry, push.
    destruct (enableEditorModule metadata); reflexivity.
  - reflexivity.
  - reflexivity.
  - simpl. unfold descriptorPlugins, gameplayTasksEntry.
    destruct (enableAsyncActions metadata); reflexivity.
  - unfold artifacts. rewrite asyncPanels_view, truthy_asyncHeader.
    destruct (enableAsyncActions metadata); reflexivity.
  - reflexivity.
Qed.

(** The descriptor of the initial state, with the async flag off. *)
Example descriptor_without_async :
  let metadata := toggle EnableAsyncActions defaultMetadata in
  field "Plugins" (descriptorObject metadata (moduleNameOf metadata)) = Some (JArr [])
  /\ map title (artifacts metadata defaultFunctions)
     = [ ".uplugin descriptor"; "Runtime module header"; "Runtime module source";
         "Build.cs"; "Blueprint library header"; "Blueprint library source";
         "Editor module header"; "Editor module source" ].
Proof. split; reflexivity. Qed.

(* ------------------------------------------------------------------ *)
(** ** The build script *)

Lemma insertSorted_perm (x : string) (xs : list string) :
  Permutation (x :: xs) (insertSorted x xs).
Proof.
  induction xs as [|y ys IH]; simpl; [apply Permutation_refl|].
  destruct (String.leb x y); [apply Permutation_refl|].
  eapply perm_trans; [apply perm_swap|]. now apply perm_skip.
Qed.

Lemma sort_perm (xs : list string) : Permutation xs (sort xs).
Proof.
  induction xs as [|x xs IH]; simpl; [constructor|].
  eapply perm_trans; [apply perm_skip, IH|]. apply insertSorted_perm.
Qed.

Lemma insertSorted_ordered (x : string) (xs : list string) :
  ordered xs -> ordered (insertSorted x xs).
Proof.
  unfold ordered. induction xs as [|y ys IH]; simpl; intros H.
  - repeat constructor.
  - destruct (String.leb x y) eqn:E.
    + constructor; [assumption|]. constructor. exact E.
    + inversion H as [|? ? Hs Hh]; subst.
      constructor; [now apply IH|].
      assert (Hyx : String.leb y x = true)
        by (destruct (String.leb_total x y); congruence).
      destruct ys as [|z zs]; simpl.
      * constructor. exact Hyx.
      * destruct (String.leb x z); constructor; [exact Hyx|].
        now inversion Hh.
Qed.

Lemma sort_ordered (xs : list string) : ordered (sort xs).
Proof.
  induction xs as [|x xs IH]; simpl; [constructor|].
  now apply insertSorted_ordered.
Qed.

(** The build script is its fixed text around the two rendered lists. *)
Lemma buildScript_layout (metadata : PluginMetadata) (moduleName : string) :
  buildScript metadata moduleName
  = buildScriptHead moduleName
    ++ formatDependency (publicDeps metadata)
    ++ buildScriptMiddle
    ++ formatDependency (privateDeps metadata)
    ++ buildScriptEditorGate.
Proof.
  unfold buildScript, buildScriptHead, buildScriptMiddle, buildScriptEditorGate.
  set (pub := formatDependency (publicDeps metadata)).
  set (priv := formatDependency (privateDeps metadata)).
  unfold lines, q, nl, dq. cbn [join].
  now normalise_text.
Qed.

(** C5.  The public and the private dependency set start from their fixed
    base and grow by the named entries of the enabled features; each set is
    written sorted, one quoted name a line; the build script is its fixed
    text around the two lists, and the editor-only names stand in the block
    under the build-target-editor condition, never in the two sets. *)
Theorem buildScript_dependencies (metadata : PluginMetadata) (moduleName : string) :
  publicDeps metadata
  = (["Core"; "CoreUObject"; "Engine"]
     ++ (if enableBlueprintLibrary metadata then ["Kismet"] else [])
     ++ (if enableAsyncActions metadata then ["GameplayTasks"] else []))%list
  /\ privateDeps metadata
     = (["Slate"; "SlateCore"]
        ++ (if enableBlueprintLibrary metadata then ["UMG"] else [])
        ++ (if enableEditorModule metadata
            then ["UnrealEd"; "LevelSequence"] else []))%list
  /\ (forall deps,
        formatDependency deps
        = join ("," ++ nl) (map (fun dep => "            " ++ q dep) (sort deps))
        /\ ordered (sort deps)
        /\ Permutation deps (sort deps))
  /\ buildScript metadata moduleName
     = buildScriptHead moduleName
       ++ formatDependency (publicDeps metadata)
       ++ buildScriptMiddle
       ++ formatDependency (privateDeps metadata)
       ++ buildScriptEditorGate
  /\ ~ In "AssetTools" (publicDeps metadata ++ privateDeps metadata)
  /\ ~ In "EditorFramework" (publicDeps metadata ++ privateDeps metadata).
Proof.
  split; [|split; [|split; [|split; [|split]]]].
  - unfold publicDeps.
    destruct (enableBlueprintLibrary metadata), (enableAsyncActions metadata);
      reflexivity.
  - unfold privateDeps.
    destruct (enableBlueprintLibrary metadata), (enableEditorModule metadata);
      reflexivity.
  - intros deps. split; [reflexivity|]. split; [apply sort_ordered|apply sort_perm].
  - apply buildScript_layout.
  - unfold publicDeps, privateDeps.
    destruct (enableBlueprintLibrary metadata), (enableAsyncActions metadata),
      (enableEditorModule metadata); simpl; intuition discriminate.
  - unfold publicDeps, privateDeps.
    destruct (enableBlueprintLibrary metadata), (enableAsyncActions metadata),
      (enableEditorModule metadata); simpl; intuition discriminate.
Qed.

(** The two lists of the initial state, as written. *)
Example default_dependencies :
  sort (publicDeps defaultMetadata)
  = ["Core"; "CoreUObject"; "Engine"; "GameplayTasks"; "Kismet"]
  /\ sort (privateDeps defaultMetadata)
     = ["LevelSequence"; "Slate"; "SlateCore"; "UMG"; "UnrealEd"].
Proof. split; reflexivity. Qed.

(* ------------------------------------------------------------------ *)
(** ** Memoisation: a cell never serves a stale value *)

#[export] Instance ObjectIsSound_string : ObjectIsSound string.
Proof. intros a b H. now apply String.eqb_eq. Qed.

#[export] Instance ObjectIsSound_bool : ObjectIsSound bool.
Proof. intros a b H. now apply Bool.eqb_prop. Qed.

#[export] Instance ObjectIsSound_phase : ObjectIsSound LoadingPhase.
Proof. intros [] [] H; solve [reflexivity | discriminate H]. Qed.

#[export] Instance ObjectIsSound_pair {A B : Type} `{ObjectIsSound A} `{ObjectIsSound B} :
  ObjectIsSound (A * B).
Proof.
  intros [a b] [a' b'] E. unfold same, ObjectIs_pair in E. simpl in E.
  apply andb_true_iff in E as [Ea Eb].
  apply same_eq in Ea, Eb. congruence.
Qed.

(** A call of [useMemo] gives what its function gives now, as soon as a hit
    can only come from equal dependencies. *)
Lemma useHook_sound {E D V : Type} `{ObjectIs D} (h : Hook E D V)
    (cell : Cell D V) (scope : E) :
  Sound h cell -> Covers h ->
  (forall d v, cell = Some (d, v) -> same d (depsOf h scope) = true ->
               d = depsOf h scope) ->
  snd (useHook h cell scope) = create h scope
  /\ Sound h (fst (useHook h cell scope))
  /\ (fst (useHook h cell scope) = cell
      \/ fst (useHook h cell scope) = Some (depsOf h scope, create h scope)).
Proof.
  intros Hs Hc Hhit. unfold useHook, useMemo.
  destruct cell as [[d v]|].
  - destruct (same d (depsOf h scope)) eqn:Hit; simpl.
    + destruct (Hs d v eq_refl) as (scope' & Hd & Hv).
      pose proof (Hhit d v eq_refl Hit) as Hdeps.
      split; [|split; [assumption|now left]].
      rewrite <- Hv. apply Hc. congruence.
    + split; [reflexivity|]. split; [|now right].
      intros d' v' H'. injection H' as <- <-. now exists scope.
  - simpl. split; [reflexivity|]. split; [|now right].
    intros d' v' H'. injection H' as <- <-. now exists scope.
Qed.

(** The same for dependencies that are all values. *)
Lemma useHook_values {E D V : Type} `{ObjectIsSound D} (h : Hook E D V)
    (cell : Cell D V) (scope : E) :
  Sound h cell -> Covers h ->
  snd (useHook h cell scope) = create h scope
  /\ Sound h (fst (useHook h cell scope)).
Proof.
  intros Hs Hc.
  destruct (useHook_sound h cell scope Hs Hc) as (Hv & Hs' & _); [|now split].
  intros d v _ Hit. now apply same_eq.
Qed.

(** The same for dependencies that end with the array of normalised
    endpoints, which the normalised cell holds. *)
Lemma useHook_array {E D0 V : Type} `{ObjectIsSound D0}
    (h : Hook E (D0 * Ref (list NormalizedFunction)) V)
    (cell : Cell (D0 * Ref (list NormalizedFunction)) V) (scope : E) (next : nat)
    (normalized : Cell (Ref (list BlueprintFunction) * string)
                       (Ref (list NormalizedFunction))) :
  Sound h cell -> Covers h ->
  (forall d v, cell = Some (d, v) -> Known next normalized (snd d)) ->
  (exists d1, normalized = Some (d1, snd (depsOf h scope))) ->
  ident (snd (depsOf h scope)) < next ->
  snd (useHook h cell scope) = create h scope
  /\ Sound h (fst (useHook h cell scope))
  /\ (forall d v, fst (useHook h cell scope) = Some (d, v) ->
                  Known next normalized (snd d)).
Proof.
  intros Hs Hc Hk (d1 & Hn) Hlt.
  destruct (useHook_sound h cell scope Hs Hc) as (Hv & Hs' & Hcell).
  - intros [d0 r] v Hcv Hit.
    destruct (depsOf h scope) as [d0' r'] eqn:Ed. simpl in Hn.
    unfold same, ObjectIs_pair in Hit. simpl in Hit.
    apply andb_true_iff in Hit as [E0 Er].
    apply same_eq in E0. apply Nat.eqb_eq in Er.
    destruct (Hk _ _ Hcv) as (_ & Hsame). simpl in Hsame.
    now rewrite (Hsame _ _ Hn Er), E0.
  - split; [assumption|]. split; [assumption|].
    intros d v Hcv. destruct Hcell as [Hcell|Hcell]; rewrite Hcell in Hcv.
    + now apply (Hk d v).
    + injection Hcv as <- <-. split; [assumption|].
      intros d v Hn'. rewrite Hn in Hn'. now injection Hn' as _ <-.
Qed.

(** The dependency arrays of the component name all that is read. *)
Ltac covers :=
  let H := fresh in
  intros ? ? H; repeat match goal with s : (_ * _)%type |- _ => destruct s end;
  repeat match goal with m : PluginMetadata |- _ => destruct m end;
  cbn in H; inversion H; subst; reflexivity.

Lemma covers_moduleName : Covers moduleNameHook.
Proof. covers. Qed.
Lemma covers_moduleApiMacro : Covers moduleApiMacroHook.
Proof. intros ? ? H. cbn in *. now subst. Qed.
Lemma covers_logCategory : Covers logCategoryHook.
Proof. intros ? ? H. cbn in *. now subst. Qed.
Lemma covers_moduleClass : Covers moduleClassHook.
Proof. intros ? ? H. cbn in *. now subst. Qed.
Lemma covers_blueprintClass : Covers blueprintClassHook.
Proof. intros ? ? H. cbn in *. now subst. Qed.
Lemma covers_asyncActionClass : Covers asyncActionClassHook.
Proof. intros ? ? H. cbn in *. now subst. Qed.
Lemma covers_descriptorJson : Covers descriptorJsonHook.
Proof. covers. Qed.
Lemma covers_moduleHeader : Covers moduleHeaderHook.
Proof. covers. Qed.
Lemma covers_moduleSource : Covers moduleSourceHook.
Proof. covers. Qed.
Lemma covers_buildScript : Covers buildScriptHook.
Proof. covers. Qed.
Lemma covers_blueprintHeader : Covers blueprintHeaderHook.
Proof. covers. Qed.
Lemma covers_blueprintSource : Covers blueprintSourceHook.
Proof. covers. Qed.
Lemma covers_editorHeader : Covers editorHeaderHook.
Proof. covers. Qed.
Lemma covers_editorSource : Covers editorSourceHook.
Proof. covers. Qed.
Lemma covers_asyncHeader : Covers asyncHeaderHook.
Proof. covers. Qed.
Lemma covers_asyncSource : Covers asyncSourceHook.
Proof. covers. Qed.

Lemma Known_later (next : nat)
    (normalized : Cell (Ref (list BlueprintFunction) * string)
                       (Ref (list NormalizedFunction)))
    (r : Ref (list NormalizedFunction)) :
  Known next normalized r -> Known (S next) normalized r.
Proof. intros [Hlt Hs]. split; [lia|assumption]. Qed.

(** The first hook.  Whether the cell is hit or not, the array it gives
    holds the normal forms of the endpoints of the state. *)
Lemma normalized_step (i : Instance) :
  Coherent i ->
  forall c1 normalized,
    useHook normalizedHook (cNormalized (memo i))
      (nextIdent i, blueprintFunctions (state i), metadata (state i))
    = (c1, normalized) ->
    target normalized
    = normalizeAll (friendlyName (metadata (state i)))
        (target (blueprintFunctions (state i)))
    /\ ident normalized < S (nextIdent i)
    /\ (exists d, c1 = Some (d, normalized))
    /\ (forall fr f v, c1 = Some ((fr, f), v) ->
          target v = normalizeAll f (target fr)
          /\ ident v < S (nextIdent i)
          /\ ident fr < S (nextIdent i)
          /\ (ident fr = ident (blueprintFunctions (state i)) ->
              fr = blueprintFunctions (state i)))
    /\ (forall r, Known (nextIdent i) (cNormalized (memo i)) r ->
                  Known (S (nextIdent i)) c1 r).
Proof.
  intros Hco c1 normalized Hu.
  pose proof (co_state i Hco) as Hst.
  pose proof (co_normalized i Hco) as Hn.
  unfold useHook, useMemo in Hu. cbn [depsOf create normalizedHook] in Hu.
  destruct (cNormalized (memo i)) as [[[fr f] v]|] eqn:Ec.
  - destruct (Hn fr f v eq_refl) as (Ht & Hv & Hfr & Hsame).
    destruct (same (fr, f) (blueprintFunctions (state i), friendlyName (metadata (state i))))
      eqn:Hit.
    + injection Hu as <- <-.
      unfold same, ObjectIs_pair in Hit. simpl in Hit.
      apply andb_true_iff in Hit as [Er Ef].
      apply Nat.eqb_eq in Er. apply String.eqb_eq in Ef.
      rewrite <- (Hsame Er), <- Ef.
      split; [assumption|]. split; [lia|]. split; [now eexists|]. split.
      * intros fr' f' v' H'. injection H' as <- <- <-.
        repeat split; try lia; assumption.
      * intros r. apply Known_later.
    + injection Hu as <- <-. simpl.
      split; [reflexivity|]. split; [lia|]. split; [now eexists|]. split.
      * intros fr' f' v' H'. injection H' as <- <- <-. simpl.
        repeat split; lia.
      * intros r [Hlt _]. split; [lia|].
        intros d v' H' Hid. injection H' as _ <-. simpl in Hid. lia.
  - injection Hu as <- <-. simpl.
    split; [reflexivity|]. split; [lia|]. split; [now eexists|]. split.
    + intros fr' f' v' H'. injection H' as <- <- <-. simpl.
      repeat split; lia.
    + intros r [Hlt _]. split; [lia|].
      intros d v' H' Hid. injection H' as _ <-. simpl in Hid. lia.
Qed.

(** A handler leaves the array of endpoints alone or installs the fresh
    one. *)
Lemma handle_functions (fresh : nat) (e : Event) (s : State) :
  blueprintFunctions (handle fresh e s) = blueprintFunctions s
  \/ ident (blueprintFunctions (handle fresh e s)) = fresh.
Proof.
  destruct e; simpl; auto.
  unfold handleAddBlueprintFunction.
  destruct (negb (truthy (trim (newFunctionName s)))); simpl; auto.
Qed.

Lemma mount_coherent : Coherent mount.
Proof.
  constructor; simpl; try (intros ? ? H; discriminate H); try lia.
  intros ? ? ? H. discriminate H.
Qed.

Lemma dispatch_coherent (e : Event) (i : Instance) :
  Coherent i -> Coherent (dispatch e i).
Proof.
  intros Hco. pose proof (co_state i Hco) as Hst.
  constructor; simpl; try (now destruct Hco).
  - destruct (handle_functions (nextIdent i) e (state i)) as [H|H]; rewrite H; lia.
  - intros fr f v Hc.
    destruct (co_normalized i Hco fr f v Hc) as (Ht & Hv & Hfr & Hsame).
    repeat split; try lia; try assumption.
    destruct (handle_functions (nextIdent i) e (state i)) as [H|H].
    + now rewrite H.
    + intros Hid. rewrite H in Hid. lia.
  - intros d v Hc. apply Known_later. now apply (co_headerRef i Hco d v).
  - intros d v Hc. apply Known_later. now apply (co_sourceRef i Hco d v).
Qed.

(** One hook of the render whose dependencies are all values. *)
Ltac values_hook h Hsound Hcovers :=
  match goal with
  | |- context [useHook h ?c ?s] =>
      let Hv := fresh "Hv" in
      let Hs := fresh "Hs" in
      destruct (useHook_values h c s Hsound Hcovers) as (Hv & Hs);
      destruct (useHook h c s) as [? ?];
      cbn [fst snd] in Hv, Hs; subst
  end.

(** One hook of the render that depends on the array of normal forms. *)
Ltac array_hook h Hsound Hcovers Hknown Hcell Hlt :=
  match goal with
  | |- context [useHook h ?c ?s] =>
      let Hv := fresh "Hv" in
      let Hs := fresh "Hs" in
      let Hk := fresh "Hk" in
      destruct (useHook_array h c s _ _ Hsound Hcovers Hknown Hcell Hlt)
        as (Hv & Hs & Hk);
      destruct (useHook h c s) as [? ?];
      cbn [fst snd] in Hv, Hs, Hk; subst
  end.

(** A render keeps the cells coherent, and what it puts on screen is what
    the generators give on the state of the moment. *)
Lemma render_coherent (i : Instance) :
  Coherent i ->
  Coherent (fst (render i))
  /\ snd (render i)
     = artifacts (metadata (state i)) (target (blueprintFunctions (state i))).
Proof.
  intros Hco. unfold render, renderBody.
  pose proof (normalized_step i Hco) as Hn.
  destruct (useHook normalizedHook _ _) as [c1 normalized].
  destruct (Hn c1 normalized eq_refl) as (Ht & Hlt & Hcell & Hinv & Hkn).
  clear Hn.
  assert (Hkh : forall d v, cBlueprintHeader (memo i) = Some (d, v) ->
                  Known (S (nextIdent i)) c1 (snd d))
    by (intros d v Hc; apply Hkn; now apply (co_headerRef i Hco d v)).
  assert (Hks : forall d v, cBlueprintSource (memo i) = Some (d, v) ->
                  Known (S (nextIdent i)) c1 (snd d))
    by (intros d v Hc; apply Hkn; now apply (co_sourceRef i Hco d v)).
  values_hook moduleNameHook (co_moduleName i Hco) covers_moduleName.
  values_hook moduleApiMacroHook (co_moduleApiMacro i Hco) covers_moduleApiMacro.
  values_hook logCategoryHook (co_logCategory i Hco) covers_logCategory.
  values_hook moduleClassHook (co_moduleClass i Hco) covers_moduleClass.
  values_hook blueprintClassHook (co_blueprintClass i Hco) covers_blueprintClass.
  values_hook asyncActionClassHook (co_asyncActionClass i Hco) covers_asyncActionClass.
  values_hook descriptorJsonHook (co_descriptorJson i Hco) covers_descriptorJson.
  values_hook moduleHeaderHook (co_moduleHeader i Hco) covers_moduleHeader.
  values_hook moduleSourceHook (co_moduleSource i Hco) covers_moduleSource.
  values_hook buildScriptHook (co_buildScript i Hco) covers_buildScript.
  array_hook blueprintHeaderHook (co_blueprintHeader i Hco) covers_blueprintHeader
    Hkh Hcell Hlt.
  array_hook blueprintSourceHook (co_blueprintSource i Hco) covers_blueprintSource
    Hks Hcell Hlt.
  values_hook editorHeaderHook (co_editorHeader i Hco) covers_editorHeader.
  values_hook editorSourceHook (co_editorSource i Hco) covers_editorSource.
  values_hook asyncHeaderHook (co_asyncHeader i Hco) covers_asyncHeader.
  values_hook asyncSourceHook (co_asyncSource i Hco) covers_asyncSource.
  cbn [fst snd]. split.
  - pose proof (co_state i Hco) as Hst.
    constructor; cbn [state memo nextIdent cNormalized cModuleName cModuleApiMacro
      cLogCategory cModuleClass cBlueprintClass cAsyncActionClass cDescriptorJson
      cModuleHeader cModuleSource cBuildScript cBlueprintHeader cBlueprintSource
      cEditorHeader cEditorSource cAsyncHeader cAsyncSource]; try assumption.
    lia.
  - unfold artifacts.
    cbn [create blueprintHeaderHook blueprintSourceHook].
    rewrite Ht. reflexivity.
Qed.

Lemma run_snoc (steps : list Step) (st : Step) :
  run (steps ++ [st]) = step (run steps) st.
Proof. unfold run. now rewrite fold_left_app. Qed.

(** Every instance a history leads to is coherent. *)
Lemma run_coherent (steps : list Step) : Coherent (run steps).
Proof.
  induction steps as [|st steps IH] using rev_ind; [exact mount_coherent|].
  rewrite run_snoc. destruct st; simpl.
  - now apply dispatch_coherent.
  - now apply render_coherent.
Qed.

(** After any history, the panels on screen are the artifacts of the
    metadata and the endpoints of the moment, computed afresh. *)
Lemma screen_artifacts (steps : list Step) :
  screen steps
  = artifacts (metadata (state (run steps)))
      (target (blueprintFunctions (state (run steps)))).
Proof. apply render_coherent, run_coherent. Qed.

(** C2.  The artifacts on screen are a function of the metadata and the
    endpoint list alone: two histories of edits and renders that end with
    the same metadata and the same endpoints show the same panels, equal
    in title, path, language and text, and these are the artifacts the
    generators give when run afresh. *)
Theorem artifacts_deterministic (steps1 steps2 : list Step) :
  metadata (state (run steps1)) = metadata (state (run steps2)) ->
  target (blueprintFunctions (state (run steps1)))
  = target (blueprintFunctions (state (run steps2))) ->
  screen steps1 = screen steps2
  /\ screen steps1
     = artifacts (metadata (state (run steps1)))
         (target (blueprintFunctions (state (run steps1)))).
Proof.
  intros Hm Hf. rewrite !screen_artifacts, Hm, Hf. split; reflexivity.
Qed.

Lemma artifacts_deterministic_witness :
  metadata (state (run toggledTwice)) = metadata (state (run []))
  /\ screen toggledTwice = screen [].
Proof.
  split; [reflexivity|].
  exact (proj1 (artifacts_deterministic toggledTwice [] eq_refl eq_refl)).
Defined.

(* ------------------------------------------------------------------ *)
(** ** The endpoints the component itself stores *)

Lemma filterChars_all (p : ascii -> bool) (s : string) :
  everyChar p s = true -> filterChars p s = s.
Proof.
  induction s as [|c s IH]; simpl; [reflexivity|].
  intros H. apply andb_true_iff in H as [Hc Hs]. now rewrite Hc, IH.
Qed.

Lemma identifier_start_no_digit (c : ascii) :
  isLetter c || isUnderscore c = true -> isDigit c = false.
Proof. destruct c as [[] [] [] [] [] [] [] []]; intros H; try discriminate H; reflexivity. Qed.

(** Sanitising a sanitised name changes nothing. *)
Lemma sanitiseIdentifier_idem (value : string) :
  sanitiseIdentifier (sanitiseIdentifier value) = sanitiseIdentifier value.
Proof.
  pose proof (sanitiseIdentifier_chars value) as Hw.
  pose proof (sanitiseIdentifier_start value) as Hs.
  set (y := sanitiseIdentifier value) in *.
  unfold sanitiseIdentifier at 1. rewrite (filterChars_all _ _ Hw).
  destruct y as [|c rest]; [reflexivity|].
  simpl in Hs. simpl. rewrite Hs. simpl.
  now rewrite (identifier_start_no_digit c Hs).
Qed.

Lemma parameterOfPair_stored (nameType : string * string) :
  sanitiseIdentifier (pname (parameterOfPair nameType)) = pname (parameterOfPair nameType).
Proof.
  unfold parameterOfPair, orElse. simpl.
  destruct (truthy (sanitiseIdentifier (fst nameType))) eqn:E.
  - apply sanitiseIdentifier_idem.
  - reflexivity.
Qed.

Lemma removeAt_incl {A : Type} (index : nat) (xs : list A) (x : A) :
  In x (removeAt index xs) -> In x xs.
Proof.
  revert index. induction xs as [|y ys IH]; intros [|index]; simpl; auto.
  intros [H|H]; eauto.
Qed.

Lemma handle_storedNames (fresh : nat) (e : Event) (s : State) :
  storedNames (target (blueprintFunctions s)) ->
  storedNames (target (blueprintFunctions (handle fresh e s))).
Proof.
  intros Hs. destruct e; simpl; try assumption.
  - unfold handleAddBlueprintFunction.
    destruct (negb (truthy (trim (newFunctionName s)))); simpl; [assumption|].
    intros fn p Hfn Hp. unfold push in Hfn. apply in_app_iff in Hfn as [Hfn|[<-|[]]].
    + now apply (Hs fn p).
    + simpl in Hp. rewrite parseParameterDraft_wellFormed in Hp.
      apply in_map_iff in Hp as (nameType & <- & _).
      apply parameterOfPair_stored.
  - intros fn p Hfn Hp. apply removeAt_incl in Hfn. now apply (Hs fn p).
Qed.

Lemma render_state (i : Instance) : state (fst (render i)) = state i.
Proof.
  unfold render. destruct (renderBody (nextIdent i) (state i) (memo i)). reflexivity.
Qed.

(** The endpoints of a mounted component hold sanitised parameter names
    only: the handler sanitises what it stores. *)
Lemma run_storedNames (steps : list Step) :
  storedNames (target (blueprintFunctions (state (run steps)))).
Proof.
  induction steps as [|st steps IH] using rev_ind.
  - intros fn p Hfn Hp. simpl in Hfn.
    repeat (destruct Hfn as [<-|Hfn]; [simpl in Hp; intuition (subst; reflexivity)|]).
    destruct Hfn.
  - rewrite run_snoc. destruct st; simpl.
    + now apply handle_storedNames.
    + now rewrite render_state.
Qed.

(** On such endpoints a parameter sanitises to the context name exactly
    when it is named so: there the test of the normaliser is the test on the
    names as stored. *)
Lemma stored_worldContext (ps : list BlueprintParameter) :
  (forall p, In p ps -> sanitiseIdentifier (pname p) = pname p) ->
  sanitisesToWorldContext ps = namesWorldContext ps.
Proof.
  intros H. unfold sanitisesToWorldContext, namesWorldContext.
  induction ps as [|p ps IH]; simpl; [reflexivity|].
  rewrite (H p (or_introl eq_refl)), IH; [reflexivity|].
  intros q Hq. apply H. now right.
Qed.

Lemma run_worldContext (steps : list Step) (fn : BlueprintFunction) :
  In fn (target (blueprintFunctions (state (run steps)))) ->
  sanitisesToWorldContext (fparameters fn) = namesWorldContext (fparameters fn).
Proof.
  intros Hfn. apply stored_worldContext.
  intros p Hp. now apply (run_storedNames steps fn p).
Qed.

(* ================================================================== *)
(** * Further properties of the identifier utilities *)
(* ================================================================== *)

Lemma join_empty_cons (x : string) (rest : list string) :
  join EmptyString (x :: rest) = x ++ join EmptyString rest.
Proof. destruct rest; simpl; [now rewrite append_empty_r|reflexivity]. Qed.

Lemma join_filterBoolean (xs : list string) :
  join EmptyString (filterBoolean xs) = join EmptyString xs.
Proof.
  induction xs as [|x xs IH]; [reflexivity|].
  unfold filterBoolean in *. cbn [filter].
  destruct x as [|c x]; cbn [truthy].
  - now rewrite join_empty_cons, IH.
  - now rewrite !join_empty_cons, IH.
Qed.

(** The pieces between the spaces, after runs of other characters became
    one space: each holds letters and digits only, and together they are
    the letters and digits of the text. *)
Lemma pieces_alnum (b : bool) (s : string) :
  Forall (fun piece => everyChar isAlnum piece = true)
    (split " " (replaceRuns (fun c => negb (isAlnum c)) " " b s)).
Proof.
  revert b. induction s as [|c s IH]; intros b; cbn [replaceRuns].
  - repeat constructor.
  - destruct (isAlnum c) eqn:Ec; cbn [negb].
    + cbn [split]. pose proof (isAlnum_not_space c Ec) as Hs.
      apply negb_true_iff in Hs. rewrite Hs.
      specialize (IH false).
      destruct (split " " _) as [|h t].
      * repeat constructor. simpl. now rewrite Ec.
      * inversion IH; subst. constructor; [|assumption]. simpl. now rewrite Ec.
    + destruct b; [apply IH|].
      change (" " ++ ?x) with (String " " x). cbn [split Ascii.eqb Bool.eqb].
      constructor; [reflexivity|apply IH].
Qed.

Lemma pieces_join (b : bool) (s : string) :
  join EmptyString (split " " (replaceRuns (fun c => negb (isAlnum c)) " " b s))
  = filterChars isAlnum s.
Proof.
  revert b. induction s as [|c s IH]; intros b; cbn [replaceRuns filterChars].
  - reflexivity.
  - destruct (isAlnum c) eqn:Ec; cbn [negb].
    + cbn [split]. pose proof (isAlnum_not_space c Ec) as Hs.
      apply negb_true_iff in Hs. rewrite Hs.
      specialize (IH false).
      destruct (split " " _) as [|h t].
      * simpl in IH. now rewrite <- IH.
      * rewrite join_empty_cons in *. simpl. now rewrite IH.
    + destruct b; [apply IH|].
      change (" " ++ ?x) with (String " " x). cbn [split Ascii.eqb Bool.eqb].
      rewrite join_empty_cons. apply IH.
Qed.

Lemma capitalise_cons (c : ascii) (rest : string) :
  capitalise (String c rest) = String (upperChar c) rest.
Proof. reflexivity. Qed.

Lemma everyChar_join_capitalise (segments : list string) :
  Forall (fun piece => everyChar isAlnum piece = true) segments ->
  everyChar isAlnum (join EmptyString (map capitalise segments)) = true.
Proof.
  induction 1 as [|x xs Hx Hxs IH]; [reflexivity|].
  cbn [map]. rewrite join_empty_cons, everyChar_app, IH, andb_true_r.
  now apply capitalise_alnum.
Qed.

Lemma Forall_filterBoolean (P : string -> Prop) (xs : list string) :
  Forall P xs -> Forall P (filterBoolean xs).
Proof.
  unfold filterBoolean. induction 1 as [|x xs Hx Hxs IH]; simpl; [constructor|].
  destruct (truthy x); [now constructor|assumption].
Qed.

Lemma upperChar_not_lower (c : ascii) : isLower (upperChar c) = false.
Proof. destruct c as [[] [] [] [] [] [] [] []]; reflexivity. Qed.

Lemma toPascalCase_chars (value : string) :
  everyChar isAlnum (toPascalCase value) = true.
Proof.
  unfold toPascalCase.
  apply everyChar_join_capitalise, Forall_filterBoolean, pieces_alnum.
Qed.

(** A text built from capitalised, non-empty segments is its own
    capitalisation. *)
Lemma capitalise_join (segments : list string) :
  Forall (fun piece => truthy piece = true) segments ->
  capitalise (join EmptyString (map capitalise segments))
  = join EmptyString (map capitalise segments)
  /\ startsOutside isLower (join EmptyString (map capitalise segments)) = true.
Proof.
  intros H. destruct H as [|x xs Hx Hxs]; [split; reflexivity|].
  cbn [map]. rewrite join_empty_cons.
  destruct x as [|c x]; [discriminate Hx|].
  rewrite capitalise_cons. cbn [append]. rewrite capitalise_cons, upperChar_idem.
  split; [reflexivity|]. simpl. now rewrite upperChar_not_lower.
Qed.

Lemma filterBoolean_truthy (xs : list string) :
  Forall (fun piece => truthy piece = true) (filterBoolean xs).
Proof.
  unfold filterBoolean. induction xs as [|x xs IH]; simpl; [constructor|].
  destruct (truthy x) eqn:E; [now constructor|assumption].
Qed.

(** X1.  Whatever the input, [toPascalCase] gives letters and digits only,
    and its first character is not a small letter. *)
Theorem toPascalCase_output (value : string) :
  everyChar isAlnum (toPascalCase value) = true
  /\ startsOutside isLower (toPascalCase value) = true.
Proof.
  split; [apply toPascalCase_chars|].
  unfold toPascalCase. apply capitalise_join, filterBoolean_truthy.
Qed.

(** X2.  [toPascalCase] is idempotent on every input. *)
Theorem toPascalCase_idempotent_all (value : string) :
  toPascalCase (toPascalCase value) = toPascalCase value.
Proof.
  rewrite (toPascalCase_alnum _ (toPascalCase_chars value)).
  unfold toPascalCase. apply capitalise_join, filterBoolean_truthy.
Qed.

Lemma truthy_capitalise (s : string) : truthy (capitalise s) = truthy s.
Proof. destruct s; reflexivity. Qed.

Lemma truthy_app (a b : string) : truthy (a ++ b) = truthy a || truthy b.
Proof. destruct a; reflexivity. Qed.

Lemma truthy_join_capitalise (xs : list string) :
  truthy (join EmptyString (map capitalise xs)) = truthy (join EmptyString xs).
Proof.
  induction xs as [|x xs IH]; [reflexivity|].
  cbn [map]. now rewrite !join_empty_cons, !truthy_app, truthy_capitalise, IH.
Qed.

Lemma truthy_filterChars (p : ascii -> bool) (s : string) :
  truthy (filterChars p s) = negb (everyChar (fun c => negb (p c)) s).
Proof.
  induction s as [|c s IH]; [reflexivity|].
  simpl. destruct (p c); simpl; [reflexivity|exact IH].
Qed.

(** X3.  [toPascalCase] gives the empty string exactly on the inputs
    without a letter or digit. *)
Theorem toPascalCase_empty (value : string) :
  truthy (toPascalCase value)
  = negb (everyChar (fun c => negb (isAlnum c)) value).
Proof.
  unfold toPascalCase.
  now rewrite truthy_join_capitalise, join_filterBoolean, pieces_join, truthy_filterChars.
Qed.

(* ------------------------------------------------------------------ *)
(** ** [toApiMacro] *)

Lemma everyChar_mapChars (p : ascii -> bool) (f : ascii -> ascii) (s : string) :
  (forall c, p (f c) = true) -> everyChar p (mapChars f s) = true.
Proof. intros H. induction s as [|c s IH]; simpl; [reflexivity|]. now rewrite H, IH. Qed.

Lemma splitCamel_cons (a b : ascii) (s : string) :
  splitCamel (String a (String b s))
  = if (isLower a || isDigit a) && isUpper b
    then String a (String "_" (String b (splitCamel s)))
    else String a (splitCamel (String b s)).
Proof. reflexivity. Qed.

Lemma everyChar_splitCamel (s : string) :
  everyChar isWord s = true -> everyChar isWord (splitCamel s) = true.
Proof.
  remember (String.length s) as n eqn:Hn. revert s Hn.
  induction n as [n IH] using lt_wf_ind. intros s Hn H.
  destruct s as [|a [|b s]]; [reflexivity|exact H|].
  rewrite splitCamel_cons. simpl in H.
  apply andb_true_iff in H as [Ha H]. apply andb_true_iff in H as [Hb Hs].
  destruct ((isLower a || isDigit a) && isUpper b).
  - cbn [everyChar]. rewrite Ha, Hb. cbn [andb]. change (isWord "_") with true. cbn [andb].
    apply (IH (String.length s)); [simpl in Hn; lia|reflexivity|assumption].
  - cbn [everyChar]. rewrite Ha. cbn [andb].
    apply (IH (String.length (String b s))); [simpl in *; lia|reflexivity|].
    cbn [everyChar]. now rewrite Hb, Hs.
Qed.

Lemma everyChar_replaceRuns (p w : ascii -> bool) (r : string) (b : bool) (s : string) :
  everyChar w r = true -> everyChar w s = true ->
  everyChar w (replaceRuns p r b s) = true.
Proof.
  intros Hr. revert b. induction s as [|c s IH]; intros b H; [reflexivity|].
  simpl in H. apply andb_true_iff in H as [Hc Hs]. cbn [replaceRuns].
  destruct (p c).
  - destruct b; [now apply IH|]. rewrite everyChar_app, Hr. now apply IH.
  - simpl. rewrite Hc. now apply IH.
Qed.

Lemma noAdjacent_cons (p : ascii -> bool) (a b : ascii) (s : string) :
  noAdjacent p (String a (String b s))
  = negb (p a && p b) && noAdjacent p (String b s).
Proof. reflexivity. Qed.

Lemma endsOutside_cons (p : ascii -> bool) (a b : ascii) (s : string) :
  endsOutside p (String a (String b s)) = endsOutside p (String b s).
Proof. reflexivity. Qed.

(** After the runs of underscores became one underscore, no two
    underscores stand side by side; after a run, the text goes on with
    another character. *)
Lemma replaceRuns_underscores (b : bool) (s : string) :
  noAdjacent isUnderscore (replaceRuns isUnderscore "_" b s) = true
  /\ (b = true -> startsOutside isUnderscore (replaceRuns isUnderscore "_" b s) = true).
Proof.
  revert b. induction s as [|c s IH]; intros b; [split; reflexivity|].
  cbn [replaceRuns]. destruct (isUnderscore c) eqn:Ec.
  - destruct (IH true) as [Hn Hs]. specialize (Hs eq_refl).
    destruct b; [split; [assumption|now intros _]|].
    split; [|discriminate].
    change ("_" ++ ?x) with (String "_" x).
    destruct (replaceRuns isUnderscore "_" true s) as [|d t] eqn:Er; [reflexivity|].
    rewrite noAdjacent_cons. simpl in Hs. apply negb_true_iff in Hs. rewrite Hs.
    rewrite andb_false_r. exact Hn.
  - destruct (IH false) as [Hn _].
    split; [|intros _; simpl; now rewrite Ec].
    destruct (replaceRuns isUnderscore "_" false s) as [|d t] eqn:Er; [reflexivity|].
    rewrite noAdjacent_cons, Ec. exact Hn.
Qed.

Lemma stripLast_cons (c d : ascii) (s : string) :
  stripLast (String c (String d s)) = String c (stripLast (String d s)).
Proof. reflexivity. Qed.

Lemma stripLast_head (d : ascii) (s : string) :
  stripLast (String d s) = EmptyString /\ s = EmptyString /\ isUnderscore d = true
  \/ exists t, stripLast (String d s) = String d t.
Proof.
  destruct s as [|e s].
  - simpl. destruct (isUnderscore d); [now left|right; now eexists].
  - right. rewrite stripLast_cons. now eexists.
Qed.

(** Taking one underscore off the end. *)
Lemma stripLast_spec (w : ascii -> bool) (s : string) :
  noAdjacent isUnderscore s = true ->
  everyChar w s = true ->
  noAdjacent isUnderscore (stripLast s) = true
  /\ endsOutside isUnderscore (stripLast s) = true
  /\ everyChar w (stripLast s) = true
  /\ (startsOutside isUnderscore s = true ->
      startsOutside isUnderscore (stripLast s) = true).
Proof.
  induction s as [|c s IH]; [intros; repeat split; reflexivity|].
  destruct s as [|d s].
  - intros _ Hw. simpl. destruct (isUnderscore c) eqn:Ec; simpl.
    + repeat split; auto.
    + rewrite Ec. simpl in Hw. rewrite Hw. repeat split; auto.
  - intros Hn Hw. rewrite stripLast_cons.
    rewrite noAdjacent_cons in Hn. apply andb_true_iff in Hn as [Hcd Hn].
    cbn [everyChar] in Hw. apply andb_true_iff in Hw as [Hc Hw'].
    assert (Hw : everyChar w (String d s) = true) by exact Hw'.
    destruct (IH Hn Hw) as (In & Ie & Iw & _).
    destruct (stripLast_head d s) as [(E & -> & Ed)|(t & E)]; rewrite E in *.
    + rewrite Ed, andb_true_r in Hcd. simpl. rewrite Hcd, Hc. repeat split; auto.
    + rewrite noAdjacent_cons, endsOutside_cons, Hcd, In.
      cbn [everyChar startsOutside] in *. rewrite Hc.
      repeat split; auto.
Qed.

Lemma stripEdges_spec (w : ascii -> bool) (s : string) :
  noAdjacent isUnderscore s = true ->
  everyChar w s = true ->
  noAdjacent isUnderscore (stripEdges s) = true
  /\ endsOutside isUnderscore (stripEdges s) = true
  /\ everyChar w (stripEdges s) = true
  /\ startsOutside isUnderscore (stripEdges s) = true.
Proof.
  intros Hn Hw. destruct s as [|c s]; [repeat split; reflexivity|].
  cbn [stripEdges]. destruct (isUnderscore c) eqn:Ec.
  - assert (Hs : noAdjacent isUnderscore s = true
                 /\ everyChar w s = true
                 /\ startsOutside isUnderscore s = true).
    { cbn [everyChar] in Hw. apply andb_true_iff in Hw as [_ Hw].
      destruct s as [|d s]; [repeat split; reflexivity|].
      rewrite noAdjacent_cons in Hn. apply andb_true_iff in Hn as [Hcd Hn].
      rewrite Ec in Hcd. simpl in Hcd. repeat split; assumption. }
    destruct Hs as (Hn' & Hw' & Hs').
    destruct (stripLast_spec w s Hn' Hw') as (A & B & C & D). auto.
  - destruct (stripLast_spec w (String c s) Hn Hw) as (A & B & C & D).
    repeat split; try assumption. apply D. simpl. now rewrite Ec.
Qed.

Lemma upperChar_underscore (c : ascii) : isUnderscore (upperChar c) = isUnderscore c.
Proof. destruct c as [[] [] [] [] [] [] [] []]; reflexivity. Qed.

Lemma upperChar_macro (c : ascii) : isWord c = true -> isMacroChar (upperChar c) = true.
Proof. destruct c as [[] [] [] [] [] [] [] []]; intros H; try discriminate H; reflexivity. Qed.

Lemma toUpperCase_shape (s : string) :
  noAdjacent isUnderscore (toUpperCase s) = noAdjacent isUnderscore s
  /\ endsOutside isUnderscore (toUpperCase s) = endsOutside isUnderscore s
  /\ startsOutside isUnderscore (toUpperCase s) = startsOutside isUnderscore s.
Proof.
  induction s as [|c s IH]; [repeat split; reflexivity|].
  destruct IH as (A & B & _).
  destruct s as [|d s].
  - simpl. rewrite upperChar_underscore. repeat split; reflexivity.
  - change (toUpperCase (String c (String d s)))
      with (String (upperChar c) (String (upperChar d) (toUpperCase s))).
    change (toUpperCase (String d s))
      with (String (upperChar d) (toUpperCase s)) in A, B.
    rewrite !noAdjacent_cons, !endsOutside_cons, A, B, !upperChar_underscore.
    repeat split; try reflexivity.
    simpl. now rewrite upperChar_underscore.
Qed.

Lemma toUpperCase_macro (s : string) :
  everyChar isWord s = true -> everyChar isMacroChar (toUpperCase s) = true.
Proof.
  unfold toUpperCase. induction s as [|c s IH]; [reflexivity|]. simpl. intros H.
  apply andb_true_iff in H as [Hc Hs]. now rewrite (upperChar_macro c Hc), IH.
Qed.

Lemma noAdjacent_app (p : ascii -> bool) (a b : string) :
  noAdjacent p a = true -> endsOutside p a = true -> noAdjacent p b = true ->
  noAdjacent p (a ++ b) = true.
Proof.
  intros Ha He Hb. induction a as [|c a IH]; [exact Hb|].
  destruct a as [|d a].
  - simpl in He. apply negb_true_iff in He.
    simpl. destruct b as [|e b]; [reflexivity|]. now rewrite He, Hb.
  - rewrite noAdjacent_cons in Ha. apply andb_true_iff in Ha as [Hcd Ha].
    rewrite endsOutside_cons in He. specialize (IH Ha He).
    change (String c (String d a) ++ b) with (String c (String d (a ++ b))).
    change (String d a ++ b) with (String d (a ++ b)) in IH.
    now rewrite noAdjacent_cons, Hcd, IH.
Qed.

Lemma isWord_alnum_or_underscore (c : ascii) :
  isWord (if isAlnum c then c else "_"%char) = true.
Proof. unfold isWord. destruct (isAlnum c) eqn:E; [now rewrite E|reflexivity]. Qed.

(** X4.  Whatever the input, the export macro is a body followed by
    "_API"; it holds capitals, digits and underscores only, never two
    underscores side by side, and the body neither starts nor ends with an
    underscore. *)
Theorem toApiMacro_shape (value : string) :
  exists body,
    toApiMacro value = body ++ "_API"
    /\ everyChar isMacroChar (toApiMacro value) = true
    /\ noAdjacent isUnderscore (toApiMacro value) = true
    /\ startsOutside isUnderscore body = true
    /\ endsOutside isUnderscore body = true.
Proof.
  unfold toApiMacro.
  set (mapped := mapChars (fun c => if isAlnum c then c else "_"%char) value).
  assert (Hm : everyChar isWord mapped = true)
    by apply everyChar_mapChars, isWord_alnum_or_underscore.
  pose proof (everyChar_splitCamel mapped Hm) as Hc.
  pose proof (everyChar_replaceRuns isUnderscore isWord "_" false _ eq_refl Hc) as Hr.
  destruct (replaceRuns_underscores false (splitCamel mapped)) as [Hn _].
  destruct (stripEdges_spec isWord _ Hn Hr) as (A & B & C & D).
  destruct (toUpperCase_shape
              (stripEdges (replaceRuns isUnderscore "_" false (splitCamel mapped))))
    as (A' & B' & D').
  eexists. split; [reflexivity|].
  split; [|split; [|split]].
  - now rewrite everyChar_app, (toUpperCase_macro _ C).
  - apply noAdjacent_app; [now rewrite A'|now rewrite B'|reflexivity].
  - now rewrite D'.
  - now rewrite B'.
Qed.

(* ------------------------------------------------------------------ *)
(** ** [sanitiseIdentifier] once more *)

Lemma sanitiseIdentifier_valid_fixed (value : string) :
  everyChar isWord value = true -> startsIdentifier value = true ->
  sanitiseIdentifier value = value.
Proof.
  intros Hw Hs. unfold sanitiseIdentifier. rewrite (filterChars_all _ _ Hw).
  destruct value as [|c rest]; [reflexivity|].
  simpl in Hs. simpl. rewrite Hs. simpl.
  now rewrite (identifier_start_no_digit c Hs).
Qed.

(** X5.  The names that [sanitiseIdentifier] leaves as they are are the
    valid identifiers and the empty string; what it returns is one of
    them, so sanitising twice is sanitising once. *)
Theorem sanitiseIdentifier_fixed_points (value : string) :
  String.eqb (sanitiseIdentifier value) value
  = everyChar isWord value && startsIdentifier value
  /\ sanitiseIdentifier (sanitiseIdentifier value) = sanitiseIdentifier value.
Proof.
  split; [|apply sanitiseIdentifier_idem].
  destruct (everyChar isWord value && startsIdentifier value) eqn:E.
  - apply andb_true_iff in E as [Hw Hs].
    rewrite (sanitiseIdentifier_valid_fixed value Hw Hs). apply String.eqb_refl.
  - apply String.eqb_neq. intros H. rewrite <- H in E.
    now rewrite sanitiseIdentifier_chars, sanitiseIdentifier_start in E.
Qed.

Lemma truthy_prefixDigit (s : string) : truthy (prefixDigit s) = truthy s.
Proof. destruct s as [|c s]; [reflexivity|]. simpl. now destruct (isDigit c). Qed.

Lemma start_is_word (c : ascii) : isLetter c || isUnderscore c = true -> isWord c = true.
Proof. destruct c as [[] [] [] [] [] [] [] []]; intros H; try discriminate H; reflexivity. Qed.

(** X6.  [sanitiseIdentifier] gives the empty string exactly on the inputs
    without a letter or underscore. *)
Theorem sanitiseIdentifier_empty (value : string) :
  truthy (sanitiseIdentifier value)
  = negb (everyChar (fun c => negb (isLetter c || isUnderscore c)) value).
Proof.
  unfold sanitiseIdentifier. rewrite truthy_prefixDigit.
  induction value as [|c s IH]; [reflexivity|].
  cbn [filterChars everyChar].
  destruct (isLetter c || isUnderscore c) eqn:Es.
  - rewrite (start_is_word c Es). cbn [dropWhile]. rewrite Es. reflexivity.
  - cbn [negb andb]. destruct (isWord c); [|exact IH].
    cbn [dropWhile]. rewrite Es. exact IH.
Qed.

(* ================================================================== *)
(** * Further properties of the normaliser *)
(* ================================================================== *)

(** The loop returns the first candidate that is not taken. *)
Lemma uniqueLoop_least (name : string) (taken : SetOf) (fuel k : nat) (c : string) :
  uniqueLoop fuel name taken (candidateAt name k) (S k) = Some c ->
  exists j, k <= j /\ c = candidateAt name j /\ ~ In c taken
            /\ forall i, k <= i < j -> In (candidateAt name i) taken.
Proof.
  revert k. induction fuel as [|fuel IH]; intros k H; [discriminate H|].
  simpl in H. destruct (has taken (candidateAt name k)) eqn:E.
  - destruct (IH (S k) H) as (j & Hj & Ec & Hc & Hi).
    exists j. repeat split; try assumption; [lia|].
    intros i Hik. destruct (Nat.eq_dec i k) as [->|Hne].
    + now apply has_true.
    + apply Hi. lia.
  - injection H as <-. exists k. repeat split; [lia|now apply has_false|].
    intros i Hi. lia.
Qed.

(** X7.  [uniqueParameterName] returns the name itself when it is free, and
    otherwise the name with the least suffix 1, 2, ... that makes it free:
    all candidates before the one returned are in the set.  The result was
    not in the set and is added at its end; the suffix is at most the size
    of the set. *)
Theorem uniqueParameterName_least (name : string) (taken : SetOf) :
  exists k,
    uniqueParameterName name taken
    = (candidateAt name k, (taken ++ [candidateAt name k])%list)
    /\ k <= length taken
    /\ ~ In (candidateAt name k) taken
    /\ Forall (fun j => In (candidateAt name j) taken) (seq 0 k).
Proof.
  destruct (uniqueParameterName_spec name taken) as (c & Hloop & Hc & Hfresh & _).
  destruct (uniqueLoop_least name taken (S (length taken)) 0 c Hloop)
    as (k & _ & -> & _ & Hless).
  assert (I : incl (map (candidateAt name) (seq 0 k)) taken).
  { intros x Hx. apply in_map_iff in Hx as (j & <- & Hj).
    apply in_seq in Hj. apply Hless. lia. }
  exists k. split; [exact Hc|]. split; [|split; [exact Hfresh|]].
  - pose proof (NoDup_incl_length (candidates_NoDup name k) I) as Hlen.
    now rewrite length_map, length_seq in Hlen.
  - apply Forall_forall. intros j Hj. apply in_seq in Hj. apply Hless. lia.
Qed.

(* ------------------------------------------------------------------ *)
(** ** White space around types *)

Lemma trimStart_head (s : string) : startsOutside isWhitespace (trimStart s) = true.
Proof.
  induction s as [|c s IH]; [reflexivity|].
  simpl. destruct (isWhitespace c) eqn:E; [exact IH|]. simpl. now rewrite E.
Qed.

Lemma trimEnd_idem (s : string) : trimEnd (trimEnd s) = trimEnd s.
Proof.
  induction s as [|c s IH]; [reflexivity|].
  cbn [trimEnd].
  destruct (isWhitespace c && negb (truthy (trimEnd s))) eqn:E; [reflexivity|].
  cbn [trimEnd]. now rewrite IH, E.
Qed.

Lemma trimStart_trimEnd (s : string) :
  startsOutside isWhitespace s = true -> trimStart (trimEnd s) = trimEnd s.
Proof.
  destruct s as [|c s]; [reflexivity|].
  simpl. intros H. apply negb_true_iff in H. rewrite H. simpl. now rewrite H.
Qed.

Lemma trimEnd_head (s : string) :
  startsOutside isWhitespace s = true ->
  startsOutside isWhitespace (trimEnd s) = true.
Proof.
  destruct s as [|c s]; [reflexivity|].
  simpl. intros H. apply negb_true_iff in H. rewrite H. simpl. now rewrite H.
Qed.

Lemma trimEnd_tail (s : string) : endsOutside isWhitespace (trimEnd s) = true.
Proof.
  induction s as [|c s IH]; [reflexivity|].
  cbn [trimEnd].
  destruct (isWhitespace c) eqn:Ec; cbn [andb].
  - destruct (trimEnd s) as [|d t] eqn:Et; [reflexivity|].
    cbn [truthy negb]. exact IH.
  - destruct (trimEnd s) as [|d t] eqn:Et; [simpl; now rewrite Ec|exact IH].
Qed.

(** [trim] leaves no white space at either end, and is idempotent. *)
Lemma trim_spec (s : string) :
  trim (trim s) = trim s
  /\ startsOutside isWhitespace (trim s) = true
  /\ endsOutside isWhitespace (trim s) = true.
Proof.
  unfold trim. pose proof (trimStart_head s) as H.
  rewrite (trimStart_trimEnd _ H), trimEnd_idem.
  repeat split; [now apply trimEnd_head|apply trimEnd_tail].
Qed.

Lemma returnType_trimmed (friendly : string) (index : nat) (fn : BlueprintFunction) :
  trim (returnType (normalizeFunction friendly index fn))
  = returnType (normalizeFunction friendly index fn)
  /\ truthy (returnType (normalizeFunction friendly index fn)) = true.
Proof.
  unfold normalizeFunction.
  destruct (sanitizeParameters index (fparameters fn) []) as [out taken].
  cbn [returnType]. unfold orElse.
  destruct (truthy (trim (freturnType fn))) eqn:E; [|split; reflexivity].
  split; [apply trim_spec|exact E].
Qed.

Lemma Forall_mapFrom {A B : Type} (P : B -> Prop) (f : nat -> A -> B) :
  (forall i x, P (f i x)) -> forall xs i, Forall P (mapFrom f i xs).
Proof.
  intros H. induction xs as [|x xs IH]; intros i; simpl; constructor; auto.
Qed.



(** Outside the normaliser the two tests differ: white space around "void"
    passes the second test only. *)
Example void_tests_differ :
  String.eqb (toLowerCase " void") "void" = false
  /\ defaultReturnSnippet " void" = EmptyString.
Proof. split; reflexivity. Qed.

(* ------------------------------------------------------------------ *)
(** ** Names and types of normalised parameters *)

Lemma digit_is_word (c : ascii) : isDigit c = true -> isWord c = true.
Proof. destruct c as [[] [] [] [] [] [] [] []]; intros H; try discriminate H; reflexivity. Qed.

Lemma startsIdentifier_app (a b : string) :
  truthy a = true -> startsIdentifier a = true -> startsIdentifier (a ++ b) = true.
Proof. destruct a; [discriminate|auto]. Qed.

Lemma safeName_valid (index : nat) (raw : string) :
  let safeName := orElse (sanitiseIdentifier raw) ("Param" ++ ofNat index) in
  everyChar isWord safeName = true
  /\ startsIdentifier safeName = true
  /\ truthy safeName = true.
Proof.
  unfold orElse. destruct (truthy (sanitiseIdentifier raw)) eqn:E.
  - repeat split; [apply sanitiseIdentifier_chars|apply sanitiseIdentifier_start|exact E].
  - repeat split; try reflexivity.
    rewrite everyChar_app. cbn [andb].
    change (everyChar isWord "Param") with true. cbn [andb].
    apply (everyChar_weaken isDigit); [exact digit_is_word|apply ofNat_digits].
Qed.

Lemma candidateAt_valid (name : string) (k : nat) :
  everyChar isWord name = true -> startsIdentifier name = true -> truthy name = true ->
  everyChar isWord (candidateAt name k) = true
  /\ startsIdentifier (candidateAt name k) = true
  /\ truthy (candidateAt name k) = true.
Proof.
  intros Hw Hs Ht. destruct k as [|k]; cbn [candidateAt]; [auto|].
  repeat split.
  - rewrite everyChar_app, Hw.
    apply (everyChar_weaken isDigit); [exact digit_is_word|apply ofNat_digits].
  - now apply startsIdentifier_app.
  - now rewrite truthy_app, Ht.
Qed.

Lemma sanitizeParameters_valid (index : nat) (ps : list BlueprintParameter) :
  forall taken, Forall validParameter (fst (sanitizeParameters index ps taken)).
Proof.
  induction ps as [|p ps IH]; intros taken; [constructor|].
  rewrite sanitizeParameters_cons.
  set (safeName := orElse (sanitiseIdentifier (pname p)) ("Param" ++ ofNat index)).
  destruct (uniqueParameterName_spec safeName taken) as (c & _ & Hc & _ & j & ->).
  rewrite Hc. specialize (IH (taken ++ [candidateAt safeName j])%list).
  destruct (sanitizeParameters index ps _) as [out taken'].
  cbn [fst] in *. constructor; [|exact IH].
  destruct (safeName_valid index (pname p)) as (Hw & Hs & Ht).
  destruct (candidateAt_valid safeName j Hw Hs Ht) as (A & B & C).
  unfold validParameter. cbn [pname ptype].
  repeat split; try assumption.
  - unfold orElse. destruct (truthy (trim (ptype p))) eqn:E; [exact E|reflexivity].
  - unfold orElse. destruct (truthy (trim (ptype p))) eqn:E; [apply trim_spec|reflexivity].
Qed.

(** X9.  In every normalised endpoint each parameter has a name that is a
    valid, non-empty identifier and a type that is non-empty and without
    white space around it; the return type is non-empty and trimmed too. *)
Theorem normalized_endpoint_wellformed (friendly : string)
    (fns : list BlueprintFunction) :
  Forall (fun nf =>
            Forall validParameter (parameters nf)
            /\ truthy (returnType nf) = true
            /\ trim (returnType nf) = returnType nf)
    (normalizeAll friendly fns).
Proof.
  apply Forall_mapFrom. intros index fn.
  destruct (returnType_trimmed friendly index fn) as [Ht Hn].
  split; [|split; assumption].
  rewrite normalizeFunction_parameters.
  apply Forall_app. split; [|apply sanitizeParameters_valid].
  destruct (sanitisesToWorldContext (fparameters fn)); repeat constructor.
Qed.

(** X10.  The metadata of every normalised endpoint is the category of
    the friendly name followed by the world-context tag: the test that
    guards the second tag never fails. *)
Theorem metadataSegments_always_two (friendly : string) (fns : list BlueprintFunction) :
  Forall (fun nf =>
            metadataSegments nf
            = [ "Category=" ++ q (friendly ++ "|Blueprint");
                "WorldContext=" ++ q "WorldContextObject" ])
    (normalizeAll friendly fns).
Proof.
  apply Forall_mapFrom. intros index fn. unfold normalizeFunction.
  destruct (sanitizeParameters index (fparameters fn) []) as [out taken].
  cbn [metadataSegments]. destruct (namesWorldContext out); reflexivity.
Qed.

(* ------------------------------------------------------------------ *)
(** ** Derived identifiers *)

Lemma alnum_is_word (c : ascii) : isAlnum c = true -> isWord c = true.
Proof. intros H. unfold isWord. now rewrite H. Qed.

(** X11.  Whatever the code name, the module name holds letters and digits
    only, and the log category and the three class names are valid,
    non-empty identifiers. *)
Theorem derived_identifiers_valid (metadata : PluginMetadata) :
  everyChar isAlnum (moduleNameOf metadata) = true
  /\ Forall (fun identifier =>
               everyChar isWord identifier = true
               /\ startsIdentifier identifier = true
               /\ truthy identifier = true)
       [ logCategoryOf (moduleNameOf metadata);
         moduleClassOf (moduleNameOf metadata);
         blueprintClassOf (moduleNameOf metadata);
         asyncActionClassOf (moduleNameOf metadata) ].
Proof.
  assert (Ha : everyChar isAlnum (moduleNameOf metadata) = true)
    by apply toPascalCase_chars.
  assert (Hw : everyChar isWord (moduleNameOf metadata) = true)
    by (apply (everyChar_weaken isAlnum); [exact alnum_is_word|exact Ha]).
  split; [exact Ha|].
  unfold logCategoryOf, moduleClassOf, blueprintClassOf, asyncActionClassOf.
  repeat constructor; rewrite ?everyChar_app, ?Hw; reflexivity.
Qed.

(* ================================================================== *)
(** * Further properties of the component *)
(* ================================================================== *)

Lemma truthy_blueprintHeader (metadata : PluginMetadata)
    (blueprintClass moduleApiMacro moduleName : string)
    (normalized : list NormalizedFunction) :
  truthy (blueprintHeader metadata blueprintClass moduleApiMacro moduleName normalized)
  = enableBlueprintLibrary metadata.
Proof. unfold blueprintHeader. destruct (enableBlueprintLibrary metadata); reflexivity. Qed.

Lemma truthy_editorHeader (metadata : PluginMetadata) (moduleClass : string) :
  truthy (editorHeader metadata moduleClass) = enableEditorModule metadata.
Proof. unfold editorHeader. destruct (enableEditorModule metadata); reflexivity. Qed.

(** X12.  Which panels are on screen depends on three flags only: the
    descriptor, the two module files and the build script always, and one
    pair each for the blueprint library, the async action and the editor
    module, in this order. *)
Theorem panels_by_flags (metadata : PluginMetadata) (fns : list BlueprintFunction) :
  map title (artifacts metadata fns)
  = ([ ".uplugin descriptor"; "Runtime module header"; "Runtime module source";
       "Build.cs" ]
     ++ (if enableBlueprintLibrary metadata
         then ["Blueprint library header"; "Blueprint library source"] else [])
     ++ (if enableAsyncActions metadata
         then ["Async action header"; "Async action source"] else [])
     ++ (if enableEditorModule metadata
         then ["Editor module header"; "Editor module source"] else []))%list.
Proof.
  unfold artifacts, view.
  rewrite truthy_blueprintHeader, truthy_asyncHeader, truthy_editorHeader.
  destruct (enableBlueprintLibrary metadata), (enableAsyncActions metadata),
    (enableEditorModule metadata); reflexivity.
Qed.

(** X13.  Without the editor module the editor-menu flag changes no
    artifact. *)
Theorem editorMenu_needs_editorModule (metadata : PluginMetadata)
    (fns : list BlueprintFunction) :
  enableEditorModule metadata = false ->
  artifacts (toggle EnableEditorMenu metadata) fns = artifacts metadata fns.
Proof.
  intros H. destruct metadata. cbn in H. subst. reflexivity.
Qed.

Lemma editorMenu_needs_editorModule_witness :
  enableEditorModule blankMetadata = false
  /\ artifacts (toggle EnableEditorMenu blankMetadata) defaultFunctions
     = artifacts blankMetadata defaultFunctions.
Proof.
  split; [reflexivity|].
  apply (editorMenu_needs_editorModule blankMetadata defaultFunctions). reflexivity.
Defined.

(* ------------------------------------------------------------------ *)
(** ** Removing and adding endpoints *)

Lemma removeAt_split {A : Type} (index : nat) (xs : list A) :
  removeAt index xs = (firstn index xs ++ skipn (S index) xs)%list.
Proof.
  revert index. induction xs as [|x xs IH]; intros [|index]; simpl; try reflexivity.
  now rewrite IH.
Qed.

Lemma removeAt_beyond {A : Type} (index : nat) (xs : list A) :
  length xs <= index -> removeAt index xs = xs.
Proof.
  revert index. induction xs as [|x xs IH]; intros [|index] H; simpl in *;
    try reflexivity; try lia.
  now rewrite IH by lia.
Qed.

(** X14.  Removing at an index takes out the endpoint at that place and no
    other; an index beyond the list removes nothing.  The metadata and the
    four fields of the form (name, return type, description and parameter
    draft) are left alone. *)
Theorem remove_function (fresh index : nat) (s : State) :
  let s' := handleRemoveBlueprintFunction fresh index s in
  let before := target (blueprintFunctions s) in
  target (blueprintFunctions s')
  = (firstn index before ++ skipn (S index) before)%list
  /\ (if Nat.ltb index (length before)
      then length (target (blueprintFunctions s')) = length before - 1
      else target (blueprintFunctions s') = before)
  /\ metadata s' = metadata s
  /\ newFunctionName s' = newFunctionName s
  /\ newFunctionReturnType s' = newFunctionReturnType s
  /\ newFunctionDescription s' = newFunctionDescription s
  /\ parameterDraft s' = parameterDraft s.
Proof.
  unfold handleRemoveBlueprintFunction.
  cbn [blueprintFunctions target metadata parameterDraft newFunctionName
       newFunctionReturnType newFunctionDescription].
  split; [apply removeAt_split|]. split; [|repeat split].
  destruct (Nat.ltb_spec index (length (target (blueprintFunctions s)))) as [H|H].
  - rewrite removeAt_split, length_app, length_firstn, length_skipn. lia.
  - now apply removeAt_beyond.
Qed.

Lemma removeAt_push {A : Type} (xs : list A) (x : A) :
  removeAt (length xs) (push xs x) = xs.
Proof. unfold push. induction xs as [|y ys IH]; simpl; [reflexivity|]. now rewrite IH. Qed.

(** X15.  Removing at the place where an endpoint was just added gives the
    list of before; when the add was refused for want of a name, the same
    removal is beyond the list and removes nothing. *)
Theorem add_then_remove (fresh fresh' : nat) (s : State) :
  let added := handleAddBlueprintFunction fresh s in
  let removed :=
    handleRemoveBlueprintFunction fresh'
      (length (target (blueprintFunctions s))) added in
  target (blueprintFunctions removed) = target (blueprintFunctions s)
  /\ metadata removed = metadata s.
Proof.
  cbn. unfold handleAddBlueprintFunction.
  destruct (negb (truthy (trim (newFunctionName s)))); cbn.
  - split; [|reflexivity]. apply removeAt_beyond. lia.
  - split; [|reflexivity]. apply removeAt_push.
Qed.

(* ------------------------------------------------------------------ *)
(** ** Feature flags *)

(** X16.  Toggling a feature twice gives the state of before, and toggles
    of two features commute. *)
Theorem toggle_involution (k k' : FeatureKey) (s : State) :
  handleToggleFeature k (handleToggleFeature k s) = s
  /\ handleToggleFeature k (handleToggleFeature k' s)
     = handleToggleFeature k' (handleToggleFeature k s).
Proof.
  destruct s as [m bf n r d p], m. unfold handleToggleFeature, withMetadata, toggle.
  cbn. split.
  - destruct k; cbn; rewrite ?negb_involutive; reflexivity.
  - destruct k, k'; reflexivity.
Qed.

(* ------------------------------------------------------------------ *)
(** ** What the screen does not depend on *)

Lemma typing_keeps (fresh : nat) (e : Event) (s : State) :
  isTyping e = true ->
  metadata (handle fresh e s) = metadata s
  /\ blueprintFunctions (handle fresh e s) = blueprintFunctions s.
Proof. destruct e; intros H; try discriminate H; split; reflexivity. Qed.

(** X17.  Typing in the form for a new endpoint changes no panel. *)
Theorem typing_keeps_screen (steps : list Step) (e : Event) :
  isTyping e = true ->
  screen (steps ++ [Dispatch e]) = screen steps.
Proof.
  intros H. rewrite !screen_artifacts, run_snoc. cbn [step dispatch state].
  destruct (typing_keeps (nextIdent (run steps)) e (state (run steps)) H) as [-> ->].
  reflexivity.
Qed.

Lemma typing_keeps_screen_witness :
  isTyping (TypeParameterDraft "Speed:float") = true
  /\ screen ([Render] ++ [Dispatch (TypeParameterDraft "Speed:float")]) = screen [Render].
Proof.
  split; [reflexivity|].
  apply (typing_keeps_screen [Render] (TypeParameterDraft "Speed:float")). reflexivity.
Defined.

(* ------------------------------------------------------------------ *)
(** ** A render without an event in between *)

#[export] Instance ObjectIsRefl_string : ObjectIsRefl string.
Proof. intros a. apply String.eqb_refl. Qed.

#[export] Instance ObjectIsRefl_bool : ObjectIsRefl bool.
Proof. intros a. apply Bool.eqb_reflx. Qed.

#[export] Instance ObjectIsRefl_phase : ObjectIsRefl LoadingPhase.
Proof. intros a. apply String.eqb_refl. Qed.

#[export] Instance ObjectIsRefl_ref {A : Type} : ObjectIsRefl (Ref A).
Proof. intros a. apply Nat.eqb_refl. Qed.

#[export] Instance ObjectIsRefl_pair {A B : Type} `{ObjectIsRefl A} `{ObjectIsRefl B} :
  ObjectIsRefl (A * B).
Proof.
  intros [a b]. unfold same, ObjectIs_pair. cbn. now rewrite !same_refl.
Qed.

(** A hook asked again with the same dependencies hits its cell, whatever
    its function would compute now. *)
Lemma useHook_again {E D V : Type} `{ObjectIsRefl D} (h h' : Hook E D V)
    (cell c : Cell D V) (v : V) (scope scope' : E) :
  useHook h cell scope = (c, v) ->
  depsOf h' scope' = depsOf h scope ->
  useHook h' c scope' = (c, v).
Proof.
  unfold useHook, useMemo. intros Hu ->.
  destruct cell as [[d w]|].
  - destruct (same d (depsOf h scope)) eqn:Hit.
    + injection Hu as <- <-. now rewrite Hit.
    + injection Hu as <- <-. now rewrite same_refl.
  - injection Hu as <- <-. now rewrite same_refl.
Qed.

Ltac again h :=
  match goal with
  | E : useHook h ?c ?s = (?c', ?v) |- _ =>
      rewrite (useHook_again h h c c' v s _ E eq_refl)
  end.

(** X18.  A second render without an event in between hits every cell:
    the cells stay as the first render left them, and the panels are the
    same. *)
Theorem render_again (i : Instance) :
  memo (fst (render (fst (render i)))) = memo (fst (render i))
  /\ snd (render (fst (render i))) = snd (render i).
Proof.
  unfold render.
  destruct (renderBody (nextIdent i) (state i) (memo i)) as [m out] eqn:R.
  cbn [fst snd state memo nextIdent].
  assert (G : renderBody (S (nextIdent i)) (state i) m = (m, out)).
  { unfold renderBody in *.
    destruct (useHook normalizedHook _ _) as [c1 v1] eqn:E1 in R.
    destruct (useHook moduleNameHook _ _) as [c2 v2] eqn:E2 in R.
    destruct (useHook moduleApiMacroHook _ _) as [c3 v3] eqn:E3 in R.
    destruct (useHook logCategoryHook _ _) as [c4 v4] eqn:E4 in R.
    destruct (useHook moduleClassHook _ _) as [c5 v5] eqn:E5 in R.
    destruct (useHook blueprintClassHook _ _) as [c6 v6] eqn:E6 in R.
    destruct (useHook asyncActionClassHook _ _) as [c7 v7] eqn:E7 in R.
    destruct (useHook descriptorJsonHook _ _) as [c8 v8] eqn:E8 in R.
    destruct (useHook moduleHeaderHook _ _) as [c9 v9] eqn:E9 in R.
    destruct (useHook moduleSourceHook _ _) as [c10 v10] eqn:E10 in R.
    destruct (useHook buildScriptHook _ _) as [c11 v11] eqn:E11 in R.
    destruct (useHook blueprintHeaderHook _ _) as [c12 v12] eqn:E12 in R.
    destruct (useHook blueprintSourceHook _ _) as [c13 v13] eqn:E13 in R.
    destruct (useHook editorHeaderHook _ _) as [c14 v14] eqn:E14 in R.
    destruct (useHook editorSourceHook _ _) as [c15 v15] eqn:E15 in R.
    destruct (useHook asyncHeaderHook _ _) as [c16 v16] eqn:E16 in R.
    destruct (useHook asyncSourceHook _ _) as [c17 v17] eqn:E17 in R.
    injection R as <- <-.
    cbn [cNormalized cModuleName cModuleApiMacro cLogCategory cModuleClass
         cBlueprintClass cAsyncActionClass cDescriptorJson cModuleHeader
         cModuleSource cBuildScript cBlueprintHeader cBlueprintSource
         cEditorHeader cEditorSource cAsyncHeader cAsyncSource].
    rewrite (useHook_again normalizedHook normalizedHook _ c1 v1 _
               (S (nextIdent i), blueprintFunctions (state i), metadata (state i))
               E1 eq_refl).
    again moduleNameHook. again moduleApiMacroHook. again logCategoryHook.
    again moduleClassHook. again blueprintClassHook. again asyncActionClassHook.
    again descriptorJsonHook. again moduleHeaderHook. again moduleSourceHook.
    again buildScriptHook. again blueprintHeaderHook. again blueprintSourceHook.
    again editorHeaderHook. again editorSourceHook. again asyncHeaderHook.
    again asyncSourceHook. reflexivity. }
  rewrite G. split; reflexivity.
Qed.

(* ================================================================== *)
(** * Further properties of the descriptor *)
(* ================================================================== *)

Lemma jsonChars_quoteChar (c : ascii) (rest : string) :
  jsonChars (quoteChar c ++ rest) = jsonChars rest.
Proof. destruct c as [[] [] [] [] [] [] [] []]; reflexivity. Qed.

(** X19.  What [JSON.stringify] writes for a string is a JSON string: a
    quotation mark, then characters from U+0020 on other than the
    quotation mark and the reverse solidus, or escapes, then a quotation
    mark.  So no text of the metadata can break out of its field. *)
Theorem quoteJSON_wellformed (s : string) :
  quoteJSON s = dq ++ quoteBody s ++ dq
  /\ jsonChars (quoteBody s) = true.
Proof.
  split; [reflexivity|].
  induction s as [|c s IH]; [reflexivity|].
  cbn [quoteBody]. now rewrite jsonChars_quoteChar.
Qed.

Lemma length_split (sep : ascii) (s : string) :
  length (split sep s) = S (countChar sep s).
Proof.
  induction s as [|c s IH]; [reflexivity|].
  cbn [split countChar]. destruct (Ascii.eqb c sep); cbn [length].
  - now rewrite IH.
  - destruct (split sep s) as [|h t]; [discriminate IH|]. exact IH.
Qed.

(** X20.  The platform list of the descriptor has one entry more than the
    target text has commas, so it is never empty (the empty text gives one
    empty entry); no entry has white space around it. *)
Theorem descriptor_platforms (metadata : PluginMetadata) (moduleName : string) :
  exists entries,
    field "SupportedTargetPlatforms" (descriptorObject metadata moduleName)
    = Some (JArr (map JStr entries))
    /\ length entries = S (countChar "," (supportedTargets metadata))
    /\ Forall (fun entry => trim entry = entry) entries.
Proof.
  exists (map trim (split "," (supportedTargets metadata))).
  split; [cbn; now rewrite map_map|].
  split; [now rewrite length_map, length_split|].
  apply Forall_forall. intros e He. apply in_map_iff in He as (x & <- & _).
  apply trim_spec.
Qed.

(* ================================================================== *)
(** * Further properties of the stored endpoints *)
(* ================================================================== *)

Lemma pairList_spec (entry : string) (nameType : string * string) :
  In nameType (pairList entry) ->
  truthy (fst nameType) = true /\ truthy (snd nameType) = true
  /\ trim (snd nameType) = snd nameType.
Proof.
  unfold pairList, draftPair.
  destruct (map trim (split ":" entry)) as [|name [|type rest]] eqn:E;
    try contradiction.
  destruct (truthy name) eqn:En, (truthy type) eqn:Et; cbn [andb];
    try contradiction.
  intros [<-|[]]. cbn. repeat split; try assumption.
  assert (Hin : In type (map trim (split ":" entry))) by (rewrite E; right; now left).
  apply in_map_iff in Hin as (x & <- & _). apply trim_spec.
Qed.

Lemma parseParameterDraft_stored (draft : string) :
  Forall storedParameter (parseParameterDraft draft).
Proof.
  rewrite parseParameterDraft_wellFormed. apply Forall_forall.
  intros p Hp. apply in_map_iff in Hp as (nameType & <- & Hin).
  unfold wellFormedPairs in Hin. apply in_flat_map in Hin as (entry & _ & Hin).
  destruct (pairList_spec _ _ Hin) as (Hn & Ht & Htrim).
  unfold storedParameter. split; [apply parameterOfPair_stored|].
  cbn. repeat split; try assumption.
  unfold orElse. destruct (truthy (sanitiseIdentifier (fst nameType))) eqn:E;
    [exact E|reflexivity].
Qed.

Lemma handle_storedEndpoint (fresh : nat) (e : Event) (s : State) :
  Forall storedEndpoint (target (blueprintFunctions s)) ->
  Forall storedEndpoint (target (blueprintFunctions (handle fresh e s))).
Proof.
  intros Hs. destruct e; cbn [handle]; try assumption.
  - unfold handleAddBlueprintFunction.
    destruct (truthy (trim (newFunctionName s))) eqn:En; cbn; [|assumption].
    unfold push. apply Forall_app. split; [assumption|].
    constructor; [|constructor].
    unfold storedEndpoint. cbn.
    repeat split.
    + exact En.
    + apply trim_spec.
    + apply orElse_truthy. reflexivity.
    + apply orElse_truthy. reflexivity.
    + apply parseParameterDraft_stored.
  - cbn. apply Forall_forall. intros fn Hfn. apply removeAt_incl in Hfn.
    revert fn Hfn. now apply Forall_forall.
Qed.

Lemma defaultFunctions_stored : Forall storedEndpoint defaultFunctions.
Proof.
  repeat constructor.
Qed.

(** X21.  After any history every endpoint in the state has a non-empty
    name, return type and description, and parameters whose names are
    non-empty identifiers that sanitising leaves alone and whose types are
    non-empty and trimmed: the handler stores nothing else. *)
Theorem run_storedEndpoint (steps : list Step) :
  Forall storedEndpoint (target (blueprintFunctions (state (run steps)))).
Proof.
  induction steps as [|st steps IH] using rev_ind; [exact defaultFunctions_stored|].
  rewrite run_snoc. destruct st; cbn [step].
  - now apply handle_storedEndpoint.
  - now rewrite render_state.
Qed.

(** X22.  On the endpoints the component stores, the normaliser puts the
    context parameter in front exactly when no parameter is named
    "WorldContextObject" as stored: there the wording of C1 holds. *)
Theorem stored_context_parameter (steps : list Step) (friendly : string) :
  Forall2 (fun fn nf =>
             exists sanitized,
               length sanitized = length (fparameters fn)
               /\ parameters nf
                  = ((if namesWorldContext (fparameters fn)
                      then [] else [worldContextParameter]) ++ sanitized)%list)
    (target (blueprintFunctions (state (run steps))))
    (normalizeAll friendly (target (blueprintFunctions (state (run steps))))).
Proof.
  pose proof (run_storedNames steps) as Hs.
  set (fns := target (blueprintFunctions (state (run steps)))) in *.
  assert (G : forall xs i,
             (forall fn, In fn xs -> In fn fns) ->
             Forall2 (fun fn nf =>
               exists sanitized,
                 length sanitized = length (fparameters fn)
                 /\ parameters nf
                    = ((if namesWorldContext (fparameters fn)
                        then [] else [worldContextParameter]) ++ sanitized)%list)
               xs (mapFrom (normalizeFunction friendly) i xs)).
  { induction xs as [|x xs IH]; intros i Hin; cbn [mapFrom]; constructor.
    - exists (fst (sanitizeParameters i (fparameters x) [])).
      split; [apply length_sanitizeParameters|].
      rewrite normalizeFunction_parameters, stored_worldContext; [reflexivity|].
      intros p Hp. apply (Hs x p); [apply Hin; now left|assumption].
    - apply IH. intros fn Hfn. apply Hin. now right. }
  apply G. auto.
Qed.

(* ================================================================== *)
(** * Further properties of the panels *)
(* ================================================================== *)

Lemma strlen_app (a b : string) :
  String.length (a ++ b) = String.length a + String.length b.
Proof. induction a as [|c a IH]; simpl; [reflexivity|]. now rewrite IH. Qed.

Lemma lastChar_app (a b : string) :
  truthy b = true -> lastChar (a ++ b) = lastChar b.
Proof.
  intros Hb. induction a as [|c a IH]; [reflexivity|].
  change (String c a ++ b) with (String c (a ++ b)).
  destruct (a ++ b) as [|d t] eqn:E.
  - destruct a; [simpl in E; subst b; discriminate Hb|discriminate E].
  - exact IH.
Qed.

Ltac last_char H :=
  apply (f_equal lastChar) in H;
  repeat (rewrite lastChar_app in H
            by (rewrite ?truthy_app, ?orb_true_r; reflexivity));
  discriminate H.

Ltac distinct_paths :=
  constructor;
  [ let Hin := fresh in
    intros Hin; cbn [In] in Hin;
    repeat (destruct Hin as [Hin|Hin]; [last_char Hin|]); exact Hin
  | apply NoDup_map_inv with (f := String.length); cbn [map];
    rewrite ?strlen_app; cbn [String.length];
    repeat constructor; cbn [In]; lia ].

(** X23.  No two panels on screen have the same target path. *)
Theorem panel_paths_distinct (metadata : PluginMetadata) (fns : list BlueprintFunction) :
  NoDup (map filename (artifacts metadata fns)).
Proof.
  unfold artifacts, view.
  rewrite truthy_blueprintHeader, truthy_asyncHeader, truthy_editorHeader.
  generalize (moduleNameOf metadata) as moduleName. intros moduleName.
  destruct (enableBlueprintLibrary metadata), (enableAsyncActions metadata),
    (enableEditorModule metadata);
    cbn [andb app map filename]; distinct_paths.
Qed.

(* ================================================================== *)
(** * The copy control *)
(* ================================================================== *)

(** X24.  The mark "Copied" of a panel is on only while a timer that
    clears it is pending: once all timers have fired the control reads
    "Copy" again, whatever succeeded or failed before. *)
Theorem copied_has_timer (events : list CopyEvent) :
  copied (copyRun events) && Nat.eqb (pendingTimers (copyRun events)) 0 = false.
Proof.
  unfold copyRun. induction events as [|e events IH] using rev_ind; [reflexivity|].
  rewrite fold_left_app. cbn [fold_left].
  destruct e; cbn; try reflexivity.
  destruct (pendingTimers (fold_left copyStep events copyInitial)) eqn:E.
  - rewrite E. exact IH.
  - reflexivity.
Qed.

(* ================================================================== *)
(** * Keys of the normalised endpoints *)
(* ================================================================== *)

Lemma tailDigits_digits (d : string) : everyChar isDigit d = true -> tailDigits d = d.
Proof. destruct d as [|c d]; [reflexivity|]. intros H. cbn [tailDigits]. now rewrite H. Qed.

Lemma tailDigits_key (name d : string) :
  everyChar isDigit d = true -> tailDigits (name ++ "-" ++ d) = d.
Proof.
  intros Hd. induction name as [|c name IH].
  - cbn. now apply tailDigits_digits.
  - change (String c name ++ "-" ++ d) with (String c (name ++ "-" ++ d)).
    cbn [tailDigits]. rewrite IH.
    replace (everyChar isDigit (String c (name ++ "-" ++ d))) with false; [reflexivity|].
    cbn [everyChar]. rewrite everyChar_app. cbn.
    now rewrite !andb_false_r.
Qed.

Lemma key_index (friendly : string) (i j : nat) (fn fn' : BlueprintFunction) :
  key (normalizeFunction friendly i fn) = key (normalizeFunction friendly j fn') ->
  i = j.
Proof.
  unfold normalizeFunction.
  destruct (sanitizeParameters i (fparameters fn) []) as [o t].
  destruct (sanitizeParameters j (fparameters fn') []) as [o' t'].
  cbn [key]. intros H. apply (f_equal tailDigits) in H.
  rewrite !tailDigits_key in H by apply ofNat_digits.
  now apply ofNat_inj.
Qed.

Lemma in_mapFrom {A B : Type} (f : nat -> A -> B) (xs : list A) (i : nat) (y : B) :
  In y (mapFrom f i xs) -> exists j x, i <= j /\ y = f j x.
Proof.
  revert i. induction xs as [|x xs IH]; intros i; cbn [mapFrom]; [intros []|].
  intros [<-|H].
  - exists i, x. split; [lia|reflexivity].
  - destruct (IH (S i) H) as (j & x' & Hj & E). exists j, x'. split; [lia|assumption].
Qed.

(** X25.  The keys of the normalised endpoints are pairwise different,
    also when two endpoints have the same name: each key ends with the
    place of its endpoint in the list. *)
Theorem normalized_keys_distinct (friendly : string) (fns : list BlueprintFunction) :
  NoDup (map key (normalizeAll friendly fns)).
Proof.
  unfold normalizeAll, mapIndexed. generalize 0 as i.
  induction fns as [|fn fns IH]; intros i; cbn [mapFrom map]; constructor.
  - intros Hin. apply in_map_iff in Hin as (nf & Hk & Hin).
    apply in_mapFrom in Hin as (j & fn' & Hj & ->).
    symmetry in Hk. apply key_index in Hk. lia.
  - apply IH.
Qed.

(* ================================================================== *)
(** * What a panel shows and what it copies *)
(* ================================================================== *)

Lemma trimStart_fixed (s : string) :
  startsOutside isWhitespace s = true -> trimStart s = s.
Proof.
  destruct s as [|c s]; [reflexivity|]. simpl. intros H.
  apply negb_true_iff in H. now rewrite H.
Qed.

Lemma shown_copied (block : CodeBlock) :
  startsOutside isWhitespace (code block) = true ->
  shownText block = copiedText block.
Proof. intros H. unfold shownText, copiedText, trim. now rewrite trimStart_fixed. Qed.

Lemma startsOutside_lines (p : ascii -> bool) (c : ascii) (l : string)
    (rest : list string) :
  startsOutside p (lines (String c l :: rest)) = negb (p c).
Proof. destruct rest; reflexivity. Qed.

Lemma startsOutside_app (p : ascii -> bool) (c : ascii) (a b : string) :
  startsOutside p (String c a ++ b) = negb (p c).
Proof. reflexivity. Qed.

(** No artifact starts with white space. *)
Lemma starts_descriptorJson (metadata : PluginMetadata) (moduleName : string) :
  startsOutside isWhitespace (descriptorJson metadata moduleName) = true.
Proof.
  unfold descriptorJson, stringify, descriptorObject. cbn [stringifyAt].
  apply startsOutside_app.
Qed.

Lemma starts_moduleHeader (metadata : PluginMetadata) (logCategory moduleClass : string) :
  startsOutside isWhitespace (moduleHeader metadata logCategory moduleClass) = true.
Proof. unfold moduleHeader. apply startsOutside_lines. Qed.

Lemma starts_moduleSource (metadata : PluginMetadata)
    (logCategory moduleClass moduleName : string) :
  startsOutside isWhitespace (moduleSource metadata logCategory moduleClass moduleName)
  = true.
Proof.
  unfold moduleSource. cbv zeta. rewrite lines_cons by discriminate.
  apply startsOutside_app.
Qed.

Lemma starts_buildScript (metadata : PluginMetadata) (moduleName : string) :
  startsOutside isWhitespace (buildScript metadata moduleName) = true.
Proof. unfold buildScript. apply startsOutside_lines. Qed.

Lemma starts_blueprintHeader (metadata : PluginMetadata)
    (blueprintClass moduleApiMacro moduleName : string)
    (normalized : list NormalizedFunction) :
  enableBlueprintLibrary metadata = true ->
  startsOutside isWhitespace
    (blueprintHeader metadata blueprintClass moduleApiMacro moduleName normalized) = true.
Proof. intros H. unfold blueprintHeader. rewrite H. apply startsOutside_lines. Qed.

Lemma starts_blueprintSource (metadata : PluginMetadata)
    (blueprintClass logCategory moduleName : string)
    (normalized : list NormalizedFunction) :
  enableBlueprintLibrary metadata = true ->
  startsOutside isWhitespace
    (blueprintSource metadata blueprintClass logCategory moduleName normalized) = true.
Proof.
  intros H. unfold blueprintSource. rewrite H. cbn [negb]. cbv zeta.
  rewrite lines_cons by discriminate. apply startsOutside_app.
Qed.

Lemma starts_asyncHeader (metadata : PluginMetadata)
    (asyncActionClass moduleApiMacro moduleName : string) :
  enableAsyncActions metadata = true ->
  startsOutside isWhitespace
    (asyncHeader metadata asyncActionClass moduleApiMacro moduleName) = true.
Proof. intros H. unfold asyncHeader. rewrite H. apply startsOutside_lines. Qed.

Lemma starts_asyncSource (metadata : PluginMetadata)
    (asyncActionClass logCategory moduleName : string) :
  enableAsyncActions metadata = true ->
  startsOutside isWhitespace
    (asyncSource metadata asyncActionClass logCategory moduleName) = true.
Proof.
  intros H. unfold asyncSource. rewrite H. cbn [negb].
  rewrite lines_cons by discriminate. apply startsOutside_app.
Qed.

Lemma starts_editorHeader (metadata : PluginMetadata) (moduleClass : string) :
  enableEditorModule metadata = true ->
  startsOutside isWhitespace (editorHeader metadata moduleClass) = true.
Proof. intros H. unfold editorHeader. rewrite H. apply startsOutside_lines. Qed.

Lemma starts_editorSource (metadata : PluginMetadata)
    (moduleClass moduleName logCategory : string) :
  enableEditorModule metadata = true ->
  startsOutside isWhitespace
    (editorSource metadata moduleClass moduleName logCategory) = true.
Proof.
  intros H. unfold editorSource. rewrite H. cbn [negb]. cbv zeta.
  rewrite lines_cons by discriminate.
  destruct (enableEditorMenu metadata); unfold push; cbn [app join];
    apply startsOutside_app.
Qed.

(** X26.  For every panel on screen the text that the copy control writes
    to the clipboard is the text that the panel shows: no artifact starts
    with white space, and both cut the white space at the end. *)
Theorem shown_equals_copied (metadata : PluginMetadata) (fns : list BlueprintFunction) :
  Forall (fun block => shownText block = copiedText block) (artifacts metadata fns).
Proof.
  unfold artifacts, view.
  rewrite truthy_blueprintHeader, truthy_asyncHeader, truthy_editorHeader.
  repeat (apply Forall_app; split).
  - repeat (apply Forall_cons; [apply shown_copied; cbn [code]|]);
      [apply starts_descriptorJson|apply starts_moduleHeader
      |apply starts_moduleSource|apply starts_buildScript|apply Forall_nil].
  - destruct (enableBlueprintLibrary metadata) eqn:E; cbn [andb]; [|apply Forall_nil].
    repeat (apply Forall_cons; [apply shown_copied; cbn [code]|]);
      [now apply starts_blueprintHeader|now apply starts_blueprintSource
      |apply Forall_nil].
  - destruct (enableAsyncActions metadata) eqn:E; cbn [andb]; [|apply Forall_nil].
    repeat (apply Forall_cons; [apply shown_copied; cbn [code]|]);
      [now apply starts_asyncHeader|now apply starts_asyncSource|apply Forall_nil].
  - destruct (enableEditorModule metadata) eqn:E; cbn [andb]; [|apply Forall_nil].
    repeat (apply Forall_cons; [apply shown_copied; cbn [code]|]);
      [now apply starts_editorHeader|now apply starts_editorSource|apply Forall_nil].
Qed.

(* ================================================================== *)
(** * Names that need no change *)
(* ================================================================== *)

Lemma sanitizeParameters_keeps (index : nat) (ps : list BlueprintParameter) :
  forall taken,
    Forall (fun p => sanitiseIdentifier (pname p) = pname p /\ truthy (pname p) = true) ps ->
    NoDup (taken ++ map pname ps) ->
    map pname (fst (sanitizeParameters index ps taken)) = map pname ps.
Proof.
  induction ps as [|p ps IH]; intros taken Hv Hnd; [reflexivity|].
  inversion Hv as [|? ? [Hs Ht] Hv']; subst.
  rewrite sanitizeParameters_cons.
  assert (Hsafe : orElse (sanitiseIdentifier (pname p)) ("Param" ++ ofNat index)
                  = pname p)
    by (unfold orElse; now rewrite Hs, Ht).
  rewrite Hsafe.
  cbn [map] in Hnd.
  assert (Hfree : ~ In (pname p) taken).
  { apply NoDup_remove_2 in Hnd. intros H. apply Hnd. apply in_or_app. now left. }
  rewrite (uniqueParameterName_free _ _ Hfree).
  specialize (IH (taken ++ [pname p])%list Hv').
  destruct (sanitizeParameters index ps (taken ++ [pname p])%list) as [out taken'].
  cbn [fst map pname] in *. f_equal. apply IH.
  now rewrite <- app_assoc.
Qed.

(** X27.  Parameters whose names are non-empty identifiers, pairwise
    different, keep their names in the normalised endpoint, in their
    order; a suffix appears only where two names collide. *)
Theorem distinct_names_kept (index : nat) (ps : list BlueprintParameter) :
  Forall (fun p => sanitiseIdentifier (pname p) = pname p /\ truthy (pname p) = true) ps ->
  NoDup (map pname ps) ->
  map pname (fst (sanitizeParameters index ps [])) = map pname ps.
Proof. intros Hv Hnd. now apply sanitizeParameters_keeps. Qed.

Lemma distinct_names_kept_witness :
  map pname
    (fst (sanitizeParameters 0
            [ {| pname := "EventTag"; ptype := "FName" |};
              {| pname := "Payload"; ptype := "FGameplayTagContainer" |} ] []))
  = ["EventTag"; "Payload"].
Proof.
  apply (distinct_names_kept 0
           [ {| pname := "EventTag"; ptype := "FName" |};
             {| pname := "Payload"; ptype := "FGameplayTagContainer" |} ]).
  - repeat constructor.
  - repeat constructor; simpl; intuition discriminate.
Defined.
